(** * FibreField icon generator

    A shallow embedding of [scripts/generate_icons.py]: the four icon
    composers ([create_fiber_icon], [create_capture_icon],
    [create_assignments_icon], [create_sync_icon]) and the export loop
    [generate_all_icons].

    Conventions of the embedding.
    - Python integers are [Z]; [//] on integers is [Z.div] (floor).
    - A float that is turned back into an integer ([int(n * 0.85)], the alpha
      of a ring) is a binary64 number, computed with the kernel's IEEE 754
      operations, and [int(..)] truncates it towards zero.
    - A float that the script only uses as a coordinate is the real number it
      approximates ([R]).
    - The script draws through Pillow ([Image], [ImageDraw]).  A composer is the
      ordered list of the primitive calls it makes ([Draw]) folded over the
      blank image; what a primitive does to a pixel is the business of a
      [Rasteriser], of which only the properties listed in that record are
      used. *)

From Stdlib Require Import Floats Uint63.
From Stdlib Require Import ZArith List String Ascii Bool Lia Reals Lra DecimalString FinFun.
From Stdlib Require DecimalPos DecimalZ.
Import ListNotations.
Local Close Scope uint63_scope.
Local Close Scope float_scope.
Local Open Scope string_scope.
Local Open Scope list_scope.
Local Open Scope Z_scope.

(** The decimal literals of the script are read as Python reads them: the
    nearest binary64 number. *)
Set Warnings "-inexact-float".

(** ** Python and NumPy helpers *)

Module Py.

(** [len(range(start, stop, step))]. *)
Definition range_len (start stop step : Z) : Z :=
  if 0 <? step then
    if start <? stop then (stop - start + step - 1) / step else 0
  else if step <? 0 then
    if stop <? start then (start - stop - step - 1) / (- step) else 0
  else 0.

(** [range(start, stop, step)] as a list. *)
Definition range (start stop step : Z) : list Z :=
  map (fun k => start + step * Z.of_nat k)
      (seq 0 (Z.to_nat (range_len start stop step))).

(** [float(n)], for [0 <= n < 2^63]. *)
Definition float_of_int (n : Z) : float := PrimFloat.of_uint63 (Uint63.of_Z n).

(** [int(f)] of a finite float [(-1)^s * m * 2^e]: truncation towards
    zero.  ([Z.shiftl] by a negative count shifts right.) *)
Definition int_of_float (f : float) : Z :=
  match Prim2SF f with
  | S754_finite s m e =>
      let mag := Z.shiftl (Z.pos m) e in
      if s then - mag else mag
  | _ => 0
  end.

(** [int(n * f)] *)
Definition int_mul (n : Z) (f : float) : Z :=
  int_of_float (float_of_int n * f)%float.

(** [str(n)], as an f-string prints an integer. *)
Definition str (n : Z) : string := NilZero.string_of_int (Z.to_int n).

(** [math.radians]. *)
Definition radians (a : R) : R := (a * PI / 180)%R.

(** [numpy.linspace(start, stop, n)]: [n] evenly spaced samples, both ends
    included. *)
Definition linspace (start stop : R) (n : nat) : list R :=
  map (fun k => (start + INR k * ((stop - start) / INR (n - 1)))%R) (seq 0 n).

(** [zip(l, l[1:])]: the consecutive pairs of a list. *)
Definition pairwise {A} (l : list A) : list (A * A) := combine l (tl l).

End Py.

(** ** Colours *)

Record Color := rgba { red : Z; green : Z; blue : Z; alpha : Z }.

(** A three-component tuple used as an ink on an RGBA image is opaque. *)
Definition rgb (t : Z * Z * Z) : Color :=
  let '(r, g, b) := t in rgba r g b 255.

(** [( *t, a)]: a tuple extended with an explicit alpha. *)
Definition with_alpha (t : Z * Z * Z) (a : Z) : Color :=
  let '(r, g, b) := t in rgba r g b a.

Definition primary_blue : Z * Z * Z := (59, 130, 246).
Definition secondary_blue : Z * Z * Z := (37, 99, 235).
Definition light_blue : Z * Z * Z := (147, 197, 253).
Definition white : Z * Z * Z := (255, 255, 255).
Definition gray : Z * Z * Z := (107, 114, 128).

Definition transparent_black : Color := rgba 0 0 0 0.

(** ** Primitive drawing calls *)

Definition Point : Type := R * R.

(** The box [textbbox((0, 0), text)] reports: left, top, right, bottom. *)
Definition Metrics : Type := Z * Z * Z * Z.

Inductive Shape :=
| Ellipse (x0 y0 x1 y1 : R)
| Rectangle (x0 y0 x1 y1 : R)
| RoundedRectangle (x0 y0 x1 y1 : R) (radius : Z)
| Line (p q : Point)
| Polygon (pts : list Point)
| Text (x y : Z) (s : string) (box : Metrics).

(** One call on the [ImageDraw] object.  For [Line] and [Text] the ink is
    [fill]; [width] is the outline or stroke width. *)
Record Draw := mkDraw {
  shape : Shape;
  fill : option Color;
  outline : option Color;
  width : Z
}.

Definition inks (d : Draw) : list Color :=
  match fill d, outline d with
  | Some f, Some o => [f; o]
  | Some f, None => [f]
  | None, Some o => [o]
  | None, None => []
  end.

Definition is_text (d : Draw) : bool :=
  match shape d with Text _ _ _ _ => true | _ => false end.

(** The points that span a primitive: box corners, end points, vertices. *)
Definition anchors (s : Shape) : list Point :=
  match s with
  | Ellipse x0 y0 x1 y1 => [(x0, y0); (x1, y1)]
  | Rectangle x0 y0 x1 y1 => [(x0, y0); (x1, y1)]
  | RoundedRectangle x0 y0 x1 y1 _ => [(x0, y0); (x1, y1)]
  | Line p q => [p; q]
  | Polygon pts => pts
  | Text x y _ (l, t, r, b) =>
      [(IZR (x + l), IZR (y + t)); (IZR (x + r), IZR (y + b))]
  end.

(** How far outside the span of its anchors a primitive may write: one pixel
    for the truncation of coordinates, plus the stroke width of a line. *)
Definition margin (d : Draw) : R :=
  match shape d with
  | Line _ _ => (IZR (Z.max 0 (width d)) + 1)%R
  | _ => 1%R
  end.

(** [reach d x y]: pixel [(x, y)] lies in the bounding box of [d]'s anchors
    widened by [margin d]. *)
Definition reach (d : Draw) (x y : Z) : Prop :=
  let m := margin d in
  let A := anchors (shape d) in
  (Exists (fun a => fst a - m <= IZR x) A /\ Exists (fun a => IZR x <= fst a + m) A /\
   Exists (fun a => snd a - m <= IZR y) A /\ Exists (fun a => IZR y <= snd a + m) A)%R.

(** [covered d x y]: pixel [(x, y)] is certainly painted by the filled shape
    [d]: the mid point of a proper ellipse, any pixel of a rectangle, and the
    pixels of a rounded rectangle that lie strictly clear of its corner
    squares. *)
Definition covered (d : Draw) (x y : Z) : Prop :=
  fill d <> None /\
  match shape d with
  | Ellipse x0 y0 x1 y1 =>
      (x0 < x1 /\ y0 < y1 /\ 2 * IZR x = x0 + x1 /\ 2 * IZR y = y0 + y1)%R
  | Rectangle x0 y0 x1 y1 =>
      (x0 <= IZR x <= x1 /\ y0 <= IZR y <= y1)%R
  | RoundedRectangle x0 y0 x1 y1 r =>
      (x0 + IZR (Z.max 0 r) < IZR x < x1 - IZR (Z.max 0 r) /\
       y0 + IZR (Z.max 0 r) < IZR y < y1 - IZR (Z.max 0 r))%R
  | _ => False
  end.

(** ** Images *)

Inductive exn := ValueError | OSError.

Inductive result (A : Type) :=
| Ok (a : A)
| Raise (e : exn).
Arguments Ok {A} a.
Arguments Raise {A} e.

Record Canvas := mkCanvas {
  cwidth : Z;
  cheight : Z;
  pix : Z -> Z -> Color
}.

Definition blank (size : Z) : Canvas :=
  mkCanvas size size (fun _ _ => transparent_black).

(** [Image.new('RGBA', (size, size), (0, 0, 0, 0))]; Pillow refuses a negative
    side. *)
Definition Image_new (size : Z) : result Canvas :=
  if size <? 0 then Raise ValueError else Ok (blank size).

Definition in_bounds (c : Canvas) (x y : Z) : bool :=
  (0 <=? x) && (x <? cwidth c) && (0 <=? y) && (y <? cheight c).

(** What Pillow's rasteriser is relied on for.  [ImageDraw.Draw(img)] on an
    RGBA image draws in the image's own mode (Pillow blends only when an RGBA
    draw mode is asked for on an RGB image): a primitive stores its ink, alpha
    included, in the pixels it covers.  Text is pasted through the glyph
    mask, so it may mix its ink with what is there.
    - [paint_frame]: a pixel out of reach of a call keeps its value;
    - [paint_stores]: a call other than text leaves a pixel alone or stores
      one of its inks in it;
    - [paint_mixes]: the alpha a call leaves lies between the alphas it had to
      choose from, the pixel's and its inks';
    - [paint_covers]: a pixel a filled shape certainly covers gets one of its
      inks. *)
Record Rasteriser := mkRasteriser {
  paint : Draw -> Z -> Z -> Color -> Color;
  paint_frame : forall d x y old, ~ reach d x y -> paint d x y old = old;
  paint_stores : forall d x y old,
      is_text d = false -> paint d x y old = old \/ In (paint d x y old) (inks d);
  paint_mixes : forall d x y old lo hi,
      lo <= alpha old <= hi ->
      (forall k, In k (inks d) -> lo <= alpha k <= hi) ->
      lo <= alpha (paint d x y old) <= hi;
  paint_covers : forall d x y old, covered d x y -> In (paint d x y old) (inks d)
}.

Section Drawing.

Variable P : Rasteriser.

(** One primitive call: pixels outside the image are clipped. *)
Definition draw (c : Canvas) (d : Draw) : Canvas :=
  mkCanvas (cwidth c) (cheight c)
           (fun x y => if in_bounds c x y then paint P d x y (pix c x y)
                       else pix c x y).

(** The calls of a composer, in invocation order. *)
Definition render (ds : list Draw) (c : Canvas) : Canvas := fold_left draw ds c.

End Drawing.

(** Constructors for the calls the script makes, with Pillow's defaults
    ([outline=None], [width=1] for closed shapes). *)
Definition ellipse (x0 y0 x1 y1 : R) (f o : option Color) (w : Z) : Draw :=
  mkDraw (Ellipse x0 y0 x1 y1) f o w.
Definition rectangle (x0 y0 x1 y1 : R) (f o : option Color) (w : Z) : Draw :=
  mkDraw (Rectangle x0 y0 x1 y1) f o w.
Definition rounded_rectangle (x0 y0 x1 y1 : R) (r : Z) (f o : option Color) (w : Z) : Draw :=
  mkDraw (RoundedRectangle x0 y0 x1 y1 r) f o w.
Definition line (p q : Point) (f : Color) (w : Z) : Draw :=
  mkDraw (Line p q) (Some f) None w.
Definition polygon (pts : list Point) (f : Color) : Draw :=
  mkDraw (Polygon pts) (Some f) None 1.
Definition text (x y : Z) (s : string) (box : Metrics) (f : Color) : Draw :=
  mkDraw (Text x y s box) (Some f) None 1.

(** What the script takes from its surroundings: the box Pillow's default
    font reports for the label ([None] when loading or measuring the font
    raises), and the separator [os.path.join] inserts. *)
Record Env := mkEnv {
  label_box : option Metrics;
  os_sep : string
}.

(** ** [create_fiber_icon] *)

Module Fiber.

Definition center (size : Z) : Z := size / 2.
(** [int(size // 2.5)]: the floor of [size / 2.5], which Python computes
    exactly. *)
Definition radius (size : Z) : Z := (2 * size) / 5.
Definition inner_radius (size : Z) : Z := Py.int_mul (radius size) 0.85.
Definition cable_width (size : Z) : Z := Z.max 2 (size / 40).
Definition node_radius (size : Z) : Z := Py.int_mul (radius size) 0.2.
Definition node_width (size : Z) : Z := Z.max 1 (size / 60).
Definition point_radius (size : Z) : Z := Py.int_mul (radius size) 0.65.
Definition point_size (size : Z) : Z := Py.int_mul (radius size) 0.08.
Definition point_width (size : Z) : Z := Z.max 1 (size / 80).
(** Computed by the script and not used: the default font has one size. *)
Definition font_size (size : Z) : Z := Z.max 12 (size / 8).
Definition line_length (size : Z) : Z := Py.int_mul (radius size) 0.3.
Definition cross_width (size : Z) : Z := Z.max 2 (size / 30).

(** [int(255 * (1 - i / radius) * 0.1)] *)
Definition glow_alpha (size i : Z) : Z :=
  Py.int_of_float
    (255 * (1 - Py.float_of_int i / Py.float_of_int (radius size)) * 0.1)%float.

(** [int(255 * (1 - i / len(points)) * 0.8)] *)
Definition strand_alpha (n i : Z) : Z :=
  Py.int_of_float (255 * (1 - Py.float_of_int i / Py.float_of_int n) * 0.8)%float.

Definition glow_ring (size i : Z) : Draw :=
  let c := center size in
  ellipse (IZR (c - i)) (IZR (c - i)) (IZR (c + i)) (IZR (c + i))
          (Some (with_alpha primary_blue (glow_alpha size i))) None 1.

(** The background circles with the "gradient effect". *)
Definition glow (size : Z) : list Draw :=
  map (glow_ring size) (Py.range (radius size) 0 (-1)).

Definition disk (size r : Z) (f : Color) (o : option Color) (w : Z) : Draw :=
  let c := center size in
  ellipse (IZR (c - r)) (IZR (c - r)) (IZR (c + r)) (IZR (c + r)) (Some f) o w.

Definition spiral_point (size : Z) (angle_rad t : R) : Point :=
  let spiral_angle := (angle_rad + t * PI * (3 / 2))%R in
  let spiral_radius :=
    (IZR (inner_radius size) * (3 / 10) + t * IZR (inner_radius size) * (4 / 10))%R in
  ((IZR (center size) + spiral_radius * cos spiral_angle)%R,
   (IZR (center size) + spiral_radius * sin spiral_angle)%R).

(** The [points] list of one fibre strand. *)
Definition strand_points (size angle_offset : Z) : list Point :=
  map (spiral_point size (Py.radians (IZR angle_offset))) (Py.linspace 0 1 20).

Definition strand (size angle_offset : Z) : list Draw :=
  let points := strand_points size angle_offset in
  let n := Z.of_nat (List.length points) in
  map (fun ipq : Z * (Point * Point) =>
         let '(i, (p, q)) := ipq in
         line p q (with_alpha light_blue (strand_alpha n i)) (cable_width size))
      (combine (Py.range 0 (n - 1) 1) (Py.pairwise points)).

Definition strands (size : Z) : list Draw :=
  flat_map (strand size) [0; 60; 120; 180; 240; 300].

Definition node (size : Z) : Draw :=
  disk size (node_radius size) (rgb white) (Some (rgb secondary_blue)) (node_width size).

Definition connection_point (size angle : Z) : Draw :=
  let angle_rad := Py.radians (IZR angle) in
  let x := (IZR (center size) + IZR (point_radius size) * cos angle_rad)%R in
  let y := (IZR (center size) + IZR (point_radius size) * sin angle_rad)%R in
  let ps := IZR (point_size size) in
  ellipse (x - ps) (y - ps) (x + ps) (y + ps)
          (Some (rgb light_blue)) (Some (rgb white)) (point_width size).

Definition connection_points (size : Z) : list Draw :=
  map (connection_point size) [0; 45; 90; 135; 180; 225; 270; 315].

(** The two [draw.text] calls: the shadow, then the label. *)
Definition label (size : Z) (box : Metrics) : list Draw :=
  let '(l, t, r, b) := box in
  let text_width := r - l in
  let text_height := b - t in
  let text_x := center size - text_width / 2 in
  let text_y := center size - text_height / 2 in
  [ text (text_x + 1) (text_y + 1) "FF" box (rgb gray);
    text text_x text_y "FF" box (rgb white) ].

(** The [except] branch: a plus sign. *)
Definition cross (size : Z) : list Draw :=
  let c := IZR (center size) in
  let ll := IZR (line_length size) in
  [ line ((c - ll)%R, c) ((c + ll)%R, c) (rgb white) (cross_width size);
    line (c, (c - ll)%R) (c, (c + ll)%R) (rgb white) (cross_width size) ].

(** [if size >= 128: try: ... except Exception: ...] *)
Definition label_step (E : Env) (size : Z) : list Draw :=
  if 128 <=? size then
    match label_box E with
    | Some box => label size box
    | None => cross size
    end
  else [].

Definition commands (E : Env) (size : Z) : list Draw :=
  glow size
  ++ [ disk size (radius size) (rgb primary_blue) None 1;
       disk size (inner_radius size) (rgb secondary_blue) None 1 ]
  ++ strands size
  ++ [ node size ]
  ++ connection_points size
  ++ label_step E size.

End Fiber.

(** ** [create_capture_icon] *)

Module Capture.

Definition center (size : Z) : Z := size / 2.
Definition camera_width (size : Z) : Z := Py.int_mul size 0.7.
Definition camera_height (size : Z) : Z := Py.int_mul size 0.5.
Definition camera_x (size : Z) : Z := center size - camera_width size / 2.
Definition camera_y (size : Z) : Z := center size - camera_height size / 2.
Definition lens_radius (size : Z) : Z := Py.int_mul size 0.15.
Definition inner_lens (size : Z) : Z := Py.int_mul (lens_radius size) 0.6.
Definition vf_width (size : Z) : Z := Py.int_mul size 0.2.
Definition vf_height (size : Z) : Z := Py.int_mul size 0.1.
Definition vf_x (size : Z) : Z := center size - vf_width size / 2.
Definition vf_y (size : Z) : Z :=
  camera_y size - vf_height size - Py.int_mul size 0.05.

Definition disk (size r : Z) (f : Color) (o : option Color) (w : Z) : Draw :=
  let c := center size in
  ellipse (IZR (c - r)) (IZR (c - r)) (IZR (c + r)) (IZR (c + r)) (Some f) o w.

Definition body (size : Z) : Draw :=
  rounded_rectangle (IZR (camera_x size)) (IZR (camera_y size))
                    (IZR (camera_x size + camera_width size))
                    (IZR (camera_y size + camera_height size))
                    (size / 20) (Some (rgb primary_blue)) (Some (rgb white)) 2.

Definition viewfinder (size : Z) : Draw :=
  rounded_rectangle (IZR (vf_x size)) (IZR (vf_y size))
                    (IZR (vf_x size + vf_width size))
                    (IZR (vf_y size + vf_height size))
                    (size / 40) (Some (rgb primary_blue)) (Some (rgb white)) 1.

Definition commands (size : Z) : list Draw :=
  [ body size;
    disk size (lens_radius size) (rgb gray) (Some (rgb white)) 2;
    disk size (inner_lens size) (rgb white) None 1;
    viewfinder size ].

End Capture.

(** ** [create_assignments_icon] *)

Module Assignments.

Definition center (size : Z) : Z := size / 2.
Definition doc_width (size : Z) : Z := Py.int_mul size 0.6.
Definition doc_height (size : Z) : Z := Py.int_mul size 0.8.
Definition doc_x (size : Z) : Z := center size - doc_width size / 2.
Definition doc_y (size : Z) : Z := center size - doc_height size / 2.
Definition item_height (size : Z) : Z := doc_height size / 6.
Definition item_margin (size : Z) : Z := size / 30.
Definition item_y (size i : Z) : Z :=
  doc_y size + item_margin size + i * (item_height size + item_margin size).
Definition checkbox_size (size : Z) : Z := size / 20.
Definition checkbox_x (size : Z) : Z := doc_x size + item_margin size.
Definition checkbox_y (size i : Z) : Z :=
  item_y size i + (item_height size - checkbox_size size) / 2.
Definition check_width (size : Z) : Z := Z.max 1 (size / 60).
Definition line_x (size : Z) : Z :=
  checkbox_x size + checkbox_size size + item_margin size.
Definition line_y (size i : Z) : Z := item_y size i + item_height size / 2.
Definition line_width (size : Z) : Z :=
  doc_width size - checkbox_size size - 3 * item_margin size.

Definition document (size : Z) : Draw :=
  rounded_rectangle (IZR (doc_x size)) (IZR (doc_y size))
                    (IZR (doc_x size + doc_width size))
                    (IZR (doc_y size + doc_height size))
                    (size / 20) (Some (rgb white)) (Some (rgb primary_blue)) 2.

Definition checkbox (size i : Z) : Draw :=
  let x := checkbox_x size in
  let y := checkbox_y size i in
  let s := checkbox_size size in
  rectangle (IZR x) (IZR y) (IZR (x + s)) (IZR (y + s))
            (Some (rgb (if i <? 2 then light_blue else white)))
            (Some (rgb primary_blue)) 1.

(** The two strokes of the tick of a completed item. *)
Definition checkmark (size i : Z) : list Draw :=
  let x := IZR (checkbox_x size) in
  let y := IZR (checkbox_y size i) in
  let s := IZR (checkbox_size size) in
  [ line ((x + s * (2 / 10))%R, (y + s * (5 / 10))%R)
         ((x + s * (5 / 10))%R, (y + s * (8 / 10))%R)
         (rgb primary_blue) (check_width size);
    line ((x + s * (5 / 10))%R, (y + s * (8 / 10))%R)
         ((x + s * (8 / 10))%R, (y + s * (3 / 10))%R)
         (rgb primary_blue) (check_width size) ].

Definition text_line (size i : Z) : Draw :=
  rectangle (IZR (line_x size)) (IZR (line_y size i - 1))
            (IZR (line_x size + line_width size)) (IZR (line_y size i + 1))
            (Some (rgb primary_blue)) None 1.

(** The body of [for i in range(4)]. *)
Definition item (size i : Z) : list Draw :=
  [checkbox size i]
  ++ (if i <? 2 then checkmark size i else [])
  ++ [text_line size i].

Definition commands (size : Z) : list Draw :=
  document size :: flat_map (item size) (Py.range 0 4 1).

End Assignments.

(** ** [create_sync_icon] *)

Module Sync.

Definition center (size : Z) : Z := size / 2.
Definition radius (size : Z) : Z := Py.int_mul size 0.3.
Definition arrow_width (size : Z) : Z := Z.max 3 (size / 20).
Definition start_angle : Z := 45.
Definition end_angle : Z := 315.
Definition head_size (size : Z) : Z := size / 15.
Definition inner_radius (size : Z) : Z := Py.int_mul (radius size) 0.6.

(** The point at [angle] degrees on the circle of radius [r] about
    [(c, c)]. *)
Definition arc_point (c r angle : Z) : Point :=
  ((IZR c + IZR r * cos (Py.radians (IZR angle)))%R,
   (IZR c + IZR r * sin (Py.radians (IZR angle)))%R).

Definition top_angles : list Z := Py.range start_angle end_angle 5.

Definition points_top (size : Z) : list Point :=
  map (arc_point (center size) (radius size)) top_angles.

Definition angle_norm (angle : Z) : Z :=
  if 360 <=? angle then angle - 360 else angle.

Definition bottom_angles : list Z := Py.range 225 585 5.

Definition points_bottom (size : Z) : list Point :=
  map (fun angle => arc_point (center size) (inner_radius size) (angle_norm angle))
      bottom_angles.

(** [for i in range(len(points) - 1): draw.line([points[i], points[i + 1]], ...)] *)
Definition arc (points : list Point) (f : Color) (w : Z) : list Draw :=
  map (fun pq : Point * Point => line (fst pq) (snd pq) f w) (Py.pairwise points).

(** The head of the top arrow, at [points_top[-1]]. *)
Definition head_top (size : Z) : list Point :=
  let '(end_x, end_y) := last (points_top size) (0, 0)%R in
  let hs := IZR (head_size size) in
  let angle_rad := Py.radians (IZR end_angle) in
  [ (end_x, end_y);
    ((end_x - hs * cos (angle_rad + 5 / 10))%R, (end_y - hs * sin (angle_rad + 5 / 10))%R);
    ((end_x - hs * cos (angle_rad - 5 / 10))%R, (end_y - hs * sin (angle_rad - 5 / 10))%R) ].

(** The head of the bottom arrow, at [points_bottom[0]]. *)
Definition head_bottom (size : Z) : list Point :=
  let '(start_x, start_y) := hd (0, 0)%R (points_bottom size) in
  let hs := IZR (head_size size) in
  let head_angle := Py.radians 225 in
  [ (start_x, start_y);
    ((start_x + hs * cos (head_angle + 5 / 10))%R, (start_y + hs * sin (head_angle + 5 / 10))%R);
    ((start_x + hs * cos (head_angle - 5 / 10))%R, (start_y + hs * sin (head_angle - 5 / 10))%R) ].

Definition commands (size : Z) : list Draw :=
  arc (points_top size) (rgb primary_blue) (arrow_width size)
  ++ [ polygon (head_top size) (rgb primary_blue) ]
  ++ arc (points_bottom size) (rgb light_blue) (arrow_width size)
  ++ [ polygon (head_bottom size) (rgb light_blue) ].

End Sync.

(** ** The composers *)

Section Composers.

Variable P : Rasteriser.
Variable E : Env.

(** [img = Image.new(..); draw = ImageDraw.Draw(img); ...; return img] *)
Definition compose (size : Z) (ds : list Draw) : result Canvas :=
  match Image_new size with
  | Ok img => Ok (render P ds img)
  | Raise e => Raise e
  end.

Definition create_fiber_icon (size : Z) : result Canvas :=
  compose size (Fiber.commands E size).

Definition create_capture_icon (size : Z) : result Canvas :=
  compose size (Capture.commands size).

Definition create_assignments_icon (size : Z) : result Canvas :=
  compose size (Assignments.commands size).

Definition create_sync_icon (size : Z) : result Canvas :=
  compose size (Sync.commands size).

End Composers.

(** ** [generate_all_icons] *)

(** The world the export loop acts on: which paths can be written, the files
    written so far (path and image, later writes replacing earlier ones) and
    the lines printed. *)
Record World := mkWorld {
  writable : string -> bool;
  files : list (string * Canvas);
  stdout : list string
}.

(** A statement: it ends normally with a value or raises, and either way
    leaves a world behind. *)
Definition M (A : Type) : Type := World -> result A * World.

Definition ret {A} (a : A) : M A := fun w => (Ok a, w).

Definition bind {A B} (m : M A) (k : A -> M B) : M B :=
  fun w => match m w with
           | (Ok a, w') => k a w'
           | (Raise e, w') => (Raise e, w')
           end.

Notation "x <- m ;; k" := (bind m (fun x => k))
  (at level 61, m at next level, right associativity).
Notation "m ;;; k" := (bind m (fun _ => k))
  (at level 61, right associativity).

Definition lift {A} (r : result A) : M A := fun w => (r, w).

Definition print (s : string) : M unit :=
  fun w => (Ok tt, mkWorld (writable w) (files w) (stdout w ++ [s])).

Definition write_file (path : string) (img : Canvas) (fs : list (string * Canvas))
  : list (string * Canvas) :=
  filter (fun e => negb (String.eqb (fst e) path)) fs ++ [(path, img)].

(** [img.save(path, "PNG", optimize=True)] *)
Definition save (img : Canvas) (path : string) : M unit :=
  fun w => if writable w path
           then (Ok tt, mkWorld (writable w) (write_file path img (files w)) (stdout w))
           else (Raise OSError, w).

Fixpoint for_each {A} (xs : list A) (body : A -> M unit) : M unit :=
  match xs with
  | [] => ret tt
  | x :: rest => body x ;;; for_each rest body
  end.

Definition sizes : list Z := [72; 96; 128; 144; 152; 192; 384; 512].

Definition icons_dir : string := "C:\Jarvis\AI Workspace\FibreField\public\icons".

Section ExportLoop.

Variable P : Rasteriser.
Variable E : Env.

Definition os_path_join (dir name : string) : string :=
  (dir ++ os_sep E ++ name)%string.

Definition icon_name (size : Z) : string :=
  ("icon-" ++ Py.str size ++ "x" ++ Py.str size ++ ".png")%string.

Definition generate_all_icons : M unit :=
  print "Generating FibreField PWA icons..." ;;;
  for_each sizes (fun size =>
    print ("Creating main icon " ++ Py.str size ++ "x" ++ Py.str size ++ "...")%string ;;;
    icon <- lift (create_fiber_icon P E size) ;;
    save icon (os_path_join icons_dir (icon_name size))) ;;;
  print "Creating shortcut icons..." ;;;
  capture_icon <- lift (create_capture_icon P 96) ;;
  save capture_icon (os_path_join icons_dir "shortcut-capture.png") ;;;
  assignments_icon <- lift (create_assignments_icon P 96) ;;
  save assignments_icon (os_path_join icons_dir "shortcut-assignments.png") ;;;
  sync_icon <- lift (create_sync_icon P 96) ;;
  save sync_icon (os_path_join icons_dir "shortcut-sync.png") ;;;
  print "All icons generated successfully!" ;;;
  print ("Icons saved to: " ++ icons_dir)%string.

End ExportLoop.

(** ** The export loop as a list of jobs *)

(** One file of the batch: the lines printed before it, the composer call and
    the path saved to. *)
Record Job := mkJob {
  announce : list string;
  jimage : result Canvas;
  jpath : string
}.

Fixpoint run_jobs (js : list Job) : M unit :=
  match js with
  | [] => ret tt
  | j :: rest =>
      for_each (announce j) print ;;;
      img <- lift (jimage j) ;;
      save img (jpath j) ;;;
      run_jobs rest
  end.

Definition target_names : list string :=
  map icon_name sizes
  ++ ["shortcut-capture.png"; "shortcut-assignments.png"; "shortcut-sync.png"].

Definition targets (E : Env) : list string :=
  map (os_path_join E icons_dir) target_names.

Definition dims (e : string * Canvas) : string * (Z * Z) :=
  (fst e, (cwidth (snd e), cheight (snd e))).

Section Jobs.

Variable P : Rasteriser.
Variable E : Env.

Definition main_job (size : Z) : Job :=
  mkJob [("Creating main icon " ++ Py.str size ++ "x" ++ Py.str size ++ "...")%string]
        (create_fiber_icon P E size)
        (os_path_join E icons_dir (icon_name size)).

Definition jobs : list Job :=
  map main_job sizes
  ++ [ mkJob ["Creating shortcut icons..."] (create_capture_icon P 96)
             (os_path_join E icons_dir "shortcut-capture.png");
       mkJob [] (create_assignments_icon P 96)
             (os_path_join E icons_dir "shortcut-assignments.png");
       mkJob [] (create_sync_icon P 96)
             (os_path_join E icons_dir "shortcut-sync.png") ].

End Jobs.

Definition success_line : string := "All icons generated successfully!".

(** Two worlds to run the loop in: a fresh directory where every path can be
    written, and one where the second icon cannot. *)
Definition windows_env : Env := mkEnv (Some (0, 0, 12, 11)) "\".

Definition fresh_world : World := mkWorld (fun _ => true) [] [].

Definition locked_96_world : World :=
  mkWorld (fun p => negb (String.eqb p (os_path_join windows_env icons_dir "icon-96x96.png")))
          [] [].

(** ** Vocabulary of the statements *)

Definition opaque_inks (d : Draw) : Prop := forall k, In k (inks d) -> alpha k = 255.

Definition transparent_inks (d : Draw) : Prop := forall k, In k (inks d) -> alpha k = 0.

(** The four composers as one function of the icon's kind. *)
Inductive IconKind := PrimaryIcon | CaptureIcon | AssignmentsIcon | SyncIcon.

Definition create_icon (P : Rasteriser) (E : Env) (k : IconKind) (size : Z) : result Canvas :=
  match k with
  | PrimaryIcon => create_fiber_icon P E size
  | CaptureIcon => create_capture_icon P size
  | AssignmentsIcon => create_assignments_icon P size
  | SyncIcon => create_sync_icon P size
  end.

(** The image a composer call returned, when it returned one. *)
Definition image_of (r : result Canvas) : Canvas :=
  match r with Ok img => img | Raise _ => blank 0 end.

Definition returns (r : result Canvas) : Prop := exists img, r = Ok img.

Definition write_job (fs : list (string * Canvas)) (j : Job) : list (string * Canvas) :=
  write_file (jpath j) (image_of (jimage j)) fs.

(** The eleven files of a complete run: path, width and height. *)
Definition expected_files (E : Env) : list (string * (Z * Z)) :=
  map (fun ns : string * Z => (os_path_join E icons_dir (fst ns), (snd ns, snd ns)))
      [ ("icon-72x72.png", 72); ("icon-96x96.png", 96); ("icon-128x128.png", 128);
        ("icon-144x144.png", 144); ("icon-152x152.png", 152); ("icon-192x192.png", 192);
        ("icon-384x384.png", 384); ("icon-512x512.png", 512);
        ("shortcut-capture.png", 96); ("shortcut-assignments.png", 96);
        ("shortcut-sync.png", 96) ].

(** All anchors of [d] lie, by more than the margin, on one side of the
    pixel. *)
Definition clear_of (d : Draw) (x y : Z) : Prop :=
  let m := margin d in
  let A := anchors (shape d) in
  (Forall (fun a => IZR x < fst a - m) A \/ Forall (fun a => fst a + m < IZR x) A \/
   Forall (fun a => IZR y < snd a - m) A \/ Forall (fun a => snd a + m < IZR y) A)%R.

(** All anchors of [d] lie, by more than the margin, strictly between [lo]
    and [hi] in both coordinates. *)
Definition inside (d : Draw) (lo hi : R) : Prop :=
  let m := margin d in
  Forall (fun a => lo + m < fst a < hi - m /\ lo + m < snd a < hi - m)%R
         (anchors (shape d)).

Definition in_square (a b : R) (p : Point) : Prop :=
  (a <= fst p <= b /\ a <= snd p <= b)%R.

(** [d] keeps within the square [[a, b]] and its margin is at most [m]. *)
Definition boxed (a b m : R) (d : Draw) : Prop :=
  Forall (in_square a b) (anchors (shape d)) /\ (margin d <= m)%R.

Definition corners_transparent (img : Canvas) : Prop :=
  let n := cwidth img - 1 in
  alpha (pix img 0 0) = 0 /\ alpha (pix img n 0) = 0 /\
  alpha (pix img 0 n) = 0 /\ alpha (pix img n n) = 0.

(** The point at angle [t] (radians) on the circle of radius [r] about
    [(c, c)]. *)
Definition on_circle (c r : Z) (t : R) : Point :=
  ((IZR c + IZR r * cos t)%R, (IZR c + IZR r * sin t)%R).

(** The label's box, as the default font reports it, is a small one. *)
Definition small_label (E : Env) : Prop :=
  match label_box E with
  | Some (l, t, r, b) => 0 <= l <= r /\ r <= 48 /\ 0 <= t <= b /\ b <= 48
  | None => True
  end.

(** The calls of a composer keep off the corners of a [size] by [size]
    image: each lies strictly inside the square that leaves out the outermost
    pixel rows and columns. *)
Definition keeps_off_corners (ds : list Draw) (size : Z) : Prop :=
  Forall (fun d => inside d 0 (IZR (size - 1))) ds.

Definition dist (p q : Point) : R :=
  sqrt ((fst p - fst q) * (fst p - fst q) + (snd p - snd q) * (snd p - snd q)).

(** The spec's [spiralPoints]: [sampleCount] samples of [t] over [[0, 1]],
    at angle [startAngle + t * turns * 2 * PI] and radius
    [innerRadius + t * (outerRadius - innerRadius)] about [center]. *)
Definition spiralPoints (center : Point) (startAngle innerRadius outerRadius turns : R)
           (sampleCount : nat) : list Point :=
  map (fun t =>
         let angle := (startAngle + t * turns * (2 * PI))%R in
         let radius := (innerRadius + t * (outerRadius - innerRadius))%R in
         ((fst center + radius * cos angle)%R, (snd center + radius * sin angle)%R))
      (Py.linspace 0 1 sampleCount).

Definition is_line (d : Draw) : bool :=
  match shape d with Line _ _ => true | _ => false end.

(** The vertex lists of the polygons among some calls. *)
Definition polygons (ds : list Draw) : list (list Point) :=
  flat_map (fun d => match shape d with Polygon pts => [pts] | _ => [] end) ds.

Inductive Sweep := Clockwise | CounterClockwise.

(** An arrow is a list of samples taken at increasing angles and a head
    whose first vertex is the tip.  The image's [y] axis points down, so a
    point moves clockwise on screen as its angle grows: the arrow travels
    clockwise when its tip is the last sample, and counter-clockwise when its
    tip is the first. *)
Definition arrow_sweep (samples head : list Point) (s : Sweep) : Prop :=
  match s with
  | Clockwise => hd_error head = Some (last samples (0, 0)%R) /\ samples <> []
  | CounterClockwise => hd_error head = hd_error samples /\ samples <> []
  end.

(** [q] is the same fraction of the size at every two sizes of the size
    matrix. *)
Definition scale_invariant (q : Z -> Z) : Prop :=
  forall s1 s2, In s1 sizes -> In s2 sizes -> q s1 * s2 = q s2 * s1.

(** [q] is [x * n / d] less a part of a pixel: at most one pixel short. *)
Definition truncated (q n d x : Z) : Prop := d * q <= n * x <= d * q + d.

Definition truncatedb (q n d x : Z) : bool := (d * q <=? n * x) && (n * x <=? d * q + d).

(** ** Checks over a range of sizes

    What binary64 arithmetic gives is checked size by size, by evaluation, up
    to [max_checked_size]. *)

Definition max_checked_size : Z := 4096.

(** [f] holds at [start], [start + 1], ..., [n] values in all. *)
Fixpoint all_from (f : Z -> bool) (start : Z) (n : nat) : bool :=
  match n with
  | O => true
  | S k => f start && all_from f (start + 1) k
  end.

(** The filled shape that paints the centre is a proper one: the node and
    the inner lens have a positive radius, and the centre is clear of the
    corner squares of the document. *)
Definition centre_ok (size : Z) : bool :=
  let c := size / 2 in
  let r := Z.max 0 (size / 20) in
  (0 <? Fiber.node_radius size)
  && (0 <? Capture.inner_lens size)
  && (Assignments.doc_x size + r <? c)
  && (c <? Assignments.doc_x size + Assignments.doc_width size - r)
  && (Assignments.doc_y size + r <? c)
  && (c <? Assignments.doc_y size + Assignments.doc_height size - r).

(** The radii of the primary icon are nested within the main radius. *)
Definition fiber_layout_ok (size : Z) : bool :=
  let r := Fiber.radius size in
  (0 <=? Fiber.inner_radius size) && (Fiber.inner_radius size <=? r)
  && (0 <=? Fiber.node_radius size) && (Fiber.node_radius size <=? r)
  && (0 <=? Fiber.point_radius size) && (0 <=? Fiber.point_size size)
  && (Fiber.point_radius size + Fiber.point_size size <=? r)
  && (0 <=? Fiber.line_length size) && (Fiber.line_length size <=? r).

(** The lengths that go through a float are the stated fractions, at most
    one pixel short. *)
Definition fractions_ok (size : Z) : bool :=
  truncatedb (Fiber.inner_radius size) 85 100 (Fiber.radius size)
  && truncatedb (Fiber.node_radius size) 2 10 (Fiber.radius size)
  && truncatedb (Fiber.point_radius size) 65 100 (Fiber.radius size)
  && truncatedb (Fiber.point_size size) 8 100 (Fiber.radius size)
  && truncatedb (Fiber.line_length size) 3 10 (Fiber.radius size)
  && truncatedb (Capture.camera_width size) 7 10 size
  && truncatedb (Capture.camera_height size) 5 10 size
  && truncatedb (Capture.lens_radius size) 15 100 size
  && truncatedb (Capture.inner_lens size) 6 10 (Capture.lens_radius size)
  && truncatedb (Capture.vf_width size) 2 10 size
  && truncatedb (Capture.vf_height size) 1 10 size
  && truncatedb (Assignments.doc_width size) 6 10 size
  && truncatedb (Assignments.doc_height size) 8 10 size
  && truncatedb (Sync.radius size) 3 10 size
  && truncatedb (Sync.inner_radius size) 6 10 (Sync.radius size).

(** ** A rasteriser

    The coarsest rasteriser that meets the record: every primitive fills the
    widened bounding box of its anchors with its first ink.  It shows that the
    record can be met, and serves where a statement needs a concrete one. *)

Definition reach_dec (d : Draw) (x y : Z) : {reach d x y} + {~ reach d x y}.
Proof.
  unfold reach.
  destruct (Exists_dec (fun a : Point => (fst a - margin d <= IZR x)%R)
                       (anchors (shape d)) (fun a => Rle_dec _ _)) as [H1 | H1];
    [ | right; tauto ].
  destruct (Exists_dec (fun a : Point => (IZR x <= fst a + margin d)%R)
                       (anchors (shape d)) (fun a => Rle_dec _ _)) as [H2 | H2];
    [ | right; tauto ].
  destruct (Exists_dec (fun a : Point => (snd a - margin d <= IZR y)%R)
                       (anchors (shape d)) (fun a => Rle_dec _ _)) as [H3 | H3];
    [ | right; tauto ].
  destruct (Exists_dec (fun a : Point => (IZR y <= snd a + margin d)%R)
                       (anchors (shape d)) (fun a => Rle_dec _ _)) as [H4 | H4];
    [ left; tauto | right; tauto ].
Defined.

Definition box_paint (d : Draw) (x y : Z) (old : Color) : Color :=
  if reach_dec d x y then hd old (inks d) else old.

Definition box_rasteriser : Rasteriser.
Proof.
  assert (Hhd : forall d old, hd old (inks d) = old \/ In (hd old (inks d)) (inks d))
    by (intros d old; destruct (inks d); simpl; auto).
  refine (mkRasteriser box_paint _ _ _ _); unfold box_paint.
  - intros d x y old H. destruct (reach_dec d x y); tauto.
  - intros d x y old _. destruct (reach_dec d x y); auto.
  - intros d x y old lo hi Hold Hk. destruct (reach_dec d x y); auto.
    destruct (Hhd d old) as [-> | Hin]; auto.
  - intros d x y old [Hf Hc]. destruct (reach_dec d x y) as [_ | Hn].
    + unfold inks. destruct (fill d); [ | congruence ]. destruct (outline d); simpl; auto.
    + exfalso. apply Hn. unfold reach.
      assert (Hm : (1 <= margin d)%R).
      { assert (H : (0 <= IZR (Z.max 0 (width d)))%R) by (apply IZR_le; lia).
        unfold margin. destruct (shape d); lra. }
      destruct (shape d) as [x0 y0 x1 y1 | x0 y0 x1 y1 | x0 y0 x1 y1 r | | | ];
        try contradiction; simpl;
        try (assert (Hr : (0 <= IZR (Z.max 0 r))%R) by (apply IZR_le; lia));
        repeat split;
        first [ apply Exists_cons_hd; simpl; lra
              | apply Exists_cons_tl, Exists_cons_hd; simpl; lra ].
Defined.

(** ** Vocabulary of the export loop *)

(** The lines a complete run prints, in order. *)
Definition transcript : list string :=
  [ "Generating FibreField PWA icons...";
    "Creating main icon 72x72..."; "Creating main icon 96x96...";
    "Creating main icon 128x128..."; "Creating main icon 144x144...";
    "Creating main icon 152x152..."; "Creating main icon 192x192...";
    "Creating main icon 384x384..."; "Creating main icon 512x512...";
    "Creating shortcut icons...";
    "All icons generated successfully!";
    "Icons saved to: C:\Jarvis\AI Workspace\FibreField\public\icons" ].

Definition has_path (paths : list string) (e : string * Canvas) : bool :=
  existsb (String.eqb (fst e)) paths.

(** The files of a directory that are not among the eleven the run saves. *)
Definition other_files (E : Env) (fs : list (string * Canvas)) : list (string * Canvas) :=
  filter (fun e => negb (has_path (targets E) e)) fs.

(** The eleven files of a complete run: path and image, in the order they are
    saved. *)
Definition rendered (P : Rasteriser) (E : Env) : list (string * Canvas) :=
  map (fun j => (jpath j, image_of (jimage j))) (jobs P E).

(** A directory in which two of the targets and a file of another name are
    already present. *)
Definition used_world : World :=
  mkWorld (fun _ => true)
          [ (os_path_join windows_env icons_dir "icon-96x96.png", blank 1);
            (os_path_join windows_env icons_dir "notes.txt", blank 2);
            (os_path_join windows_env icons_dir "shortcut-sync.png", blank 3) ]
          ["earlier output"].

(** ** Vocabulary of the composers *)

(** The calls of each composer. *)
Definition commands_of (E : Env) (k : IconKind) (size : Z) : list Draw :=
  match k with
  | PrimaryIcon => Fiber.commands E size
  | CaptureIcon => Capture.commands size
  | AssignmentsIcon => Assignments.commands size
  | SyncIcon => Sync.commands size
  end.

(** The box of an ellipse, a rectangle or a rounded rectangle is given with
    its first corner above and to the left of the second.  (Recent versions of
    Pillow refuse a box given the other way round.) *)
Definition proper_box (d : Draw) : Prop :=
  match shape d with
  | Ellipse x0 y0 x1 y1 | Rectangle x0 y0 x1 y1 | RoundedRectangle x0 y0 x1 y1 _ =>
      (x0 <= x1 /\ y0 <= y1)%R
  | _ => True
  end.

(** All anchors of [d] lie in the rectangle from [(x0, y0)] to
    [(x1, y1)]. *)
Definition within_box (x0 y0 x1 y1 : R) (d : Draw) : Prop :=
  Forall (fun a => (x0 <= fst a <= x1 /\ y0 <= snd a <= y1)%R) (anchors (shape d)).

(** The lengths that span a box are not negative. *)
Definition spans_ok (size : Z) : bool :=
  (0 <=? Fiber.inner_radius size) && (0 <=? Fiber.node_radius size)
  && (0 <=? Fiber.point_size size)
  && (0 <=? Capture.camera_width size) && (0 <=? Capture.camera_height size)
  && (0 <=? Capture.lens_radius size) && (0 <=? Capture.inner_lens size)
  && (0 <=? Capture.vf_width size) && (0 <=? Capture.vf_height size)
  && (0 <=? Assignments.doc_width size) && (0 <=? Assignments.doc_height size)
  && (0 <=? Assignments.line_width size).

(** [int(255 * (1 - i / radius) * 0.1)] as a function of the radius. *)
Definition ring_alpha (radius i : Z) : Z :=
  Py.int_of_float
    (255 * (1 - Py.float_of_int i / Py.float_of_int radius) * 0.1)%float.

(** The alphas of the rings of radius [radius] down to 1 start at 0, do not
    decrease towards the centre and stay between 0 and 25. *)
Definition ring_alphas_ok (radius : Z) : bool :=
  (ring_alpha radius radius =? 0)
  && forallb (fun i => (0 <=? ring_alpha radius (i + 1))
                       && (ring_alpha radius (i + 1) <=? ring_alpha radius i)
                       && (ring_alpha radius i <=? 25))
             (Py.range 1 radius 1).

(** The largest size the script renders. *)
Definition max_rendered_size : Z := 512.

(** The alpha of the ink of a call that has a fill. *)
Definition fill_alpha (d : Draw) : Z :=
  match fill d with Some k => alpha k | None => 255 end.

(** [p] turned by the angle [t] about [c] (from the [x] axis towards the
    [y] axis). *)
Definition rotate (c : Point) (t : R) (p : Point) : Point :=
  ((fst c + (fst p - fst c) * cos t - (snd p - snd c) * sin t)%R,
   (snd c + (fst p - fst c) * sin t + (snd p - snd c) * cos t)%R).

(** No call of [ds] can reach a pixel outside the rectangle of pixels from
    [(x0, y0)] to [(x1, y1)]. *)
Definition confined (ds : list Draw) (x0 y0 x1 y1 : Z) : Prop :=
  forall x y, x < x0 \/ x1 < x \/ y < y0 \/ y1 < y -> Forall (fun d => ~ reach d x y) ds.

(** The camera: the lens lies within the body, the inner lens within the
    lens, and the viewfinder within the width of the body and above it. *)
Definition capture_layout_ok (size : Z) : bool :=
  let c := Capture.center size in
  let x0 := Capture.camera_x size in
  let y0 := Capture.camera_y size in
  let x1 := x0 + Capture.camera_width size in
  let y1 := y0 + Capture.camera_height size in
  let lr := Capture.lens_radius size in
  let il := Capture.inner_lens size in
  let vx0 := Capture.vf_x size in
  let vy0 := Capture.vf_y size in
  let vx1 := vx0 + Capture.vf_width size in
  let vy1 := vy0 + Capture.vf_height size in
  (x0 <=? c - lr) && (c + lr <=? x1) && (y0 <=? c - lr) && (c + lr <=? y1)
  && (0 <=? il) && (il <=? lr)
  && (x0 <=? vx0) && (vx0 <=? vx1) && (vx1 <=? x1) && (vy0 <=? vy1) && (vy1 <=? y0).

(** The list: each of the four rows lies within the document, and the
    checkbox and the text bar of a row within the row.  (The two lengths that
    go through a float are computed once.) *)
Definition assignments_layout_ok (size : Z) : bool :=
  let dw := Assignments.doc_width size in
  let dh := Assignments.doc_height size in
  let dx := size / 2 - dw / 2 in
  let dy := size / 2 - dh / 2 in
  let cs := size / 20 in
  let im := size / 30 in
  let ih := dh / 6 in
  let cx := dx + im in
  let lx := cx + cs + im in
  let lw := dw - cs - 3 * im in
  (0 <=? dw) && (0 <=? dh)
  && (dx <=? cx) && (cx + cs <=? dx + dw)
  && (dx <=? lx) && (lx <=? lx + lw) && (lx + lw <=? dx + dw)
  && forallb (fun i =>
       let top := dy + im + i * (ih + im) in
       let bottom := top + ih in
       let cy := top + (ih - cs) / 2 in
       let ly := top + ih / 2 in
       (dy <=? top) && (bottom <=? dy + dh)
       && (top <=? cy) && (cy + cs <=? bottom)
       && (top <=? ly - 1) && (ly + 1 <=? bottom))
     (Py.range 0 4 1).

(** The sync glyph: the radii are nested, and the strokes and the arrow
    heads are small against the inner radius. *)
Definition sync_layout_ok (size : Z) : bool :=
  let r := Sync.radius size in
  let ir := Sync.inner_radius size in
  (0 <? ir) && (ir <=? r)
  && (90 * (Sync.arrow_width size + 1) <? 53 * ir)
  && (10 * (1 + Sync.head_size size) <? 7 * ir).

(** The inner arc of the sync glyph lies within the outer one. *)
Definition sync_radii_ok (size : Z) : bool :=
  (0 <=? Sync.inner_radius size) && (Sync.inner_radius size <=? Sync.radius size).

(** What each composer can paint lies at least two pixels inside the
    image. *)
Definition border_ok (size : Z) : bool :=
  let fc := Fiber.center size in
  let fh := Fiber.radius size + Fiber.cross_width size + 1 in
  let am := Assignments.check_width size + 1 in
  let sc := Sync.center size in
  let sh := Sync.radius size + Sync.head_size size + Sync.arrow_width size + 1 in
  (0 <? fc - fh) && (fc + fh <? size - 1)
  && (0 <? Capture.camera_x size - 1) && (0 <? Capture.vf_y size - 1)
  && (Capture.camera_x size + Capture.camera_width size + 1 <? size - 1)
  && (Capture.camera_y size + Capture.camera_height size + 1 <? size - 1)
  && (0 <? Assignments.doc_x size - am) && (0 <? Assignments.doc_y size - am)
  && (Assignments.doc_x size + Assignments.doc_width size + am <? size - 1)
  && (Assignments.doc_y size + Assignments.doc_height size + am <? size - 1)
  && (0 <? sc - sh) && (sc + sh <? size - 1).

(** The colours each shortcut icon draws with, and the colour of the blank
    image. *)
Definition capture_palette : list Color :=
  transparent_black :: map rgb [primary_blue; white; gray].
Definition assignments_palette : list Color :=
  transparent_black :: map rgb [white; primary_blue; light_blue].
Definition sync_palette : list Color :=
  transparent_black :: map rgb [primary_blue; light_blue].

(** Every pixel of [img] has one of the colours [pal]. *)
Definition coloured_from (pal : list Color) (img : Canvas) : Prop :=
  forall x y, In (pix img x y) pal.

(** Every pixel of [img] is fully transparent or fully opaque. *)
Definition two_level (img : Canvas) : Prop :=
  forall x y, alpha (pix img x y) = 0 \/ alpha (pix img x y) = 255.

(** The primary icon: the node lies within the inner disc and the inner
    disc within the main one; the connection points lie in the ring between
    the node and the rim of the inner disc; and the strands start no nearer
    the centre than the rim of the node. *)
Definition fiber_nesting_ok (size : Z) : bool :=
  let r := Fiber.radius size in
  let ir := Fiber.inner_radius size in
  let nr := Fiber.node_radius size in
  let pr := Fiber.point_radius size in
  let ps := Fiber.point_size size in
  (0 <=? nr) && (nr <=? ir) && (ir <=? r)
  && (0 <=? ps) && (nr + ps <=? pr) && (pr + ps <=? ir)
  && (10 * nr <=? 3 * ir).

(** The inner lens is a proper disc, and the body starts more than a pixel
    above the centre. *)
Definition capture_centre_ok (size : Z) : bool :=
  (0 <? Capture.inner_lens size) && (Capture.camera_y size + 1 <? Capture.center size).

(** * Proofs *)

Ltac zlia := Z.to_euclidean_division_equations; lia.

Ltac forall2 := apply Forall_cons; [ | apply Forall_cons; [ | apply Forall_nil ] ].
Ltac forall3 :=
  apply Forall_cons; [ | apply Forall_cons; [ | apply Forall_cons; [ | apply Forall_nil ] ] ].

(** [IZR] of a closed integer expression, evaluated. *)
Ltac eval_IZR :=
  repeat match goal with
         | |- context [IZR ?z] =>
             lazymatch z with
             | Z0 => fail
             | Zpos _ => fail
             | Zneg _ => fail
             | _ => let v := eval vm_compute in z in
                    progress change (IZR z) with (IZR v)
             end
         end.

Lemma margin_pos (d : Draw) : (1 <= margin d)%R.
Proof.
  unfold margin. destruct (shape d); try lra.
  assert (H : (0 <= IZR (Z.max 0 (width d)))%R) by (apply IZR_le; lia).
  lra.
Qed.

Lemma compose_ok (P : Rasteriser) (size : Z) (ds : list Draw) :
  0 <= size -> compose P size ds = Ok (render P ds (blank size)).
Proof.
  intros H. unfold compose, Image_new.
  destruct (size <? 0) eqn:Hs; [ lia | reflexivity ].
Qed.

Lemma range_down (n : Z) :
  Py.range n 0 (-1) = map (fun k => n - Z.of_nat k) (seq 0 (Z.to_nat n)).
Proof.
  unfold Py.range, Py.range_len. simpl (0 <? -1). simpl (-1 <? 0). cbv beta iota.
  change (- -1) with 1. rewrite Z.div_1_r.
  destruct (0 <? n) eqn:Hn.
  - replace (n - 0 - -1 - 1) with n by lia.
    apply map_ext. intros k. lia.
  - replace (Z.to_nat n) with 0%nat by lia. reflexivity.
Qed.

Lemma pairwise_map {A B} (f : A -> B) (l : list A) :
  Py.pairwise (map f l) = map (fun ab => (f (fst ab), f (snd ab))) (Py.pairwise l).
Proof.
  unfold Py.pairwise. destruct l as [ | a l]; [ reflexivity | ].
  cbn [map tl]. revert a. induction l as [ | b l IH]; intros a; [ reflexivity | ].
  cbn [map combine fst snd]. f_equal. apply IH.
Qed.

Lemma in_pairwise {A} (l : list A) (p q : A) :
  In (p, q) (Py.pairwise l) -> In p l /\ In q l.
Proof.
  unfold Py.pairwise. intros H. split.
  - eapply in_combine_l; eauto.
  - apply in_combine_r in H. destruct l; [ contradiction | now right ].
Qed.

Lemma all_from_spec (f : Z -> bool) (n : nat) (start x : Z) :
  all_from f start n = true -> start <= x < start + Z.of_nat n -> f x = true.
Proof.
  revert start. induction n as [ | n IH]; intros start H Hx; [ lia | ].
  simpl in H. apply andb_prop in H as [H1 H2].
  destruct (Z.eq_dec x start) as [-> | Hne]; [ assumption | ].
  apply (IH (start + 1)); [ assumption | lia ].
Qed.

Lemma truncatedb_spec (q n d x : Z) : truncatedb q n d x = true -> truncated q n d x.
Proof.
  unfold truncatedb, truncated. rewrite andb_true_iff, !Z.leb_le. tauto.
Qed.
(** ** Facts about [render] *)

Section RenderFacts.

Variable P : Rasteriser.

Lemma render_app ds1 ds2 c :
  render P (ds1 ++ ds2) c = render P ds2 (render P ds1 c).
Proof. apply fold_left_app. Qed.

Lemma render_width ds c : cwidth (render P ds c) = cwidth c.
Proof. revert c. induction ds as [ | d ds IH]; intros c; simpl; [ | rewrite IH ]; reflexivity. Qed.

Lemma render_height ds c : cheight (render P ds c) = cheight c.
Proof. revert c. induction ds as [ | d ds IH]; intros c; simpl; [ | rewrite IH ]; reflexivity. Qed.

(** A pixel no call can reach keeps its value. *)
Lemma render_untouched ds c x y :
  Forall (fun d => ~ reach d x y) ds -> pix (render P ds c) x y = pix c x y.
Proof.
  revert c. induction ds as [ | d ds IH]; intros c H; simpl; [ reflexivity | ].
  inversion H as [ | ? ? Hd Hds]; subst.
  rewrite IH by assumption. simpl.
  destruct (in_bounds c x y); [ now apply paint_frame | reflexivity ].
Qed.

(** Opaque inks keep an opaque pixel opaque. *)
Lemma render_opaque ds c x y :
  Forall opaque_inks ds -> alpha (pix c x y) = 255 ->
  alpha (pix (render P ds c) x y) = 255.
Proof.
  revert c. induction ds as [ | d ds IH]; intros c H Hc; simpl; [ assumption | ].
  inversion H as [ | ? ? Hd Hds]; subst.
  apply IH; [ assumption | ]. simpl.
  destruct (in_bounds c x y); [ | assumption ].
  assert (Hb : 255 <= alpha (paint P d x y (pix c x y)) <= 255).
  { apply paint_mixes; [ lia | ]. intros k Hk. rewrite (Hd k Hk). lia. }
  lia.
Qed.

(** A pixel inside the image that a call with opaque inks certainly paints,
    all later calls being opaque too, ends opaque. *)
Lemma render_covered pre d post c x y :
  in_bounds c x y = true -> covered d x y -> opaque_inks d ->
  Forall opaque_inks post ->
  alpha (pix (render P (pre ++ d :: post) c) x y) = 255.
Proof.
  intros Hb Hc Hd Hpost.
  rewrite render_app. simpl. apply render_opaque; [ assumption | ].
  simpl. unfold in_bounds in *. rewrite render_width, render_height, Hb.
  apply Hd. now apply paint_covers.
Qed.

End RenderFacts.

(** ** Running the export loop *)

Lemma append_eqb_prefix (a x y : string) : String.eqb (a ++ x)%string (a ++ y)%string = String.eqb x y.
Proof. induction a as [ | c a IH]; simpl; [ reflexivity | ]. now rewrite Ascii.eqb_refl. Qed.

Lemma os_path_join_inj (E : Env) (d a b : string) :
  os_path_join E d a = os_path_join E d b -> a = b.
Proof.
  intros H. apply String.eqb_eq. apply String.eqb_eq in H.
  unfold os_path_join in H. now rewrite !append_eqb_prefix in H.
Qed.

Lemma for_each_print (ls : list string) (w : World) :
  for_each ls print w = (Ok tt, mkWorld (writable w) (files w) (stdout w ++ ls)).
Proof.
  revert w. induction ls as [ | l ls IH]; intros w; simpl.
  - unfold ret. rewrite app_nil_r. now destruct w.
  - unfold bind, print at 1. rewrite IH. simpl. now rewrite <- app_assoc.
Qed.

Lemma run_jobs_cons (j : Job) (rest : list Job) (w : World) :
  run_jobs (j :: rest) w =
  let w1 := mkWorld (writable w) (files w) (stdout w ++ announce j) in
  match jimage j with
  | Ok img =>
      if writable w (jpath j)
      then run_jobs rest (mkWorld (writable w) (write_file (jpath j) img (files w))
                                  (stdout w ++ announce j))
      else (Raise OSError, w1)
  | Raise e => (Raise e, w1)
  end.
Proof.
  simpl. unfold bind. rewrite for_each_print. unfold lift, save. simpl.
  destruct (jimage j); [ | reflexivity ].
  destruct (writable w (jpath j)); reflexivity.
Qed.

Lemma run_jobs_ok (js : list Job) (w : World) :
  Forall (fun j => returns (jimage j)) js ->
  Forall (fun j => writable w (jpath j) = true) js ->
  run_jobs js w =
  (Ok tt, mkWorld (writable w) (fold_left write_job js (files w))
                  (stdout w ++ List.concat (map announce js))).
Proof.
  revert w. induction js as [ | j js IH]; intros w Hr Hw.
  - simpl. unfold ret. rewrite app_nil_r. now destruct w.
  - inversion Hr as [ | ? ? [img Hj] Hr']; inversion Hw as [ | ? ? Hwj Hw']; subst.
    assert (Hwj' : write_job (files w) j = write_file (jpath j) img (files w))
      by (unfold write_job; now rewrite Hj).
    rewrite run_jobs_cons, Hj, Hwj, IH by assumption. simpl.
    now rewrite Hwj', <- app_assoc.
Qed.

Lemma run_jobs_fail (pre post : list Job) (j : Job) (w : World) :
  Forall (fun j => returns (jimage j)) (pre ++ [j]) ->
  Forall (fun j => writable w (jpath j) = true) pre ->
  writable w (jpath j) = false ->
  run_jobs (pre ++ j :: post) w =
  (Raise OSError, mkWorld (writable w) (fold_left write_job pre (files w))
                          (stdout w ++ List.concat (map announce (pre ++ [j])))).
Proof.
  revert w. induction pre as [ | j0 pre IH]; intros w Hr Hw Hj.
  - inversion Hr as [ | ? ? [img Himg] _]; subst.
    simpl app. rewrite run_jobs_cons, Himg, Hj. simpl. now rewrite app_nil_r.
  - inversion Hr as [ | ? ? [img Himg] Hr']; inversion Hw as [ | ? ? Hw0 Hw']; subst.
    assert (Hwj' : write_job (files w) j0 = write_file (jpath j0) img (files w))
      by (unfold write_job; now rewrite Himg).
    simpl app. rewrite run_jobs_cons, Himg, Hw0, IH by assumption. simpl.
    now rewrite Hwj', <- app_assoc.
Qed.

Lemma write_file_fresh (p : string) (img : Canvas) (fs : list (string * Canvas)) :
  ~ In p (map fst fs) -> write_file p img fs = (fs ++ [(p, img)])%list.
Proof.
  intros H. unfold write_file. f_equal.
  induction fs as [ | [q i] fs IH]; simpl in *; [ reflexivity | ].
  destruct (String.eqb_spec q p) as [-> | Hne]; simpl.
  - tauto.
  - f_equal. apply IH. tauto.
Qed.

Lemma fold_write_job_fresh (js : list Job) :
  NoDup (map jpath js) ->
  fold_left write_job js [] = map (fun j => (jpath j, image_of (jimage j))) js.
Proof.
  intros H.
  assert (G : forall fs, NoDup (map fst fs ++ map jpath js)%list ->
                         fold_left write_job js fs
                         = (fs ++ map (fun j => (jpath j, image_of (jimage j))) js)%list).
  { clear H. induction js as [ | j js IH]; intros fs Hnd; simpl.
    - now rewrite app_nil_r.
    - unfold write_job at 2.
      rewrite write_file_fresh
        by (apply NoDup_remove_2 in Hnd; rewrite in_app_iff in Hnd; tauto).
      rewrite IH.
      + now rewrite <- app_assoc.
      + rewrite map_app, <- app_assoc. exact Hnd. }
  apply (G []). exact H.
Qed.

Ltac run_cbv :=
  cbv beta iota zeta delta
      [generate_all_icons jobs sizes main_job run_jobs for_each bind print lift ret
       save map app announce jimage jpath writable files stdout fst snd].

Ltac job_step wr c :=
  destruct c as [? | ?]; run_cbv; [ | reflexivity ];
  match goal with
  | |- context [if wr ?q then _ else _] =>
      destruct (wr q); run_cbv; [ | reflexivity ]
  end.

Lemma generate_all_icons_jobs (P : Rasteriser) (E : Env) (w : World) :
  generate_all_icons P E w =
  (print "Generating FibreField PWA icons..." ;;;
   run_jobs (jobs P E) ;;;
   print success_line ;;;
   print ("Icons saved to: " ++ icons_dir)%string) w.
Proof.
  destruct w as [wr fs so]. run_cbv.
  job_step wr (create_fiber_icon P E 72).
  job_step wr (create_fiber_icon P E 96).
  job_step wr (create_fiber_icon P E 128).
  job_step wr (create_fiber_icon P E 144).
  job_step wr (create_fiber_icon P E 152).
  job_step wr (create_fiber_icon P E 192).
  job_step wr (create_fiber_icon P E 384).
  job_step wr (create_fiber_icon P E 512).
  job_step wr (create_capture_icon P 96).
  job_step wr (create_assignments_icon P 96).
  job_step wr (create_sync_icon P 96).
  reflexivity.
Qed.

Section ExportFacts.

Variable P : Rasteriser.
Variable E : Env.

Lemma jobs_return : Forall (fun j => returns (jimage j)) (jobs P E).
Proof.
  cbv [jobs sizes map app main_job].
  repeat constructor; cbv [jimage];
    unfold returns, create_fiber_icon, create_capture_icon,
           create_assignments_icon, create_sync_icon;
    rewrite compose_ok by lia; eexists; reflexivity.
Qed.

Lemma jobs_paths : map jpath (jobs P E) = targets E.
Proof. reflexivity. Qed.

Lemma target_names_NoDup : NoDup target_names.
Proof.
  vm_compute.
  repeat (constructor; [ simpl; intuition discriminate | ]). constructor.
Qed.

Lemma targets_NoDup : NoDup (targets E).
Proof.
  unfold targets. apply Injective_map_NoDup; [ | exact target_names_NoDup ].
  intros a b. apply os_path_join_inj.
Qed.

Lemma jobs_dims :
  map (fun j => dims (jpath j, image_of (jimage j))) (jobs P E) =
  map (fun ns : string * Z => (os_path_join E icons_dir (fst ns), (snd ns, snd ns)))
      [ ("icon-72x72.png", 72); ("icon-96x96.png", 96); ("icon-128x128.png", 128);
        ("icon-144x144.png", 144); ("icon-152x152.png", 152); ("icon-192x192.png", 192);
        ("icon-384x384.png", 384); ("icon-512x512.png", 512);
        ("shortcut-capture.png", 96); ("shortcut-assignments.png", 96);
        ("shortcut-sync.png", 96) ].
Proof.
  cbv [jobs sizes map app main_job jimage jpath dims fst snd].
  unfold create_fiber_icon, create_capture_icon, create_assignments_icon, create_sync_icon.
  rewrite !compose_ok by lia. cbv [image_of].
  rewrite !render_width, !render_height. reflexivity.
Qed.

End ExportFacts.

Lemma generate_all_icons_ok (P : Rasteriser) (E : Env) (w : World) :
  (forall p, In p (targets E) -> writable w p = true) ->
  generate_all_icons P E w =
  (Ok tt, mkWorld (writable w) (fold_left write_job (jobs P E) (files w))
                  (((((stdout w ++ ["Generating FibreField PWA icons..."])
                      ++ List.concat (map announce (jobs P E)))
                     ++ [success_line]) ++ [("Icons saved to: " ++ icons_dir)%string])%list)).
Proof.
  intros Hw. rewrite generate_all_icons_jobs.
  unfold bind at 1. unfold print at 1. cbv beta iota.
  unfold bind at 1. rewrite run_jobs_ok.
  - reflexivity.
  - apply jobs_return.
  - cbn [writable]. apply Forall_forall. intros j Hj. apply Hw.
    rewrite <- (jobs_paths P E). now apply in_map.
Qed.

(** C4: run where every target path can be written, on an empty directory,
    the export loop ends normally and has written exactly eleven files, in
    this order: [icon-NxN.png] for each [N] of the size matrix, each an
    [N] by [N] image, then [shortcut-capture.png], [shortcut-assignments.png]
    and [shortcut-sync.png], each 96 by 96, all in [icons_dir]. *)
Theorem export_writes_eleven_files (P : Rasteriser) (E : Env) (w : World) :
  (forall p, In p (targets E) -> writable w p = true) ->
  files w = [] ->
  exists w', generate_all_icons P E w = (Ok tt, w') /\
             map dims (files w') = expected_files E /\
             List.length (files w') = 11%nat.
Proof.
  intros Hw Hf. rewrite generate_all_icons_ok by assumption.
  eexists; split; [ reflexivity | ]. cbn [files].
  rewrite Hf, fold_write_job_fresh by (rewrite jobs_paths; apply targets_NoDup).
  rewrite length_map, map_map. split; [ apply jobs_dims | reflexivity ].
Qed.

Lemma announce_lines (P : Rasteriser) (E : Env) :
  List.concat (map announce (jobs P E)) =
  [ "Creating main icon 72x72..."; "Creating main icon 96x96...";
    "Creating main icon 128x128..."; "Creating main icon 144x144...";
    "Creating main icon 152x152..."; "Creating main icon 192x192...";
    "Creating main icon 384x384..."; "Creating main icon 512x512...";
    "Creating shortcut icons..." ].
Proof. reflexivity. Qed.

(** The world a failing save leaves: the files of the jobs before it, and
    the lines printed up to it. *)
Lemma generate_all_icons_fail (P : Rasteriser) (E : Env) (w : World)
      (pre post : list Job) (j : Job) :
  jobs P E = pre ++ j :: post ->
  Forall (fun j => writable w (jpath j) = true) pre ->
  writable w (jpath j) = false ->
  generate_all_icons P E w =
  (Raise OSError,
   mkWorld (writable w) (fold_left write_job pre (files w))
           (((stdout w ++ ["Generating FibreField PWA icons..."])
             ++ List.concat (map announce (pre ++ [j])))%list)).
Proof.
  intros Hjobs Hpre Hj. rewrite generate_all_icons_jobs.
  unfold bind at 1. unfold print at 1. cbv beta iota.
  unfold bind at 1. rewrite Hjobs, run_jobs_fail.
  - reflexivity.
  - pose proof (jobs_return P E) as Hr. rewrite Hjobs in Hr.
    apply Forall_app in Hr as [Hr1 Hr2]. apply Forall_app. split; [ assumption | ].
    inversion Hr2; subst. now constructor.
  - exact Hpre.
  - exact Hj.
Qed.

(** C1, amended: the export loop has no error handling.  When a save
    fails, the files before it having been written, the exception leaves
    [generate_all_icons]: the directory holds exactly the files written
    before the failure, no later file is written, and the closing line is not
    printed. *)
Theorem export_fails_fast (P : Rasteriser) (E : Env) (w : World)
        (pre post : list string) (p : string) :
  targets E = (pre ++ p :: post)%list ->
  (forall q, In q pre -> writable w q = true) ->
  writable w p = false ->
  files w = [] -> stdout w = [] ->
  exists w', generate_all_icons P E w = (Raise OSError, w') /\
             map fst (files w') = pre /\
             ~ In success_line (stdout w').
Proof.
  intros Ht Hpre Hp Hf Hs.
  rewrite <- (jobs_paths P E) in Ht.
  apply map_eq_app in Ht as (jpre & jrest & Hjobs & Hmpre & Hmrest).
  destruct jrest as [ | j jpost]; [ discriminate | ].
  simpl in Hmrest. injection Hmrest as Hjp Hmpost.
  eexists. split; [ | split ].
  - apply (generate_all_icons_fail P E w jpre jpost j Hjobs).
    + apply Forall_forall. intros j0 Hj0. apply Hpre. rewrite <- Hmpre. now apply in_map.
    + now rewrite Hjp.
  - cbn [files]. rewrite Hf, fold_write_job_fresh.
    + rewrite map_map. exact Hmpre.
    + pose proof (targets_NoDup E) as Hnd. rewrite <- (jobs_paths P E), Hjobs, map_app in Hnd.
      now apply NoDup_app_remove_r in Hnd.
  - cbn [stdout]. rewrite Hs. intros Hin.
    apply in_app_or in Hin as [Hin | Hin].
    + simpl in Hin. destruct Hin as [Hin | []]. discriminate Hin.
    + assert (Hall : In success_line (List.concat (map announce (jobs P E)))).
      { rewrite Hjobs. rewrite map_app, concat_app in Hin. rewrite map_app, concat_app.
        simpl in *. rewrite !in_app_iff in *. tauto. }
      rewrite announce_lines in Hall. simpl in Hall.
      repeat (destruct Hall as [Hall | Hall]; [ discriminate Hall | ]). exact Hall.
Qed.

(** The run of [export_fails_fast] in the world where the second icon is
    locked. *)
Lemma export_fails_fast_witness :
  exists w', generate_all_icons box_rasteriser windows_env locked_96_world = (Raise OSError, w') /\
             map fst (files w') = [os_path_join windows_env icons_dir "icon-72x72.png"] /\
             ~ In success_line (stdout w').
Proof.
  apply (export_fails_fast box_rasteriser windows_env locked_96_world
           [os_path_join windows_env icons_dir "icon-72x72.png"]
           (skipn 2 (targets windows_env))
           (os_path_join windows_env icons_dir "icon-96x96.png")).
  - reflexivity.
  - intros q [<- | []]. reflexivity.
  - reflexivity.
  - reflexivity.
  - reflexivity.
Defined.

(** C1, counterexample: when only [icon-96x96.png] cannot be written, the
    run raises [OSError] out of [generate_all_icons] and leaves a single file,
    [icon-72x72.png]; [icon-128x128.png] and the eight files after it could
    have been written and were not attempted. *)
Lemma export_aborts_on_locked_icon :
  fst (generate_all_icons box_rasteriser windows_env locked_96_world) = Raise OSError /\
  map fst (files (snd (generate_all_icons box_rasteriser windows_env locked_96_world)))
  = [os_path_join windows_env icons_dir "icon-72x72.png"] /\
  writable locked_96_world (os_path_join windows_env icons_dir "icon-128x128.png") = true.
Proof.
  rewrite (generate_all_icons_fail box_rasteriser windows_env locked_96_world
             [main_job box_rasteriser windows_env 72]
             (skipn 2 (jobs box_rasteriser windows_env))
             (main_job box_rasteriser windows_env 96)).
  - repeat split.
  - reflexivity.
  - repeat constructor.
  - reflexivity.
Qed.

(** The run of [export_writes_eleven_files] in a fresh, writable
    directory. *)
Lemma export_writes_eleven_files_witness :
  exists w', generate_all_icons box_rasteriser windows_env fresh_world = (Ok tt, w') /\
             map dims (files w') = expected_files windows_env /\
             List.length (files w') = 11%nat.
Proof.
  apply export_writes_eleven_files.
  - intros p _. reflexivity.
  - reflexivity.
Defined.

(** *** Transparent inks *)

Lemma glow_first (size : Z) :
  0 < Fiber.radius size ->
  hd_error (Fiber.glow size) = Some (Fiber.glow_ring size (Fiber.radius size)).
Proof.
  intros H. unfold Fiber.glow. rewrite range_down.
  destruct (Z.to_nat (Fiber.radius size)) eqn:Hn; [ lia | ].
  simpl. do 2 f_equal. lia.
Qed.

(** At the sizes of the size matrix the first ring of the glow has alpha 0. *)
Lemma glow_ring_first_transparent (size : Z) :
  In size sizes -> transparent_inks (Fiber.glow_ring size (Fiber.radius size)).
Proof.
  intros Hs k Hk. unfold Fiber.glow_ring, ellipse, inks in Hk. cbn [fill outline] in Hk.
  destruct Hk as [<- | []]. cbn [alpha with_alpha primary_blue].
  unfold sizes in Hs. simpl in Hs.
  repeat (destruct Hs as [<- | Hs]; [ vm_compute; reflexivity | ]). contradiction.
Qed.

Section TransparentInk.

Variable P : Rasteriser.

Lemma draw_frame (c : Canvas) (d : Draw) (x y : Z) :
  ~ reach d x y -> pix (draw P c d) x y = pix c x y.
Proof.
  intros H. simpl. destruct (in_bounds c x y); [ now apply paint_frame | reflexivity ].
Qed.

Lemma draw_stores (c : Canvas) (d : Draw) (x y : Z) :
  is_text d = false ->
  pix (draw P c d) x y = pix c x y \/ In (pix (draw P c d) x y) (inks d).
Proof.
  intros H. simpl. destruct (in_bounds c x y); [ now apply paint_stores | now left ].
Qed.

Lemma draw_keeps_alpha (c : Canvas) (d : Draw) (x y a : Z) :
  (forall k, In k (inks d) -> alpha k = a) ->
  alpha (pix c x y) = a -> alpha (pix (draw P c d) x y) = a.
Proof.
  intros Hd Hc. simpl. destruct (in_bounds c x y); [ | assumption ].
  assert (H : a <= alpha (paint P d x y (pix c x y)) <= a).
  { apply paint_mixes; [ lia | ]. intros k Hk. rewrite (Hd k Hk). lia. }
  lia.
Qed.

Lemma draw_covered (c : Canvas) (d : Draw) (x y : Z) :
  in_bounds c x y = true -> covered d x y -> In (pix (draw P c d) x y) (inks d).
Proof. intros Hb Hc. simpl. rewrite Hb. now apply paint_covers. Qed.

(** The first glow ring of the 72-pixel icon paints the centre pixel. *)
Lemma first_ring_72 :
  pix (draw P (blank 72) (Fiber.glow_ring 72 28)) 36 36 = rgba 59 130 246 0.
Proof.
  assert (H : In (pix (draw P (blank 72) (Fiber.glow_ring 72 28)) 36 36)
                 (inks (Fiber.glow_ring 72 28))).
  { apply draw_covered; [ reflexivity | ].
    split; [ discriminate | ]. simpl.
    replace (Fiber.center 72) with 36 by reflexivity.
    simpl. lra. }
  destruct H as [H | []]. now rewrite <- H.
Qed.

End TransparentInk.




(** *** The centre pixel *)

Lemma centre_in_bounds (size : Z) :
  1 <= size -> in_bounds (blank size) (size / 2) (size / 2) = true.
Proof.
  intros H. unfold in_bounds. simpl.
  rewrite !andb_true_iff, !Z.leb_le, !Z.ltb_lt. zlia.
Qed.

Lemma opaque_rgb2 (s : Shape) (a b : Z * Z * Z) (w : Z) :
  opaque_inks (mkDraw s (Some (rgb a)) (Some (rgb b)) w).
Proof.
  destruct a as [[? ?] ?], b as [[? ?] ?].
  intros k [<- | [<- | []]]; reflexivity.
Qed.

Lemma opaque_rgb1 (s : Shape) (a : Z * Z * Z) (w : Z) :
  opaque_inks (mkDraw s (Some (rgb a)) None w).
Proof. destruct a as [[? ?] ?]. intros k [<- | []]; reflexivity. Qed.

Lemma disk_covers_centre (c r : Z) (f : Color) (o : option Color) (w : Z) :
  0 < r ->
  covered (ellipse (IZR (c - r)) (IZR (c - r)) (IZR (c + r)) (IZR (c + r)) (Some f) o w) c c.
Proof.
  intros Hr. split; [ discriminate | ]. simpl.
  rewrite minus_IZR, plus_IZR. apply IZR_lt in Hr. lra.
Qed.

Lemma fiber_commands_split (E : Env) (size : Z) :
  Fiber.commands E size =
  (Fiber.glow size
   ++ [ Fiber.disk size (Fiber.radius size) (rgb primary_blue) None 1;
        Fiber.disk size (Fiber.inner_radius size) (rgb secondary_blue) None 1 ]
   ++ Fiber.strands size)
  ++ Fiber.node size :: (Fiber.connection_points size ++ Fiber.label_step E size).
Proof. unfold Fiber.commands. now rewrite <- !app_assoc. Qed.

Lemma fiber_tail_opaque (E : Env) (size : Z) :
  Forall opaque_inks (Fiber.connection_points size ++ Fiber.label_step E size).
Proof.
  apply Forall_app. split.
  - unfold Fiber.connection_points. apply Forall_map, Forall_forall.
    intros a _. apply opaque_rgb2.
  - unfold Fiber.label_step.
    destruct (128 <=? size); [ | constructor ].
    destruct (label_box E) as [[[[l t] r] b] | ].
    + unfold Fiber.label. repeat constructor; apply opaque_rgb1.
    + unfold Fiber.cross. repeat constructor; apply opaque_rgb1.
Qed.

Lemma assignments_items_opaque (size : Z) :
  Forall opaque_inks (flat_map (Assignments.item size) (Py.range 0 4 1)).
Proof.
  apply Forall_flat_map, Forall_forall. intros i _.
  unfold Assignments.item. apply Forall_app. split; [ | apply Forall_app; split ].
  - repeat constructor. apply opaque_rgb2.
  - destruct (i <? 2); [ | constructor ]. repeat constructor; apply opaque_rgb1.
  - repeat constructor. apply opaque_rgb1.
Qed.

Lemma centre_ok_checked : all_from centre_ok 32 4065 = true.
Proof. vm_compute. reflexivity. Qed.

Lemma centre_ok_range (size : Z) :
  32 <= size <= max_checked_size -> centre_ok size = true.
Proof.
  intros H. apply (all_from_spec centre_ok 4065 32); [ exact centre_ok_checked | ].
  unfold max_checked_size in H. lia.
Qed.

Section Centre.

Variable P : Rasteriser.
Variable E : Env.
Variable size : Z.
Hypothesis size_pos : 1 <= size.
Hypothesis size_ok : centre_ok size = true.

Lemma fiber_centre :
  alpha (pix (render P (Fiber.commands E size) (blank size)) (size / 2) (size / 2)) = 255.
Proof.
  unfold centre_ok in size_ok. rewrite !andb_true_iff, !Z.ltb_lt in size_ok.
  rewrite fiber_commands_split.
  apply render_covered.
  - now apply centre_in_bounds.
  - apply disk_covers_centre. tauto.
  - apply opaque_rgb2.
  - apply fiber_tail_opaque.
Qed.

Lemma capture_centre :
  alpha (pix (render P (Capture.commands size) (blank size)) (size / 2) (size / 2)) = 255.
Proof.
  unfold centre_ok in size_ok. rewrite !andb_true_iff, !Z.ltb_lt in size_ok.
  change (Capture.commands size) with
    ([ Capture.body size;
       Capture.disk size (Capture.lens_radius size) (rgb gray) (Some (rgb white)) 2 ]
     ++ Capture.disk size (Capture.inner_lens size) (rgb white) None 1
     :: [ Capture.viewfinder size ]).
  apply render_covered.
  - now apply centre_in_bounds.
  - apply disk_covers_centre. tauto.
  - apply opaque_rgb1.
  - repeat constructor. apply opaque_rgb2.
Qed.

Lemma assignments_centre :
  alpha (pix (render P (Assignments.commands size) (blank size)) (size / 2) (size / 2)) = 255.
Proof.
  unfold centre_ok in size_ok. rewrite !andb_true_iff, !Z.ltb_lt in size_ok.
  change (Assignments.commands size) with
    ([] ++ Assignments.document size
        :: flat_map (Assignments.item size) (Py.range 0 4 1)).
  apply render_covered.
  - now apply centre_in_bounds.
  - split; [ discriminate | ]. cbn [Assignments.document rounded_rectangle shape].
    unfold Assignments.center. rewrite <- !plus_IZR, <- !minus_IZR.
    repeat split; apply IZR_lt; lia.
  - apply opaque_rgb2.
  - apply assignments_items_opaque.
Qed.

End Centre.



(** *** Pixels a call cannot reach *)

Lemma Forall_Exists_absurd {A} (Q R : A -> Prop) (l : list A) :
  (forall a, Q a -> R a -> False) -> Forall Q l -> Exists R l -> False.
Proof.
  intros H HQ HR. apply Exists_exists in HR as (a & Ha & HRa).
  rewrite Forall_forall in HQ. eauto.
Qed.

Lemma clear_not_reach (d : Draw) (x y : Z) : clear_of d x y -> ~ reach d x y.
Proof.
  unfold clear_of, reach. intros [H | [H | [H | H]]] (R1 & R2 & R3 & R4).
  - apply (Forall_Exists_absurd _ _ _ (fun a Ha Hb => Rlt_not_le _ _ Ha Hb) H R1).
  - apply (Forall_Exists_absurd _ _ _ (fun a Ha Hb => Rlt_not_le _ _ Ha Hb) H R2).
  - apply (Forall_Exists_absurd _ _ _ (fun a Ha Hb => Rlt_not_le _ _ Ha Hb) H R3).
  - apply (Forall_Exists_absurd _ _ _ (fun a Ha Hb => Rlt_not_le _ _ Ha Hb) H R4).
Qed.

Lemma inside_not_reach (d : Draw) (lo hi : Z) (x y : Z) :
  inside d (IZR lo) (IZR hi) -> x <= lo \/ hi <= x \/ y <= lo \/ hi <= y -> ~ reach d x y.
Proof.
  unfold inside. intros H Hx. apply clear_not_reach. unfold clear_of.
  pose proof (margin_pos d) as Hm.
  destruct Hx as [Hx | [Hx | [Hx | Hx]]]; apply IZR_le in Hx.
  - left. eapply Forall_impl; [ | exact H ]. simpl. intros a Ha. lra.
  - right; left. eapply Forall_impl; [ | exact H ]. simpl. intros a Ha. lra.
  - right; right; left. eapply Forall_impl; [ | exact H ]. simpl. intros a Ha. lra.
  - right; right; right. eapply Forall_impl; [ | exact H ]. simpl. intros a Ha. lra.
Qed.

(** *** Circles *)

Local Open Scope R_scope.

Lemma sin_bounds_pos (x : R) : 0 < x -> - x <= sin x <= x.
Proof.
  intros Hx. pose proof (sin_lt_x x Hx) as H. pose proof (SIN_bound x) as Hb.
  split; [ | lra ].
  destruct (Rle_dec 1 x) as [H1 | H1]; [ lra | ].
  assert (0 < sin x) by (apply sin_gt_0; [ lra | pose proof PI2_1; lra ]).
  lra.
Qed.

Lemma sin_abs_le (x : R) : Rabs (sin x) <= Rabs x.
Proof.
  destruct (Rtotal_order x 0) as [Hx | [-> | Hx]].
  - pose proof (sin_bounds_pos (- x) ltac:(lra)) as H. rewrite sin_neg in H.
    rewrite (Rabs_left x) by lra. apply Rabs_le. lra.
  - rewrite sin_0, Rabs_R0. lra.
  - pose proof (sin_bounds_pos x Hx) as H.
    rewrite (Rabs_right x) by lra. apply Rabs_le. lra.
Qed.

Lemma cos_lipschitz (p q : R) : Rabs (cos p - cos q) <= Rabs (p - q).
Proof.
  rewrite form2.
  replace (-2 * sin ((p - q) / 2) * sin ((p + q) / 2))
    with (sin ((p + q) / 2) * (-2 * sin ((p - q) / 2))) by ring.
  rewrite Rabs_mult.
  assert (H1 : Rabs (sin ((p + q) / 2)) <= 1).
  { apply Rabs_le. pose proof (SIN_bound ((p + q) / 2)). lra. }
  assert (H2 : Rabs (-2 * sin ((p - q) / 2)) <= Rabs (p - q)).
  { rewrite Rabs_mult. replace (Rabs (-2)) with 2 by (rewrite Rabs_left; lra).
    pose proof (sin_abs_le ((p - q) / 2)) as H.
    replace (Rabs ((p - q) / 2)) with (Rabs (p - q) / 2) in H.
    - lra.
    - unfold Rdiv. rewrite Rabs_mult. f_equal. rewrite Rabs_right; lra. }
  pose proof (Rabs_pos (sin ((p + q) / 2))).
  pose proof (Rabs_pos (-2 * sin ((p - q) / 2))).
  nra.
Qed.

Lemma sin_lipschitz (p q : R) : Rabs (sin p - sin q) <= Rabs (p - q).
Proof.
  rewrite form4.
  replace (2 * cos ((p + q) / 2) * sin ((p - q) / 2))
    with (cos ((p + q) / 2) * (2 * sin ((p - q) / 2))) by ring.
  rewrite Rabs_mult.
  assert (H1 : Rabs (cos ((p + q) / 2)) <= 1).
  { apply Rabs_le. pose proof (COS_bound ((p + q) / 2)). lra. }
  assert (H2 : Rabs (2 * sin ((p - q) / 2)) <= Rabs (p - q)).
  { rewrite Rabs_mult. replace (Rabs 2) with 2 by (rewrite Rabs_right; lra).
    pose proof (sin_abs_le ((p - q) / 2)) as H.
    replace (Rabs ((p - q) / 2)) with (Rabs (p - q) / 2) in H.
    - lra.
    - unfold Rdiv. rewrite Rabs_mult. f_equal. rewrite Rabs_right; lra. }
  pose proof (Rabs_pos (cos ((p + q) / 2))).
  pose proof (Rabs_pos (2 * sin ((p - q) / 2))).
  nra.
Qed.

Lemma Rabs_bound (x b : R) : Rabs x <= b -> - b <= x <= b.
Proof. unfold Rabs. destruct (Rcase_abs x); lra. Qed.

Lemma cos_close (p q d : R) : Rabs (p - q) <= d -> - d <= cos p - cos q <= d.
Proof. intros H. apply Rabs_bound. pose proof (cos_lipschitz p q). lra. Qed.

Lemma sin_close (p q d : R) : Rabs (p - q) <= d -> - d <= sin p - sin q <= d.
Proof. intros H. apply Rabs_bound. pose proof (sin_lipschitz p q). lra. Qed.

(** On the unit circle one coordinate is at least 7/10 in absolute value. *)
Lemma far_coordinate (t : R) :
  7 / 10 <= cos t \/ cos t <= - (7 / 10) \/ 7 / 10 <= sin t \/ sin t <= - (7 / 10).
Proof.
  pose proof (sin2_cos2 t) as H. unfold Rsqr in H.
  destruct (Rle_dec (7 / 10) (cos t)); [ now left | ].
  destruct (Rle_dec (cos t) (- (7 / 10))); [ now right; left | ].
  destruct (Rle_dec (7 / 10) (sin t)); [ now right; right; left | ].
  destruct (Rle_dec (sin t) (- (7 / 10))); [ now right; right; right | ].
  exfalso. nra.
Qed.

Lemma arc_point_on_circle (c r a : Z) :
  Sync.arc_point c r a = on_circle c r (Py.radians (IZR a)).
Proof. reflexivity. Qed.

Lemma radians_step (a : Z) :
  Rabs (Py.radians (IZR a) - Py.radians (IZR (a + 5)%Z)) <= 1 / 9.
Proof.
  unfold Py.radians. rewrite plus_IZR.
  replace (IZR a * PI / 180 - (IZR a + 5) * PI / 180) with (- (PI / 36)) by field.
  rewrite Rabs_Ropp, Rabs_right; pose proof PI_4; pose proof PI_RGT_0; lra.
Qed.

(** A stroke between two nearby points of a circle about [(c, c)] stays
    clear of the centre pixel. *)
Lemma scale_ge (r a b : R) : 0 < r -> a <= b -> r * a <= r * b.
Proof. intros. apply Rmult_le_compat_l; lra. Qed.

Lemma chord_clear (c r : Z) (t1 t2 : R) (f : Color) (w : Z) (dt : R) :
  Rabs (t1 - t2) <= dt ->
  IZR (Z.max 0 w) + 1 < IZR r * (7 / 10 - dt) ->
  (0 < r)%Z ->
  clear_of (line (on_circle c r t1) (on_circle c r t2) f w) c c.
Proof.
  intros Hdt Hm Hr. unfold clear_of.
  pose proof (cos_close t1 t2 dt Hdt) as Hc. pose proof (sin_close t1 t2 dt Hdt) as Hs.
  apply IZR_lt in Hr.
  cbn [line shape anchors margin on_circle width].
  destruct (far_coordinate t1) as [H | [H | [H | H]]].
  - left.
    pose proof (scale_ge (IZR r) (7 / 10 - dt) (cos t1) Hr ltac:(lra)).
    pose proof (scale_ge (IZR r) (7 / 10 - dt) (cos t2) Hr ltac:(lra)).
    forall2; unfold on_circle; cbn [fst snd]; lra.
  - right; left.
    pose proof (scale_ge (IZR r) (cos t1) (- (7 / 10 - dt)) Hr ltac:(lra)).
    pose proof (scale_ge (IZR r) (cos t2) (- (7 / 10 - dt)) Hr ltac:(lra)).
    forall2; unfold on_circle; cbn [fst snd]; lra.
  - right; right; left.
    pose proof (scale_ge (IZR r) (7 / 10 - dt) (sin t1) Hr ltac:(lra)).
    pose proof (scale_ge (IZR r) (7 / 10 - dt) (sin t2) Hr ltac:(lra)).
    forall2; unfold on_circle; cbn [fst snd]; lra.
  - right; right; right.
    pose proof (scale_ge (IZR r) (sin t1) (- (7 / 10 - dt)) Hr ltac:(lra)).
    pose proof (scale_ge (IZR r) (sin t2) (- (7 / 10 - dt)) Hr ltac:(lra)).
    forall2; unfold on_circle; cbn [fst snd]; lra.
Qed.

(** A triangle with its tip on the circle and its other vertices within [h]
    of the tip stays clear of the centre pixel. *)
Lemma head_clear (c r : Z) (t : R) (h : R) (p1 p2 : Point) (f : Color) :
  let tip := on_circle c r t in
  fst tip - h <= fst p1 <= fst tip + h -> snd tip - h <= snd p1 <= snd tip + h ->
  fst tip - h <= fst p2 <= fst tip + h -> snd tip - h <= snd p2 <= snd tip + h ->
  1 + h < IZR r * (7 / 10) -> 0 <= h ->
  clear_of (polygon [tip; p1; p2] f) c c.
Proof.
  intros tip Hx1 Hy1 Hx2 Hy2 Hm Hh. unfold clear_of.
  assert (Hr : 0 < IZR r) by nra.
  subst tip. unfold on_circle in *.
  cbn [polygon shape anchors margin fst snd width] in *.
  destruct (far_coordinate t) as [Hf | [Hf | [Hf | Hf]]].
  - left. pose proof (scale_ge (IZR r) (7 / 10) (cos t) Hr Hf).
    forall3; cbn [fst snd]; lra.
  - right; left. pose proof (scale_ge (IZR r) (cos t) (- (7 / 10)) Hr Hf).
    forall3; cbn [fst snd]; lra.
  - right; right; left. pose proof (scale_ge (IZR r) (7 / 10) (sin t) Hr Hf).
    forall3; cbn [fst snd]; lra.
  - right; right; right. pose proof (scale_ge (IZR r) (sin t) (- (7 / 10)) Hr Hf).
    forall3; cbn [fst snd]; lra.
Qed.

Local Close Scope R_scope.

(** *** Lists of sample points *)

Lemma top_angles_step :
  Forall (fun ab => snd ab = fst ab + 5) (Py.pairwise Sync.top_angles).
Proof.
  apply Forall_forall. intros ab Hin.
  assert (H : forallb (fun ab => snd ab =? fst ab + 5) (Py.pairwise Sync.top_angles) = true)
    by (vm_compute; reflexivity).
  rewrite forallb_forall in H. apply Z.eqb_eq. now apply H.
Qed.

Lemma bottom_angles_step :
  Forall (fun ab => snd ab = fst ab + 5) (Py.pairwise Sync.bottom_angles).
Proof.
  apply Forall_forall. intros ab Hin.
  assert (H : forallb (fun ab => snd ab =? fst ab + 5) (Py.pairwise Sync.bottom_angles) = true)
    by (vm_compute; reflexivity).
  rewrite forallb_forall in H. apply Z.eqb_eq. now apply H.
Qed.

(** Subtracting 360 degrees does not move the point. *)
Lemma angle_norm_point (c r a : Z) :
  Sync.arc_point c r (Sync.angle_norm a) = Sync.arc_point c r a.
Proof.
  unfold Sync.angle_norm. destruct (360 <=? a); [ | reflexivity ].
  unfold Sync.arc_point, Py.radians. rewrite minus_IZR.
  replace ((IZR a - 360) * PI / 180)%R with (IZR a * PI / 180 - 2 * PI)%R by field.
  rewrite cos_minus, sin_minus, cos_2PI, sin_2PI. f_equal; ring.
Qed.

Lemma points_bottom_raw (size : Z) :
  Sync.points_bottom size =
  map (Sync.arc_point (Sync.center size) (Sync.inner_radius size)) Sync.bottom_angles.
Proof. unfold Sync.points_bottom. apply map_ext. intros a. apply angle_norm_point. Qed.

(** The strokes of an arc sampled every five degrees stay clear of the
    centre. *)
Lemma arc_clear (c r w : Z) (f : Color) (angles : list Z) :
  Forall (fun ab => snd ab = fst ab + 5) (Py.pairwise angles) ->
  (IZR (Z.max 0 w) + 1 < IZR r * (7 / 10 - 1 / 9))%R -> 0 < r ->
  Forall (fun d => ~ reach d c c) (Sync.arc (map (Sync.arc_point c r) angles) f w).
Proof.
  intros Hstep Hm Hr. unfold Sync.arc. rewrite pairwise_map, map_map.
  apply Forall_map. eapply Forall_impl; [ | exact Hstep ].
  intros [a b] Hab. cbn [fst snd] in *. subst b.
  apply clear_not_reach. rewrite !arc_point_on_circle.
  apply chord_clear with (dt := (1 / 9)%R); [ apply radians_step | assumption | assumption ].
Qed.

(** *** The sync icon at 96 pixels *)

Lemma head_top_96 :
  Sync.head_top 96 =
  let tip := on_circle 48 28 (Py.radians 310) in
  [ tip;
    ((fst tip - 6 * cos (Py.radians 315 + 5 / 10))%R,
     (snd tip - 6 * sin (Py.radians 315 + 5 / 10))%R);
    ((fst tip - 6 * cos (Py.radians 315 - 5 / 10))%R,
     (snd tip - 6 * sin (Py.radians 315 - 5 / 10))%R) ].
Proof. reflexivity. Qed.

Lemma head_bottom_96 :
  Sync.head_bottom 96 =
  let tip := on_circle 48 16 (Py.radians 225) in
  [ tip;
    ((fst tip + 6 * cos (Py.radians 225 + 5 / 10))%R,
     (snd tip + 6 * sin (Py.radians 225 + 5 / 10))%R);
    ((fst tip + 6 * cos (Py.radians 225 - 5 / 10))%R,
     (snd tip + 6 * sin (Py.radians 225 - 5 / 10))%R) ].
Proof. reflexivity. Qed.

Ltac trig_bounds :=
  repeat match goal with
         | |- context [cos ?t] =>
             lazymatch goal with
             | _ : (-1 <= cos t <= 1)%R |- _ => fail
             | _ => pose proof (COS_bound t)
             end
         | |- context [sin ?t] =>
             lazymatch goal with
             | _ : (-1 <= sin t <= 1)%R |- _ => fail
             | _ => pose proof (SIN_bound t)
             end
         end.

Lemma sync_96_centre_clear : Forall (fun d => ~ reach d 48 48) (Sync.commands 96).
Proof.
  unfold Sync.commands. rewrite points_bottom_raw, head_top_96, head_bottom_96.
  unfold Sync.points_top.
  change (Sync.center 96) with 48. change (Sync.radius 96) with 28.
  change (Sync.inner_radius 96) with 16. change (Sync.arrow_width 96) with 4.
  repeat (apply Forall_app; split).
  - apply arc_clear; [ exact top_angles_step | change (Z.max 0 4) with 4; lra | lia ].
  - constructor; [ | constructor ]. apply clear_not_reach.
    apply head_clear with (h := 6%R); cbn [fst snd]; try lra; trig_bounds; lra.
  - apply arc_clear; [ exact bottom_angles_step | change (Z.max 0 4) with 4; lra | lia ].
  - constructor; [ | constructor ]. apply clear_not_reach.
    apply head_clear with (h := 6%R); cbn [fst snd]; try lra; trig_bounds; lra.
Qed.

(** *** Corners *)

Lemma boxed_inside (a b m lo hi : R) (d : Draw) :
  boxed a b m d -> (lo + m < a)%R -> (b < hi - m)%R -> inside d lo hi.
Proof.
  intros [HA Hm] Hlo Hhi. unfold inside. eapply Forall_impl; [ | exact HA ].
  intros p [Hx Hy]. cbv beta. lra.
Qed.

Lemma boxed_weaken (a b m a' b' m' : R) (d : Draw) :
  boxed a b m d -> (a' <= a)%R -> (b <= b')%R -> (m <= m')%R -> boxed a' b' m' d.
Proof.
  intros [HA Hm] Ha Hb Hm'. split; [ | lra ].
  eapply Forall_impl; [ | exact HA ]. intros p [Hx Hy]. unfold in_square. lra.
Qed.

Lemma corners_of_inside (P : Rasteriser) (ds : list Draw) (size : Z) :
  Forall (fun d => inside d 0 (IZR (size - 1))) ds ->
  corners_transparent (render P ds (blank size)).
Proof.
  intros H. unfold corners_transparent. rewrite render_width. cbn [cwidth blank].
  assert (G : forall x y, x <= 0 \/ size - 1 <= x \/ y <= 0 \/ size - 1 <= y ->
                          alpha (pix (render P ds (blank size)) x y) = 0).
  { intros x y Hxy. rewrite render_untouched; [ reflexivity | ].
    eapply Forall_impl; [ | exact H ]. intros d Hd.
    apply (inside_not_reach d 0 (size - 1)); assumption. }
  repeat split; apply G; lia.
Qed.

Lemma on_circle_in_square (c r : Z) (t : R) :
  0 <= r -> in_square (IZR (c - r)) (IZR (c + r)) (on_circle c r t).
Proof.
  intros Hr. apply IZR_le in Hr. unfold in_square, on_circle. cbn [fst snd].
  rewrite minus_IZR, plus_IZR.
  pose proof (COS_bound t). pose proof (SIN_bound t). nra.
Qed.

(** The strokes joining consecutive points of a list that keeps within a
    square. *)
Lemma arc_boxed (a b : R) (w : Z) (f : Color) (pts : list Point) :
  Forall (in_square a b) pts ->
  Forall (boxed a b (IZR (Z.max 0 w) + 1)) (Sync.arc pts f w).
Proof.
  intros H. unfold Sync.arc. apply Forall_map, Forall_forall.
  intros [p q] Hin. apply in_pairwise in Hin as [Hp Hq].
  rewrite Forall_forall in H. split.
  - cbn [line shape anchors fst snd]. forall2; auto.
  - cbn [line shape margin width]. lra.
Qed.

Lemma line_boxed (a b m : R) (p q : Point) (f : Color) (w : Z) :
  in_square a b p -> in_square a b q -> (IZR (Z.max 0 w) + 1 <= m)%R ->
  boxed a b m (line p q f w).
Proof. intros Hp Hq Hm. split; [ forall2; assumption | exact Hm ]. Qed.

Lemma ellipse_boxed (a b m x0 y0 x1 y1 : R) (f o : option Color) (w : Z) :
  in_square a b (x0, y0) -> in_square a b (x1, y1) -> (1 <= m)%R ->
  boxed a b m (ellipse x0 y0 x1 y1 f o w).
Proof. intros Hp Hq Hm. split; [ forall2; assumption | exact Hm ]. Qed.

Lemma rectangle_boxed (a b m x0 y0 x1 y1 : R) (f o : option Color) (w : Z) :
  in_square a b (x0, y0) -> in_square a b (x1, y1) -> (1 <= m)%R ->
  boxed a b m (rectangle x0 y0 x1 y1 f o w).
Proof. intros Hp Hq Hm. split; [ forall2; assumption | exact Hm ]. Qed.

Lemma rounded_rectangle_boxed (a b m x0 y0 x1 y1 : R) (r : Z) (f o : option Color) (w : Z) :
  in_square a b (x0, y0) -> in_square a b (x1, y1) -> (1 <= m)%R ->
  boxed a b m (rounded_rectangle x0 y0 x1 y1 r f o w).
Proof. intros Hp Hq Hm. split; [ forall2; assumption | exact Hm ]. Qed.

Lemma polygon_boxed (a b m : R) (pts : list Point) (f : Color) :
  Forall (in_square a b) pts -> (1 <= m)%R -> boxed a b m (polygon pts f).
Proof. intros Hp Hm. split; [ exact Hp | exact Hm ]. Qed.

Lemma text_boxed (a b m : R) (x y l t r bt : Z) (s : string) (f : Color) :
  in_square a b (IZR (x + l), IZR (y + t)) -> in_square a b (IZR (x + r), IZR (y + bt)) ->
  (1 <= m)%R -> boxed a b m (text x y s (l, t, r, bt) f).
Proof. intros Hp Hq Hm. split; [ forall2; assumption | exact Hm ]. Qed.

Lemma in_square_Z (a b x y : Z) :
  a <= x <= b -> a <= y <= b -> in_square (IZR a) (IZR b) (IZR x, IZR y).
Proof. intros [H1 H2] [H3 H4]. repeat split; apply IZR_le; assumption. Qed.

Section FiberBox.

Variable E : Env.
Variable size : Z.
Hypothesis size_nonneg : 0 <= size.
Hypothesis label_small : small_label E.
Hypothesis layout_ok : fiber_layout_ok size = true.

Let c := Fiber.center size.
Let r := Fiber.radius size.
Let lo := IZR (c - r).
Let hi := IZR (c + r).
Let m := IZR (1 + Z.max (Fiber.cable_width size) (Fiber.cross_width size)).

Lemma fiber_layout :
  (0 <= Fiber.inner_radius size <= r) /\ (0 <= Fiber.node_radius size <= r) /\
  (0 <= Fiber.point_radius size /\ 0 <= Fiber.point_size size /\
   Fiber.point_radius size + Fiber.point_size size <= r) /\
  (0 <= Fiber.line_length size <= r).
Proof.
  unfold fiber_layout_ok in layout_ok.
  rewrite !andb_true_iff, !Z.leb_le in layout_ok. fold r in layout_ok. tauto.
Qed.

Lemma fiber_m_ge_1 : (1 <= m)%R.
Proof. apply IZR_le. unfold Fiber.cable_width, Fiber.cross_width. lia. Qed.

Lemma fiber_cable_margin :
  (IZR (Z.max 0 (Fiber.cable_width size)) + 1 <= m)%R.
Proof.
  unfold m. rewrite plus_IZR.
  assert (IZR (Z.max 0 (Fiber.cable_width size))
          <= IZR (Z.max (Fiber.cable_width size) (Fiber.cross_width size)))%R
    by (apply IZR_le; unfold Fiber.cable_width, Fiber.cross_width; lia).
  lra.
Qed.

Lemma fiber_cross_margin :
  (IZR (Z.max 0 (Fiber.cross_width size)) + 1 <= m)%R.
Proof.
  unfold m. rewrite plus_IZR.
  assert (IZR (Z.max 0 (Fiber.cross_width size))
          <= IZR (Z.max (Fiber.cable_width size) (Fiber.cross_width size)))%R
    by (apply IZR_le; unfold Fiber.cable_width, Fiber.cross_width; lia).
  lra.
Qed.

Lemma fiber_disk_boxed (rho : Z) (f : Color) (o : option Color) (w : Z) :
  0 <= rho <= r -> boxed lo hi m (Fiber.disk size rho f o w).
Proof.
  intros [H0 H1]. unfold Fiber.disk. fold c.
  apply ellipse_boxed; [ | | apply fiber_m_ge_1 ]; apply in_square_Z; lia.
Qed.

Lemma fiber_glow_boxed : Forall (boxed lo hi m) (Fiber.glow size).
Proof.
  unfold Fiber.glow. rewrite range_down. rewrite map_map.
  apply Forall_map, Forall_forall. intros k Hk. apply in_seq in Hk.
  unfold Fiber.glow_ring. fold c. fold r.
  apply ellipse_boxed; [ | | apply fiber_m_ge_1 ]; apply in_square_Z; lia.
Qed.

Lemma linspace_unit (t : R) : In t (Py.linspace 0 1 20) -> (0 <= t <= 1)%R.
Proof.
  unfold Py.linspace. intros H. apply in_map_iff in H as (k & <- & Hk).
  apply in_seq in Hk. cbn [Nat.sub].
  assert (H0 : (0 <= INR k)%R) by apply pos_INR.
  assert (H1 : (INR k <= INR 19)%R) by (apply le_INR; lia).
  replace (INR 19) with 19%R in * by (simpl; lra).
  lra.
Qed.

Lemma spiral_point_in_square (a t : R) :
  (0 <= t <= 1)%R -> in_square lo hi (Fiber.spiral_point size a t).
Proof.
  intros Ht. unfold in_square, Fiber.spiral_point, lo, hi. cbn [fst snd]. fold c.
  rewrite minus_IZR, plus_IZR.
  assert (Hir : 0 <= Fiber.inner_radius size <= r) by apply fiber_layout.
  destruct Hir as [Hi0 Hi1]. apply IZR_le in Hi0, Hi1.
  set (ir := IZR (Fiber.inner_radius size)) in *.
  set (sr := (ir * (3 / 10) + t * ir * (4 / 10))%R).
  assert (Hsr : (0 <= sr <= IZR r)%R) by (unfold sr; nra).
  pose proof (COS_bound (a + t * PI * (3 / 2))). pose proof (SIN_bound (a + t * PI * (3 / 2))).
  nra.
Qed.

Lemma fiber_strand_boxed (angle_offset : Z) :
  Forall (boxed lo hi m) (Fiber.strand size angle_offset).
Proof.
  unfold Fiber.strand. apply Forall_map, Forall_forall.
  intros [i [p q]] Hin. apply in_combine_r in Hin. apply in_pairwise in Hin as [Hp Hq].
  assert (Hpts : forall x, In x (Fiber.strand_points size angle_offset) -> in_square lo hi x).
  { intros x Hx. unfold Fiber.strand_points in Hx.
    apply in_map_iff in Hx as (t & <- & Ht).
    apply spiral_point_in_square. now apply linspace_unit. }
  apply line_boxed; auto using fiber_cable_margin.
Qed.

Lemma fiber_strands_boxed : Forall (boxed lo hi m) (Fiber.strands size).
Proof.
  unfold Fiber.strands. apply Forall_flat_map, Forall_forall.
  intros a _. apply fiber_strand_boxed.
Qed.

Lemma fiber_connection_points_boxed :
  Forall (boxed lo hi m) (Fiber.connection_points size).
Proof.
  unfold Fiber.connection_points. apply Forall_map, Forall_forall. intros a _.
  assert (Hp : 0 <= Fiber.point_radius size /\ 0 <= Fiber.point_size size /\
               Fiber.point_radius size + Fiber.point_size size <= r) by apply fiber_layout.
  destruct Hp as (Hp0 & Hs0 & Hps). apply IZR_le in Hp0, Hs0, Hps. rewrite plus_IZR in Hps.
  unfold Fiber.connection_point. fold c.
  pose proof (COS_bound (Py.radians (IZR a))). pose proof (SIN_bound (Py.radians (IZR a))).
  apply ellipse_boxed; [ | | apply fiber_m_ge_1 ];
    unfold in_square, lo, hi; cbn [fst snd]; rewrite minus_IZR, plus_IZR; nra.
Qed.

Lemma fiber_label_step_boxed : Forall (boxed lo hi m) (Fiber.label_step E size).
Proof.
  unfold Fiber.label_step. destruct (128 <=? size) eqn:Hs; [ | constructor ].
  apply Z.leb_le in Hs.
  assert (Hr : 51 <= r) by (unfold r, Fiber.radius; zlia).
  unfold small_label in label_small.
  destruct (label_box E) as [[[[l t] rr] b] | ].
  - destruct label_small as (Hl & Hrr & Ht & Hb).
    unfold Fiber.label. fold c.
    forall2; (apply text_boxed; [ | | apply fiber_m_ge_1 ]); apply in_square_Z; zlia.
  - assert (Hll : 0 <= Fiber.line_length size <= r) by apply fiber_layout.
    destruct Hll as [Hl0 Hl1]. apply IZR_le in Hl0, Hl1.
    assert (Hr0 : (0 <= IZR r)%R) by (apply IZR_le; lia).
    unfold Fiber.cross. fold c.
    forall2; (apply line_boxed; [ | | apply fiber_cross_margin ]);
      unfold in_square, lo, hi; cbn [fst snd]; rewrite minus_IZR, plus_IZR; lra.
Qed.

Lemma fiber_commands_boxed : Forall (boxed lo hi m) (Fiber.commands E size).
Proof.
  assert (Hr : 0 <= r) by (unfold r, Fiber.radius; zlia).
  unfold Fiber.commands.
  apply Forall_app; split; [ apply fiber_glow_boxed | ].
  apply Forall_app; split.
  { forall2; apply fiber_disk_boxed; fold r; [ lia | apply fiber_layout ]. }
  apply Forall_app; split; [ apply fiber_strands_boxed | ].
  apply Forall_app; split.
  { apply Forall_cons; [ | apply Forall_nil ].
    apply fiber_disk_boxed. apply fiber_layout. }
  apply Forall_app; split;
    [ apply fiber_connection_points_boxed | apply fiber_label_step_boxed ].
Qed.

End FiberBox.

(** *** The corners of the icons the batch renders *)

Ltac zcalc := split; apply Z.leb_le; vm_compute; reflexivity.

Lemma boxed_corners (P : Rasteriser) (ds : list Draw) (size : Z) (a b m : R) :
  Forall (boxed a b m) ds -> (0 + m < a)%R -> (b < IZR (size - 1) - m)%R ->
  corners_transparent (render P ds (blank size)).
Proof.
  intros H Ha Hb. apply corners_of_inside.
  eapply Forall_impl; [ | exact H ]. intros d Hd.
  now apply (boxed_inside a b m).
Qed.

Lemma fiber_corners (P : Rasteriser) (E : Env) (size : Z) :
  small_label E -> In size sizes ->
  corners_transparent (render P (Fiber.commands E size) (blank size)).
Proof.
  intros HE Hin.
  assert (Hs : 0 <= size) by (unfold sizes in Hin; simpl in Hin; lia).
  eapply boxed_corners; [ apply (fiber_commands_boxed E size Hs HE);
      unfold sizes in Hin; simpl in Hin;
      repeat (destruct Hin as [<- | Hin]; [ vm_compute; reflexivity | ]); contradiction | | ];
    unfold sizes in Hin; simpl in Hin;
    repeat (destruct Hin as [<- | Hin]; [ eval_IZR; lra | ]); contradiction.
Qed.

Lemma capture_96_boxed : Forall (boxed 11 82 1) (Capture.commands 96).
Proof.
  unfold Capture.commands, Capture.body, Capture.viewfinder, Capture.disk.
  repeat apply Forall_cons; try apply Forall_nil;
    first [ apply rounded_rectangle_boxed | apply ellipse_boxed ];
    try lra; apply in_square_Z; zcalc.
Qed.

Lemma assignments_item_96_boxed (i : Z) :
  In i (Py.range 0 4 1) -> Forall (boxed 10 86 2) (Assignments.item 96 i).
Proof.
  intros Hi. vm_compute in Hi.
  unfold Assignments.item, Assignments.checkbox, Assignments.checkmark, Assignments.text_line.
  repeat (destruct Hi as [<- | Hi]; [ | ]); try contradiction;
    cbn [Z.ltb Z.compare Pos.compare Pos.compare_cont app];
    repeat apply Forall_cons; try apply Forall_nil;
    first [ apply rectangle_boxed; try lra; apply in_square_Z; zcalc
          | apply line_boxed; [ | | eval_IZR; lra ];
            unfold in_square; cbn [fst snd]; eval_IZR; lra ].
Qed.

Lemma assignments_96_boxed : Forall (boxed 10 86 2) (Assignments.commands 96).
Proof.
  unfold Assignments.commands. apply Forall_cons.
  - unfold Assignments.document. apply rounded_rectangle_boxed; try lra;
      apply in_square_Z; zcalc.
  - apply Forall_flat_map, Forall_forall. intros i Hi. now apply assignments_item_96_boxed.
Qed.

Lemma arc_points_in_square (c r : Z) (angles : list Z) :
  0 <= r ->
  Forall (in_square (IZR (c - r)) (IZR (c + r))) (map (Sync.arc_point c r) angles).
Proof.
  intros Hr. apply Forall_map, Forall_forall. intros a _.
  rewrite arc_point_on_circle. now apply on_circle_in_square.
Qed.

(** A point within [h] of a point of the square [[a, b]] lies in the square
    widened by [h]. *)
Lemma in_square_near (a b h : R) (p q : Point) :
  in_square a b p ->
  (fst p - h <= fst q <= fst p + h)%R -> (snd p - h <= snd q <= snd p + h)%R ->
  in_square (a - h) (b + h) q.
Proof. unfold in_square. intros [Hx Hy] Hqx Hqy. lra. Qed.

Lemma sync_96_boxed : Forall (boxed 14 82 5) (Sync.commands 96).
Proof.
  unfold Sync.commands. rewrite points_bottom_raw, head_top_96, head_bottom_96.
  unfold Sync.points_top.
  change (Sync.center 96) with 48. change (Sync.radius 96) with 28.
  change (Sync.inner_radius 96) with 16. change (Sync.arrow_width 96) with 4.
  pose proof (on_circle_in_square 48 28 (Py.radians 310) ltac:(lia)) as Htop.
  pose proof (on_circle_in_square 48 16 (Py.radians 225) ltac:(lia)) as Hbot.
  change (IZR (48 - 28)) with 20%R in Htop. change (IZR (48 + 28)) with 76%R in Htop.
  change (IZR (48 - 16)) with 32%R in Hbot. change (IZR (48 + 16)) with 64%R in Hbot.
  apply Forall_app; split.
  { eapply Forall_impl; [ | apply arc_boxed, (arc_points_in_square 48 28); lia ].
    intros d Hd. apply (boxed_weaken _ _ _ _ _ _ _ Hd); eval_IZR; lra. }
  apply Forall_app; split.
  { apply Forall_cons; [ | apply Forall_nil ]. cbv zeta.
    apply polygon_boxed; [ | lra ].
    forall3.
    - unfold in_square in *. lra.
    - replace 14%R with (20 - 6)%R by lra. replace 82%R with (76 + 6)%R by lra.
      apply (in_square_near _ _ _ _ _ Htop); cbn [fst snd]; trig_bounds; lra.
    - replace 14%R with (20 - 6)%R by lra. replace 82%R with (76 + 6)%R by lra.
      apply (in_square_near _ _ _ _ _ Htop); cbn [fst snd]; trig_bounds; lra. }
  apply Forall_app; split.
  { eapply Forall_impl; [ | apply arc_boxed, (arc_points_in_square 48 16); lia ].
    intros d Hd. apply (boxed_weaken _ _ _ _ _ _ _ Hd); eval_IZR; lra. }
  apply Forall_cons; [ | apply Forall_nil ]. cbv zeta.
  apply polygon_boxed; [ | lra ].
  forall3.
  - unfold in_square in *. lra.
  - replace 14%R with (20 - 6)%R by lra. replace 82%R with (76 + 6)%R by lra.
    apply (in_square_near 20 76 6 (on_circle 48 16 (Py.radians 225)));
      [ unfold in_square in *; lra | | ]; cbn [fst snd]; trig_bounds; lra.
  - replace 14%R with (20 - 6)%R by lra. replace 82%R with (76 + 6)%R by lra.
    apply (in_square_near 20 76 6 (on_circle 48 16 (Py.radians 225)));
      [ unfold in_square in *; lra | | ]; cbn [fst snd]; trig_bounds; lra.
Qed.

Lemma sync_96_centre (P : Rasteriser) :
  pix (render P (Sync.commands 96) (blank 96)) 48 48 = transparent_black.
Proof. rewrite render_untouched; [ reflexivity | exact sync_96_centre_clear ]. Qed.


Lemma boxed_keeps_off (ds : list Draw) (size : Z) (a b m : R) :
  Forall (boxed a b m) ds -> (0 + m < a)%R -> (b < IZR (size - 1) - m)%R ->
  keeps_off_corners ds size.
Proof.
  intros H Ha Hb. unfold keeps_off_corners.
  eapply Forall_impl; [ | exact H ]. intros d Hd. now apply (boxed_inside a b m).
Qed.

Lemma fiber_keeps_off (E : Env) (size : Z) :
  small_label E -> In size sizes -> keeps_off_corners (Fiber.commands E size) size.
Proof.
  intros HE Hin.
  assert (Hs : 0 <= size) by (unfold sizes in Hin; simpl in Hin; lia).
  eapply boxed_keeps_off; [ apply (fiber_commands_boxed E size Hs HE);
      unfold sizes in Hin; simpl in Hin;
      repeat (destruct Hin as [<- | Hin]; [ vm_compute; reflexivity | ]); contradiction | | ];
    unfold sizes in Hin; simpl in Hin;
    repeat (destruct Hin as [<- | Hin]; [ eval_IZR; lra | ]); contradiction.
Qed.

(** C10: for every size of the size matrix the primary icon, and at size 96
    each of the three shortcut icons, is returned with its four corner pixels
    fully transparent, every call of the composer lying strictly inside the
    square that excludes them.  The label, where drawn, is assumed to have a
    box of at most 48 by 48 pixels. *)
Theorem corners_stay_transparent (P : Rasteriser) (E : Env) :
  small_label E ->
  (forall size, In size sizes ->
     keeps_off_corners (Fiber.commands E size) size /\
     exists img, create_fiber_icon P E size = Ok img /\ corners_transparent img) /\
  (keeps_off_corners (Capture.commands 96) 96 /\
   exists img, create_capture_icon P 96 = Ok img /\ corners_transparent img) /\
  (keeps_off_corners (Assignments.commands 96) 96 /\
   exists img, create_assignments_icon P 96 = Ok img /\ corners_transparent img) /\
  (keeps_off_corners (Sync.commands 96) 96 /\
   exists img, create_sync_icon P 96 = Ok img /\ corners_transparent img).
Proof.
  intros HE. split; [ | split; [ | split ] ].
  - intros size Hin. split; [ now apply fiber_keeps_off | ].
    unfold create_fiber_icon. rewrite compose_ok by (unfold sizes in Hin; simpl in Hin; lia).
    eexists. split; [ reflexivity | ]. now apply fiber_corners.
  - split; [ apply (boxed_keeps_off _ _ _ _ _ capture_96_boxed); eval_IZR; lra | ].
    unfold create_capture_icon. rewrite compose_ok by lia.
    eexists. split; [ reflexivity | ].
    apply (boxed_corners _ _ _ _ _ _ capture_96_boxed); eval_IZR; lra.
  - split; [ apply (boxed_keeps_off _ _ _ _ _ assignments_96_boxed); eval_IZR; lra | ].
    unfold create_assignments_icon. rewrite compose_ok by lia.
    eexists. split; [ reflexivity | ].
    apply (boxed_corners _ _ _ _ _ _ assignments_96_boxed); eval_IZR; lra.
  - split; [ apply (boxed_keeps_off _ _ _ _ _ sync_96_boxed); eval_IZR; lra | ].
    unfold create_sync_icon. rewrite compose_ok by lia.
    eexists. split; [ reflexivity | ].
    apply (boxed_corners _ _ _ _ _ _ sync_96_boxed); eval_IZR; lra.
Qed.

Lemma corners_stay_transparent_witness :
  (forall size, In size sizes ->
     keeps_off_corners (Fiber.commands windows_env size) size /\
     exists img, create_fiber_icon box_rasteriser windows_env size = Ok img /\
                 corners_transparent img) /\
  (keeps_off_corners (Capture.commands 96) 96 /\
   exists img, create_capture_icon box_rasteriser 96 = Ok img /\ corners_transparent img) /\
  (keeps_off_corners (Assignments.commands 96) 96 /\
   exists img, create_assignments_icon box_rasteriser 96 = Ok img /\ corners_transparent img) /\
  (keeps_off_corners (Sync.commands 96) 96 /\
   exists img, create_sync_icon box_rasteriser 96 = Ok img /\ corners_transparent img).
Proof.
  apply (corners_stay_transparent box_rasteriser windows_env).
  unfold small_label, windows_env. cbn [label_box]. lia.
Defined.

(** *** Sampled curves *)

Lemma on_circle_dist (c r : Z) (t : R) :
  0 <= r -> dist (on_circle c r t) (IZR c, IZR c) = IZR r.
Proof.
  intros Hr. apply IZR_le in Hr. unfold dist, on_circle. cbn [fst snd].
  replace ((IZR c + IZR r * cos t - IZR c) * (IZR c + IZR r * cos t - IZR c)
           + (IZR c + IZR r * sin t - IZR c) * (IZR c + IZR r * sin t - IZR c))%R
    with (IZR r * IZR r * ((sin t)² + (cos t)²))%R by (unfold Rsqr; ring).
  rewrite sin2_cos2, Rmult_1_r. now apply sqrt_square.
Qed.

Lemma length_range (start stop step : Z) :
  List.length (Py.range start stop step) = Z.to_nat (Py.range_len start stop step).
Proof. unfold Py.range. now rewrite length_map, length_seq. Qed.



Lemma length_linspace (a b : R) (n : nat) : List.length (Py.linspace a b n) = n.
Proof. unfold Py.linspace. now rewrite length_map, length_seq. Qed.


(** *** The label of the primary icon *)



(** *** The sync glyph *)

Lemma polygons_app (ds1 ds2 : list Draw) :
  polygons (ds1 ++ ds2) = polygons ds1 ++ polygons ds2.
Proof. apply flat_map_app. Qed.

Lemma polygons_arc (pts : list Point) (f : Color) (w : Z) : polygons (Sync.arc pts f w) = [].
Proof.
  unfold Sync.arc, polygons. induction (Py.pairwise pts) as [ | pq l IH]; [ reflexivity | ].
  simpl. exact IH.
Qed.


(** *** How the quantities of a composer depend on the size *)


Lemma fractions_ok_checked : all_from fractions_ok 0 4097 = true.
Proof. vm_compute. reflexivity. Qed.

Lemma fractions_ok_range (size : Z) :
  0 <= size <= max_checked_size -> fractions_ok size = true.
Proof.
  intros H. apply (all_from_spec fractions_ok 4097 0); [ exact fractions_ok_checked | ].
  unfold max_checked_size in H. lia.
Qed.



(** ** What a composer returns *)

Lemma create_icon_commands (P : Rasteriser) (E : Env) (k : IconKind) (size : Z) :
  create_icon P E k size = compose P size (commands_of E k size).
Proof. destruct k; reflexivity. Qed.


Lemma spans_ok_checked : all_from spans_ok 0 4097 = true.
Proof. vm_compute. reflexivity. Qed.

Lemma spans_ok_range (size : Z) : 0 <= size <= max_checked_size -> spans_ok size = true.
Proof.
  intros H. apply (all_from_spec spans_ok 4097 0); [ exact spans_ok_checked | ].
  unfold max_checked_size in H. lia.
Qed.

Lemma in_range_up (a b i : Z) : In i (Py.range a b 1) -> a <= i < b.
Proof.
  unfold Py.range. intros H. apply in_map_iff in H as (k & <- & Hk).
  apply in_seq in Hk. unfold Py.range_len in Hk.
  change (0 <? 1) with true in Hk. cbv iota in Hk.
  destruct (a <? b) eqn:Hab; [ | simpl in Hk; lia ].
  rewrite Z.div_1_r in Hk. lia.
Qed.

Lemma in_range_down (n i : Z) : In i (Py.range n 0 (-1)) -> 1 <= i <= n.
Proof.
  rewrite range_down. intros H. apply in_map_iff in H as (k & <- & Hk).
  apply in_seq in Hk. lia.
Qed.

Lemma proper_disk (c r : Z) (f o : option Color) (w : Z) :
  0 <= r -> proper_box (ellipse (IZR (c - r)) (IZR (c - r)) (IZR (c + r)) (IZR (c + r)) f o w).
Proof. intros H. split; apply IZR_le; lia. Qed.

Lemma proper_span (x y w h r : Z) (f o : option Color) (wd : Z) :
  0 <= w -> 0 <= h ->
  proper_box (rounded_rectangle (IZR x) (IZR y) (IZR (x + w)) (IZR (y + h)) r f o wd).
Proof. intros Hw Hh. split; apply IZR_le; lia. Qed.

(** X2: at every size from 0 to 4096 no composer hands Pillow a box whose
    corners are the wrong way round: every ellipse, rectangle and rounded
    rectangle has [x0 <= x1] and [y0 <= y1]. *)
Theorem boxes_well_formed (E : Env) (k : IconKind) (size : Z) :
  0 <= size <= max_checked_size -> Forall proper_box (commands_of E k size).
Proof.
  intros Hs. pose proof (spans_ok_range size Hs) as Hok.
  unfold spans_ok in Hok. rewrite !andb_true_iff, !Z.leb_le in Hok.
  destruct Hok as (((((((((((F1 & F2) & F3) & C1) & C2) & C3) & C4) & C5) & C6) & A1) & A2) & A3).
  destruct Hs as [Hs _].
  assert (Hr : 0 <= Fiber.radius size) by (unfold Fiber.radius; zlia).
  destruct k; cbn [commands_of].
  - unfold Fiber.commands.
    apply Forall_app; split; [ | apply Forall_app; split;
      [ | apply Forall_app; split; [ | apply Forall_app; split;
        [ | apply Forall_app; split ] ] ] ].
    + unfold Fiber.glow. apply Forall_map, Forall_forall. intros i Hi.
      apply in_range_down in Hi. apply proper_disk. lia.
    + forall2; now apply proper_disk.
    + unfold Fiber.strands. apply Forall_flat_map, Forall_forall. intros a _.
      unfold Fiber.strand. apply Forall_map, Forall_forall. intros [i [p q]] _. exact I.
    + constructor; [ | constructor ]. now apply proper_disk.
    + unfold Fiber.connection_points. apply Forall_map, Forall_forall. intros a _.
      apply IZR_le in F3. split; cbn [shape Fiber.connection_point ellipse]; lra.
    + unfold Fiber.label_step. destruct (128 <=? size); [ | constructor ].
      destruct (label_box E) as [[[[l t] r] b] | ]; forall2; exact I.
  - unfold Capture.commands.
    repeat apply Forall_cons; try apply Forall_nil;
      first [ now apply proper_span | now apply proper_disk ].
  - unfold Assignments.commands. apply Forall_cons.
    + now apply proper_span.
    + apply Forall_flat_map, Forall_forall. intros i _.
      assert (Hc : 0 <= Assignments.checkbox_size size)
        by (unfold Assignments.checkbox_size; zlia).
      unfold Assignments.item. repeat (apply Forall_app; split).
      * constructor; [ | constructor ]. split; apply IZR_le; lia.
      * destruct (i <? 2); [ forall2; exact I | constructor ].
      * constructor; [ | constructor ]. split; apply IZR_le; lia.
  - unfold Sync.commands, Sync.arc.
    repeat (apply Forall_app; split);
      first [ apply Forall_map, Forall_forall; intros pq _; exact I
            | constructor; [ exact I | constructor ] ].
Qed.

Lemma boxes_well_formed_witness : Forall proper_box (commands_of windows_env CaptureIcon 96).
Proof. apply boxes_well_formed. unfold max_checked_size. lia. Defined.

(** ** The glow of the primary icon *)

Lemma glow_alpha_ring (size i : Z) : Fiber.glow_alpha size i = ring_alpha (Fiber.radius size) i.
Proof. reflexivity. Qed.

(** X3: the glow loop draws one ring for each [i] from the radius down to 1,
    in that order, so that the quotient [i / radius] is only ever computed with
    a radius of at least 1; it draws nothing when the size is below 3; and the
    box of every ring lies within the box of the main disc, which is drawn
    next. *)
Theorem glow_rings (size : Z) :
  let c := Fiber.center size in
  let r := Fiber.radius size in
  Fiber.glow size = map (fun k => Fiber.glow_ring size (r - Z.of_nat k)) (seq 0 (Z.to_nat r)) /\
  List.length (Fiber.glow size) = Z.to_nat r /\
  (forall d, In d (Fiber.glow size) ->
     exists i, 1 <= i <= r /\ d = Fiber.glow_ring size i /\
               within_box (IZR (c - r)) (IZR (c - r)) (IZR (c + r)) (IZR (c + r)) d) /\
  (Fiber.glow size = [] <-> size < 3).
Proof.
  intros c r.
  assert (Hg : Fiber.glow size
               = map (fun k => Fiber.glow_ring size (r - Z.of_nat k)) (seq 0 (Z.to_nat r))).
  { unfold Fiber.glow. fold r. now rewrite range_down, map_map. }
  split; [ exact Hg | ]. split; [ | split ].
  - now rewrite Hg, length_map, length_seq.
  - intros d Hd. unfold Fiber.glow in Hd. apply in_map_iff in Hd as (i & <- & Hi).
    apply in_range_down in Hi. fold r in Hi. exists i. split; [ exact Hi | ].
    split; [ reflexivity | ].
    unfold within_box, Fiber.glow_ring. fold c. cbn [ellipse shape anchors].
    forall2; cbn [fst snd]; repeat split; apply IZR_le; lia.
  - rewrite Hg. destruct (Z.to_nat r) eqn:Hn; simpl.
    + split; [ intros _ | reflexivity ]. unfold r, Fiber.radius in Hn. zlia.
    + split; [ discriminate | ]. intros Hs. unfold r, Fiber.radius in Hn. zlia.
Qed.

Lemma ring_alphas_checked : all_from ring_alphas_ok 1 204 = true.
Proof. vm_compute. reflexivity. Qed.

Lemma in_range_up_iff (a b i : Z) : a <= i < b -> In i (Py.range a b 1).
Proof.
  intros H. unfold Py.range. apply in_map_iff. exists (Z.to_nat (i - a)).
  split; [ lia | ]. apply in_seq. unfold Py.range_len.
  change (0 <? 1) with true. cbv iota.
  destruct (a <? b) eqn:Hab; [ | lia ]. rewrite Z.div_1_r. lia.
Qed.

(** X4: at every size up to 512, the largest the script renders, the alpha
    of a ring of the glow lies between 0 and 25: it is 0 for the outermost
    ring and does not decrease from a ring to the next one inside it. *)
Theorem glow_alpha_bounds (size i : Z) :
  0 <= size <= max_rendered_size -> 1 <= i <= Fiber.radius size ->
  0 <= Fiber.glow_alpha size i <= 25 /\
  Fiber.glow_alpha size (Fiber.radius size) = 0 /\
  (i < Fiber.radius size -> Fiber.glow_alpha size (i + 1) <= Fiber.glow_alpha size i).
Proof.
  intros Hs Hi. rewrite !glow_alpha_ring.
  set (r := Fiber.radius size) in *.
  assert (Hr : 1 <= r < 1 + Z.of_nat 204).
  { unfold r, Fiber.radius, max_rendered_size in *. zlia. }
  pose proof (all_from_spec ring_alphas_ok 204 1 r ring_alphas_checked Hr) as Hok.
  unfold ring_alphas_ok in Hok. apply andb_prop in Hok as [H0 Hall].
  apply Z.eqb_eq in H0. rewrite forallb_forall in Hall.
  assert (Hstep : forall j, 1 <= j < r ->
            0 <= ring_alpha r (j + 1) /\ ring_alpha r (j + 1) <= ring_alpha r j
            /\ ring_alpha r j <= 25).
  { intros j Hj. specialize (Hall j (in_range_up_iff 1 r j Hj)).
    rewrite !andb_true_iff, !Z.leb_le in Hall. tauto. }
  split; [ | split; [ exact H0 | ] ].
  - destruct (Z.eq_dec i r) as [-> | Hne]; [ rewrite H0; lia | ].
    destruct (Hstep i ltac:(lia)) as (Ha & Hb & Hc). lia.
  - intros Hlt. now apply Hstep.
Qed.

Lemma glow_alpha_bounds_witness :
  0 <= Fiber.glow_alpha 72 1 <= 25 /\
  Fiber.glow_alpha 72 (Fiber.radius 72) = 0 /\
  (1 < Fiber.radius 72 -> Fiber.glow_alpha 72 (1 + 1) <= Fiber.glow_alpha 72 1).
Proof.
  apply (glow_alpha_bounds 72 1).
  - unfold max_rendered_size. lia.
  - split; [ lia | ]. apply Z.leb_le. vm_compute. reflexivity.
Defined.

(** ** The strands of the primary icon *)

Lemma map_snd_combine {A B} (l1 : list A) (l2 : list B) :
  (List.length l2 <= List.length l1)%nat -> map snd (combine l1 l2) = l2.
Proof.
  revert l2. induction l1 as [ | a l1 IH]; intros [ | b l2] H; simpl in *;
    try reflexivity; try lia.
  f_equal. apply IH. lia.
Qed.

Lemma map_fst_combine {A B} (l1 : list A) (l2 : list B) :
  (List.length l1 <= List.length l2)%nat -> map fst (combine l1 l2) = l1.
Proof.
  revert l2. induction l1 as [ | a l1 IH]; intros [ | b l2] H; simpl in *;
    try reflexivity; try lia.
  f_equal. apply IH. lia.
Qed.

Lemma length_pairwise {A} (l : list A) : List.length (Py.pairwise l) = Nat.pred (List.length l).
Proof.
  unfold Py.pairwise. rewrite length_combine.
  destruct l; cbn [tl List.length Nat.pred]; [ reflexivity | apply Nat.min_r; lia ].
Qed.

Lemma length_strand_points (size a : Z) : List.length (Fiber.strand_points size a) = 20%nat.
Proof. unfold Fiber.strand_points. now rewrite length_map, length_linspace. Qed.

Lemma strand_unfold (size a : Z) :
  Fiber.strand size a =
  map (fun ipq : Z * (Point * Point) =>
         line (fst (snd ipq)) (snd (snd ipq))
              (with_alpha light_blue (Fiber.strand_alpha 20 (fst ipq)))
              (Fiber.cable_width size))
      (combine (Py.range 0 19 1) (Py.pairwise (Fiber.strand_points size a))).
Proof.
  unfold Fiber.strand. rewrite length_strand_points.
  change (Z.of_nat 20 - 1) with 19. change (Z.of_nat 20) with 20.
  apply map_ext. intros [i [p q]]. reflexivity.
Qed.

Lemma length_range_19 : List.length (Py.range 0 19 1) = 19%nat.
Proof. reflexivity. Qed.

(** X5: a strand is stroked as 19 segments that join its 20 points in
    order, each starting where the one before ended, all of the cable's width;
    their alpha falls from 204 at the first to 20 at the last, at every size
    (the test [i < len(points) - 1] in the loop is always true). *)
Theorem strand_segments (size a : Z) :
  map shape (Fiber.strand size a)
  = map (fun pq => Line (fst pq) (snd pq)) (Py.pairwise (Fiber.strand_points size a)) /\
  List.length (Fiber.strand size a) = 19%nat /\
  map fill_alpha (Fiber.strand size a)
  = [204; 193; 183; 173; 163; 153; 142; 132; 122; 112; 102; 91; 81; 71; 61; 51; 40; 30; 20] /\
  Forall (fun d => width d = Fiber.cable_width size) (Fiber.strand size a).
Proof.
  assert (Hlen : List.length (Py.pairwise (Fiber.strand_points size a)) = 19%nat)
    by (now rewrite length_pairwise, length_strand_points).
  rewrite strand_unfold. split; [ | split; [ | split ] ].
  - rewrite map_map. cbn [line shape].
    rewrite <- (map_map snd (fun pq : Point * Point => Line (fst pq) (snd pq))).
    rewrite map_snd_combine; [ reflexivity | ]. rewrite Hlen, length_range_19. lia.
  - now rewrite length_map, length_combine, Hlen, length_range_19.
  - rewrite map_map. unfold fill_alpha. cbn [line fill with_alpha light_blue alpha].
    rewrite <- (map_map fst (Fiber.strand_alpha 20)).
    rewrite map_fst_combine by (rewrite Hlen, length_range_19; lia).
    vm_compute. reflexivity.
  - apply Forall_map, Forall_forall. intros ipq _. reflexivity.
Qed.

Lemma radians_plus (a b : Z) :
  Py.radians (IZR (a + b)) = (Py.radians (IZR a) + Py.radians (IZR b))%R.
Proof. unfold Py.radians. rewrite plus_IZR. field. Qed.

(** X6: the strand that starts at [a + b] degrees is the strand that starts
    at [a] degrees turned by [b] degrees about the centre; so the six strands
    are one strand turned by the multiples of 60 degrees. *)
Theorem strands_rotated (size : Z) :
  let c := (IZR (Fiber.center size), IZR (Fiber.center size)) in
  (forall a b, Fiber.strand_points size (a + b)
               = map (rotate c (Py.radians (IZR b))) (Fiber.strand_points size a)) /\
  map (Fiber.strand_points size) [0; 60; 120; 180; 240; 300]
  = map (fun k => map (rotate c (Py.radians (IZR (60 * k)))) (Fiber.strand_points size 0))
        [0; 1; 2; 3; 4; 5].
Proof.
  intros c.
  assert (H : forall a b, Fiber.strand_points size (a + b)
               = map (rotate c (Py.radians (IZR b))) (Fiber.strand_points size a)).
  { intros a b. unfold Fiber.strand_points. rewrite map_map. apply map_ext. intros t.
    unfold Fiber.spiral_point, rotate, c. cbn [fst snd]. rewrite radians_plus.
    set (u := Py.radians (IZR a)). set (v := Py.radians (IZR b)).
    replace (u + v + t * PI * (3 / 2))%R with ((u + t * PI * (3 / 2)) + v)%R by ring.
    set (s := (u + t * PI * (3 / 2))%R).
    rewrite (cos_plus s v), (sin_plus s v). f_equal; ring. }
  split; [ exact H | ].
  cbn [map]. repeat f_equal; apply (H 0).
Qed.

Lemma dist_from_squares (p q : Point) (s : R) :
  (0 <= s)%R ->
  ((fst p - fst q) * (fst p - fst q) + (snd p - snd q) * (snd p - snd q) = s * s)%R ->
  dist p q = s.
Proof. intros Hs H. unfold dist. rewrite H. now apply sqrt_square. Qed.

Lemma spiral_point_dist (size : Z) (a t : R) :
  0 <= Fiber.inner_radius size -> (0 <= t)%R ->
  dist (Fiber.spiral_point size a t) (IZR (Fiber.center size), IZR (Fiber.center size))
  = (IZR (Fiber.inner_radius size) * (3 / 10) + t * IZR (Fiber.inner_radius size) * (4 / 10))%R.
Proof.
  intros Hi Ht. apply IZR_le in Hi. apply dist_from_squares; [ nra | ].
  unfold Fiber.spiral_point. cbn [fst snd].
  set (s := (IZR (Fiber.inner_radius size) * (3 / 10)
             + t * IZR (Fiber.inner_radius size) * (4 / 10))%R).
  set (u := (a + t * PI * (3 / 2))%R).
  pose proof (sin2_cos2 u) as H. unfold Rsqr in H.
  replace ((IZR (Fiber.center size) + s * cos u - IZR (Fiber.center size))
           * (IZR (Fiber.center size) + s * cos u - IZR (Fiber.center size))
           + (IZR (Fiber.center size) + s * sin u - IZR (Fiber.center size))
             * (IZR (Fiber.center size) + s * sin u - IZR (Fiber.center size)))%R
    with (s * s * (sin u * sin u + cos u * cos u))%R by ring.
  rewrite H. ring.
Qed.

Lemma fiber_layout_checked : all_from fiber_layout_ok 0 4097 = true.
Proof. vm_compute. reflexivity. Qed.

Lemma fiber_layout_range (size : Z) :
  0 <= size <= max_checked_size -> fiber_layout_ok size = true.
Proof.
  intros H. apply (all_from_spec fiber_layout_ok 4097 0); [ exact fiber_layout_checked | ].
  unfold max_checked_size in H. lia.
Qed.

(** X7: at every size from 0 to 4096 each point of a strand lies between
    0.3 and 0.7 of the inner radius from the centre; the strand starts at 0.3
    of it and ends at 0.7 of it. *)
Theorem strand_radii (size a : Z) :
  0 <= size <= max_checked_size ->
  let c := (IZR (Fiber.center size), IZR (Fiber.center size)) in
  let ir := IZR (Fiber.inner_radius size) in
  (forall p, In p (Fiber.strand_points size a) ->
             (ir * (3 / 10) <= dist p c <= ir * (7 / 10))%R) /\
  dist (hd c (Fiber.strand_points size a)) c = (ir * (3 / 10))%R /\
  dist (last (Fiber.strand_points size a) c) c = (ir * (7 / 10))%R.
Proof.
  intros Hs c ir.
  assert (Hi : 0 <= Fiber.inner_radius size).
  { pose proof (fiber_layout_range size Hs) as H. unfold fiber_layout_ok in H.
    rewrite !andb_true_iff, !Z.leb_le in H. tauto. }
  assert (Hir : (0 <= ir)%R) by (now apply IZR_le).
  split; [ | split ].
  - intros p Hp. unfold Fiber.strand_points in Hp. apply in_map_iff in Hp as (t & <- & Ht).
    apply (linspace_unit size) in Ht. unfold c. rewrite spiral_point_dist by (assumption || lra).
    fold ir. nra.
  - change (hd c (Fiber.strand_points size a))
      with (Fiber.spiral_point size (Py.radians (IZR a)) (0 + INR 0 * ((1 - 0) / INR (20 - 1)))).
    unfold c. rewrite spiral_point_dist by (assumption || (simpl INR; lra)).
    fold ir. simpl INR. lra.
  - change (last (Fiber.strand_points size a) c)
      with (Fiber.spiral_point size (Py.radians (IZR a)) (0 + INR 19 * ((1 - 0) / INR (20 - 1)))).
    assert (Ht : (0 + INR 19 * ((1 - 0) / INR (20 - 1)) = 1)%R) by (simpl; field).
    unfold c. rewrite Ht, spiral_point_dist by (assumption || lra).
    fold ir. lra.
Qed.

Lemma strand_radii_witness :
  let c := (IZR (Fiber.center 96), IZR (Fiber.center 96)) in
  dist (hd c (Fiber.strand_points 96 60)) c = (IZR (Fiber.inner_radius 96) * (3 / 10))%R.
Proof.
  intros c.
  assert (H : 0 <= 96 <= max_checked_size) by (unfold max_checked_size; lia).
  exact (proj1 (proj2 (strand_radii 96 60 H))).
Defined.

(** ** Where a composer can paint *)

Lemma confined_untouched (P : Rasteriser) (ds : list Draw) (size x0 y0 x1 y1 x y : Z) :
  confined ds x0 y0 x1 y1 -> x < x0 \/ x1 < x \/ y < y0 \/ y1 < y ->
  pix (render P ds (blank size)) x y = transparent_black.
Proof. intros Hc Hxy. rewrite render_untouched; [ reflexivity | now apply Hc ]. Qed.

Lemma within_not_reach (d : Draw) (x0 y0 x1 y1 : R) (x y : Z) :
  within_box x0 y0 x1 y1 d ->
  (IZR x < x0 - margin d \/ x1 + margin d < IZR x \/
   IZR y < y0 - margin d \/ y1 + margin d < IZR y)%R ->
  ~ reach d x y.
Proof.
  unfold within_box. intros H Hxy. apply clear_not_reach. unfold clear_of.
  destruct Hxy as [Hxy | [Hxy | [Hxy | Hxy]]].
  - left. eapply Forall_impl; [ | exact H ]. cbv beta. intros a Ha. lra.
  - right; left. eapply Forall_impl; [ | exact H ]. cbv beta. intros a Ha. lra.
  - right; right; left. eapply Forall_impl; [ | exact H ]. cbv beta. intros a Ha. lra.
  - right; right; right. eapply Forall_impl; [ | exact H ]. cbv beta. intros a Ha. lra.
Qed.

Lemma within_confined (ds : list Draw) (x0 y0 x1 y1 m : Z) :
  Forall (fun d => within_box (IZR x0) (IZR y0) (IZR x1) (IZR y1) d /\ (margin d <= IZR m)%R) ds ->
  confined ds (x0 - m) (y0 - m) (x1 + m) (y1 + m).
Proof.
  intros H x y Hxy. eapply Forall_impl; [ | exact H ]. cbv beta. intros d [Hd Hm].
  apply (within_not_reach d _ _ _ _ x y Hd).
  destruct Hxy as [Hxy | [Hxy | [Hxy | Hxy]]]; apply IZR_lt in Hxy;
    rewrite ?minus_IZR, ?plus_IZR in Hxy; lra.
Qed.

Lemma boxed_within (a b m : R) (d : Draw) :
  boxed a b m d -> within_box a a b b d /\ (margin d <= m)%R.
Proof. intros [H Hm]. split; [ exact H | exact Hm ]. Qed.

Lemma within_weaken (x0 y0 x1 y1 x0' y0' x1' y1' : R) (d : Draw) :
  within_box x0 y0 x1 y1 d ->
  (x0' <= x0)%R -> (y0' <= y0)%R -> (x1 <= x1')%R -> (y1 <= y1')%R ->
  within_box x0' y0' x1' y1' d.
Proof.
  unfold within_box. intros H H1 H2 H3 H4.
  eapply Forall_impl; [ | exact H ]. cbv beta. intros a Ha. lra.
Qed.

Lemma within_Z (x0 y0 x1 y1 a b c d : Z) (s : Shape) (f o : option Color) (w : Z) :
  anchors s = [(IZR a, IZR b); (IZR c, IZR d)] ->
  x0 <= a <= x1 -> y0 <= b <= y1 -> x0 <= c <= x1 -> y0 <= d <= y1 ->
  within_box (IZR x0) (IZR y0) (IZR x1) (IZR y1) (mkDraw s f o w).
Proof.
  intros Hs [A1 A2] [B1 B2] [C1 C2] [D1 D2]. unfold within_box. cbn [shape]. rewrite Hs.
  forall2; cbn [fst snd]; repeat split; now apply IZR_le.
Qed.

Lemma closed_margin (d : Draw) : is_line d = false -> margin d = 1%R.
Proof. unfold is_line, margin. destruct (shape d); intros H; (reflexivity || discriminate). Qed.

Lemma fiber_confined (E : Env) (size : Z) :
  small_label E -> 0 <= size <= max_checked_size ->
  let c := Fiber.center size in
  let h := Fiber.radius size + Fiber.cross_width size + 1 in
  confined (Fiber.commands E size) (c - h) (c - h) (c + h) (c + h).
Proof.
  intros HE Hs c h.
  pose proof (fiber_commands_boxed E size (proj1 Hs) HE (fiber_layout_range size Hs)) as Hb.
  assert (Hm : 1 + Z.max (Fiber.cable_width size) (Fiber.cross_width size)
               = Fiber.cross_width size + 1)
    by (unfold Fiber.cable_width, Fiber.cross_width; zlia).
  rewrite Hm in Hb.
  replace (c - h) with (c - Fiber.radius size - (Fiber.cross_width size + 1)) by (unfold h; lia).
  replace (c + h) with (c + Fiber.radius size + (Fiber.cross_width size + 1)) by (unfold h; lia).
  apply within_confined. eapply Forall_impl; [ | exact Hb ].
  intros d Hd. now apply boxed_within.
Qed.

(** X10: at every size from 0 to 4096 the primary icon paints only within the
    square about the centre whose half side is the radius, the width of the
    cross and one pixel more: every pixel outside it is left [(0, 0, 0, 0)].
    (The label, where drawn, is assumed to have a box of at most 48 by 48
    pixels.) *)
Theorem fiber_extent (P : Rasteriser) (E : Env) (size : Z) :
  small_label E -> 0 <= size <= max_checked_size ->
  let c := Fiber.center size in
  let h := Fiber.radius size + Fiber.cross_width size + 1 in
  confined (Fiber.commands E size) (c - h) (c - h) (c + h) (c + h) /\
  exists img, create_fiber_icon P E size = Ok img /\
              forall x y, x < c - h \/ c + h < x \/ y < c - h \/ c + h < y ->
                          pix img x y = transparent_black.
Proof.
  intros HE Hs c h.
  pose proof (fiber_confined E size HE Hs) as Hc. cbv zeta in Hc. fold c in Hc. fold h in Hc.
  split; [ exact Hc | ].
  unfold create_fiber_icon. rewrite compose_ok by lia.
  eexists. split; [ reflexivity | ]. intros x y Hxy.
  now apply (confined_untouched P _ size _ _ _ _ x y Hc).
Qed.

Lemma fiber_extent_witness :
  exists img, create_fiber_icon box_rasteriser windows_env 96 = Ok img /\
              forall x y, x < 48 - 42 \/ 48 + 42 < x \/ y < 48 - 42 \/ 48 + 42 < y ->
                          pix img x y = transparent_black.
Proof.
  apply (fiber_extent box_rasteriser windows_env 96).
  - unfold small_label, windows_env. cbn [label_box]. lia.
  - unfold max_checked_size. lia.
Defined.

Lemma capture_layout_checked : all_from capture_layout_ok 0 4097 = true.
Proof. vm_compute. reflexivity. Qed.

Lemma capture_layout_range (size : Z) :
  0 <= size <= max_checked_size -> capture_layout_ok size = true.
Proof.
  intros H. apply (all_from_spec capture_layout_ok 4097 0); [ exact capture_layout_checked | ].
  unfold max_checked_size in H. lia.
Qed.

Lemma capture_parts (size : Z) :
  0 <= size <= max_checked_size ->
  let c := Capture.center size in
  let x0 := Capture.camera_x size in
  let y0 := Capture.camera_y size in
  let x1 := x0 + Capture.camera_width size in
  let y1 := y0 + Capture.camera_height size in
  let lr := Capture.lens_radius size in
  within_box (IZR x0) (IZR y0) (IZR x1) (IZR y1) (Capture.body size) /\
  within_box (IZR x0) (IZR y0) (IZR x1) (IZR y1)
             (Capture.disk size lr (rgb gray) (Some (rgb white)) 2) /\
  within_box (IZR (c - lr)) (IZR (c - lr)) (IZR (c + lr)) (IZR (c + lr))
             (Capture.disk size (Capture.inner_lens size) (rgb white) None 1) /\
  within_box (IZR x0) (IZR (Capture.vf_y size)) (IZR x1) (IZR y0) (Capture.viewfinder size) /\
  (x0 <= c - lr /\ c + lr <= x1 /\ y0 <= c - lr /\ c + lr <= y1 /\
   Capture.vf_y size <= y0 /\ 0 <= lr).
Proof.
  intros Hs c x0 y0 x1 y1 lr.
  pose proof (capture_layout_range size Hs) as Hok.
  unfold capture_layout_ok in Hok. cbv zeta in Hok.
  fold c x0 y0 lr in Hok. fold x1 y1 in Hok.
  rewrite !andb_true_iff, !Z.leb_le in Hok.
  destruct Hok as ((((((((((L1 & L2) & L3) & L4) & I1) & I2) & V1) & V2) & V3) & V4) & V5).
  split; [ | split; [ | split; [ | split ] ] ].
  - unfold Capture.body, rounded_rectangle. fold x0 y0. fold x1 y1.
    apply (within_Z _ _ _ _ x0 y0 x1 y1); [ reflexivity | lia .. ].
  - unfold Capture.disk, ellipse. fold c.
    apply (within_Z _ _ _ _ (c - lr) (c - lr) (c + lr) (c + lr)); [ reflexivity | lia .. ].
  - unfold Capture.disk, ellipse. fold c.
    apply (within_Z _ _ _ _ (c - Capture.inner_lens size) (c - Capture.inner_lens size)
             (c + Capture.inner_lens size) (c + Capture.inner_lens size));
      [ reflexivity | lia .. ].
  - unfold Capture.viewfinder, rounded_rectangle.
    apply (within_Z _ _ _ _ (Capture.vf_x size) (Capture.vf_y size)
             (Capture.vf_x size + Capture.vf_width size)
             (Capture.vf_y size + Capture.vf_height size));
      [ reflexivity | lia .. ].
  - lia.
Qed.

Lemma capture_confined (size : Z) :
  0 <= size <= max_checked_size ->
  confined (Capture.commands size)
           (Capture.camera_x size - 1) (Capture.vf_y size - 1)
           (Capture.camera_x size + Capture.camera_width size + 1)
           (Capture.camera_y size + Capture.camera_height size + 1).
Proof.
  intros Hs.
  destruct (capture_parts size Hs) as (Hbody & Hlens & Hinner & Hvf & L1 & L2 & L3 & L4 & V & L0).
  apply within_confined. unfold Capture.commands.
  repeat apply Forall_cons; try apply Forall_nil;
    (split; [ | rewrite closed_margin by reflexivity; lra ]).
  - apply (within_weaken _ _ _ _ _ _ _ _ _ Hbody); apply IZR_le; lia.
  - apply (within_weaken _ _ _ _ _ _ _ _ _ Hlens); apply IZR_le; lia.
  - apply (within_weaken _ _ _ _ _ _ _ _ _ Hinner); apply IZR_le; lia.
  - apply (within_weaken _ _ _ _ _ _ _ _ _ Hvf); apply IZR_le; lia.
Qed.

(** X11: at every size from 0 to 4096 the camera icon is laid out as a
    camera: the lens lies within the body and the inner lens within the lens;
    the viewfinder lies within the width of the body and wholly above it
    (its lower edge is [int(size * 0.05)] pixels above the body's upper edge);
    and nothing is painted more than one pixel outside the rectangle that
    spans the body and the viewfinder. *)
Theorem capture_layout (P : Rasteriser) (size : Z) :
  0 <= size <= max_checked_size ->
  let c := Capture.center size in
  let x0 := Capture.camera_x size in
  let y0 := Capture.camera_y size in
  let x1 := x0 + Capture.camera_width size in
  let y1 := y0 + Capture.camera_height size in
  let lr := Capture.lens_radius size in
  within_box (IZR x0) (IZR y0) (IZR x1) (IZR y1)
             (Capture.disk size lr (rgb gray) (Some (rgb white)) 2) /\
  within_box (IZR (c - lr)) (IZR (c - lr)) (IZR (c + lr)) (IZR (c + lr))
             (Capture.disk size (Capture.inner_lens size) (rgb white) None 1) /\
  within_box (IZR x0) (IZR (Capture.vf_y size)) (IZR x1) (IZR y0) (Capture.viewfinder size) /\
  Capture.vf_y size + Capture.vf_height size = y0 - Py.int_mul size 0.05 /\
  confined (Capture.commands size) (x0 - 1) (Capture.vf_y size - 1) (x1 + 1) (y1 + 1) /\
  exists img, create_capture_icon P size = Ok img /\
              forall x y, x < x0 - 1 \/ x1 + 1 < x \/ y < Capture.vf_y size - 1 \/ y1 + 1 < y ->
                          pix img x y = transparent_black.
Proof.
  intros Hs c x0 y0 x1 y1 lr.
  destruct (capture_parts size Hs) as (_ & Hlens & Hinner & Hvf & _).
  pose proof (capture_confined size Hs) as Hc.
  split; [ exact Hlens | split; [ exact Hinner | split; [ exact Hvf | ] ] ].
  split; [ unfold y0, Capture.vf_y; lia | split; [ exact Hc | ] ].
  unfold create_capture_icon. rewrite compose_ok by lia.
  eexists. split; [ reflexivity | ]. intros x y Hxy.
  now apply (confined_untouched P _ size _ _ _ _ x y Hc).
Qed.

Lemma capture_layout_witness :
  within_box 15 24 82 72 (Capture.disk 96 14 (rgb gray) (Some (rgb white)) 2) /\
  within_box 15 11 82 24 (Capture.viewfinder 96).
Proof.
  assert (H : 0 <= 96 <= max_checked_size) by (unfold max_checked_size; lia).
  destruct (capture_layout box_rasteriser 96 H) as (H1 & _ & H3 & _).
  split; [ exact H1 | exact H3 ].
Defined.

Lemma assignments_layout_checked : all_from assignments_layout_ok 15 4082 = true.
Proof. vm_compute. reflexivity. Qed.

Lemma assignments_layout_range (size : Z) :
  15 <= size <= max_checked_size -> assignments_layout_ok size = true.
Proof.
  intros H. apply (all_from_spec assignments_layout_ok 4082 15);
    [ exact assignments_layout_checked | ].
  unfold max_checked_size in H. lia.
Qed.

Lemma line_margin (p q : Point) (f : Color) (w : Z) :
  1 <= w -> margin (line p q f w) = (IZR w + 1)%R.
Proof. intros H. cbn [line margin shape width]. now rewrite Z.max_r by lia. Qed.

Lemma assignments_rows (size : Z) :
  15 <= size <= max_checked_size ->
  let dx := Assignments.doc_x size in
  let dy := Assignments.doc_y size in
  let dw := Assignments.doc_width size in
  let dh := Assignments.doc_height size in
  (0 <= dw /\ 0 <= dh) /\
  forall i, In i (Py.range 0 4 1) ->
    let top := Assignments.item_y size i in
    let bottom := top + Assignments.item_height size in
    dy <= top /\ bottom <= dy + dh /\
    Forall (within_box (IZR dx) (IZR top) (IZR (dx + dw)) (IZR bottom))
           (Assignments.item size i).
Proof.
  intros Hs dx dy dw dh.
  pose proof (assignments_layout_range size Hs) as Hok.
  unfold assignments_layout_ok in Hok. cbv zeta in Hok.
  rewrite !andb_true_iff, forallb_forall, !Z.leb_le in Hok.
  destruct Hok as (((((((W0 & H0) & X1) & X2) & X3) & X4) & X5) & Hrows).
  assert (Hrow : forall i, In i (Py.range 0 4 1) ->
            dy <= Assignments.item_y size i /\
            Assignments.item_y size i + Assignments.item_height size <= dy + dh /\
            Assignments.item_y size i <= Assignments.checkbox_y size i /\
            Assignments.checkbox_y size i + Assignments.checkbox_size size
            <= Assignments.item_y size i + Assignments.item_height size /\
            Assignments.item_y size i <= Assignments.line_y size i - 1 /\
            Assignments.line_y size i + 1
            <= Assignments.item_y size i + Assignments.item_height size).
  { intros i Hi. specialize (Hrows i Hi). cbv zeta in Hrows.
    rewrite !andb_true_iff, !Z.leb_le in Hrows.
    unfold dy, dh, Assignments.checkbox_y, Assignments.line_y, Assignments.item_y,
      Assignments.doc_y, Assignments.item_height, Assignments.item_margin,
      Assignments.checkbox_size, Assignments.center.
    tauto. }
  assert (Hcol : dx <= Assignments.checkbox_x size /\
                 Assignments.checkbox_x size + Assignments.checkbox_size size <= dx + dw /\
                 dx <= Assignments.line_x size /\
                 Assignments.line_x size <= Assignments.line_x size + Assignments.line_width size /\
                 Assignments.line_x size + Assignments.line_width size <= dx + dw).
  { unfold dx, dw, Assignments.line_x, Assignments.line_width, Assignments.checkbox_x,
      Assignments.doc_x, Assignments.item_margin, Assignments.checkbox_size,
      Assignments.center.
    tauto. }
  clear Hrows X1 X2 X3 X4 X5.
  destruct Hcol as (X1 & X2 & X3 & X4 & X5).
  fold dw in W0. fold dh in H0.
  assert (Hcs : 0 <= Assignments.checkbox_size size)
    by (unfold Assignments.checkbox_size; zlia).
  assert (Hcw : 1 <= Assignments.check_width size)
    by (unfold Assignments.check_width; lia).
  split; [ split; assumption | ].
  intros i Hi top bottom.
  destruct (Hrow i Hi) as (R1 & R2 & R3 & R4 & R5 & R6).
  fold top in R1, R2, R3, R4, R5, R6. fold bottom in R2, R4, R6.
  split; [ exact R1 | split; [ exact R2 | ] ].
  unfold Assignments.item. apply Forall_app; split; [ | apply Forall_app; split ].
  - constructor; [ | constructor ]. unfold Assignments.checkbox, rectangle.
    apply (within_Z _ _ _ _ (Assignments.checkbox_x size) (Assignments.checkbox_y size i)
             (Assignments.checkbox_x size + Assignments.checkbox_size size)
             (Assignments.checkbox_y size i + Assignments.checkbox_size size));
      [ reflexivity | lia .. ].
  - destruct (i <? 2); [ | constructor ].
    apply IZR_le in X1, X2, R3, R4, Hcs. rewrite plus_IZR in X2, R4.
    unfold Assignments.checkmark, within_box.
    forall2; cbn [line shape anchors]; forall2; cbn [fst snd];
      rewrite ?plus_IZR in *; lra.
  - constructor; [ | constructor ]. unfold Assignments.text_line, rectangle.
    apply (within_Z _ _ _ _ (Assignments.line_x size) (Assignments.line_y size i - 1)
             (Assignments.line_x size + Assignments.line_width size)
             (Assignments.line_y size i + 1));
      [ reflexivity | lia .. ].
Qed.

Lemma assignments_confined (size : Z) :
  15 <= size <= max_checked_size ->
  let dx := Assignments.doc_x size in
  let dy := Assignments.doc_y size in
  let dw := Assignments.doc_width size in
  let dh := Assignments.doc_height size in
  let m := Assignments.check_width size + 1 in
  confined (Assignments.commands size) (dx - m) (dy - m) (dx + dw + m) (dy + dh + m).
Proof.
  intros Hs dx dy dw dh m.
  destruct (assignments_rows size Hs) as ((W0 & H0) & Hitem).
  fold dx dy dw dh in W0, H0, Hitem.
  assert (Hcw : 1 <= Assignments.check_width size)
    by (unfold Assignments.check_width; lia).
  apply within_confined. unfold Assignments.commands. apply Forall_cons.
  - split.
    + unfold Assignments.document, rounded_rectangle. fold dx dy dw dh.
      apply (within_Z _ _ _ _ dx dy (dx + dw) (dy + dh)); [ reflexivity | lia .. ].
    + rewrite closed_margin by reflexivity. apply IZR_le. unfold m. lia.
  - apply Forall_flat_map, Forall_forall. intros i Hi.
    destruct (Hitem i Hi) as (T1 & T2 & Hin). cbv zeta in Hin.
    assert (Hmar : Forall (fun d => (margin d <= IZR m)%R) (Assignments.item size i)).
    { unfold Assignments.item. apply Forall_app; split; [ | apply Forall_app; split ].
      - constructor; [ | constructor ]. rewrite closed_margin by reflexivity.
        apply IZR_le. unfold m. lia.
      - destruct (i <? 2); [ | constructor ]. unfold Assignments.checkmark.
        forall2; rewrite line_margin by assumption; unfold m; rewrite plus_IZR; lra.
      - constructor; [ | constructor ]. rewrite closed_margin by reflexivity.
        apply IZR_le. unfold m. lia. }
    rewrite Forall_forall in Hin, Hmar. apply Forall_forall. intros d Hd. split.
    + apply (within_weaken _ _ _ _ _ _ _ _ _ (Hin d Hd)); apply IZR_le; lia.
    + now apply Hmar.
Qed.

(** X12: at every size from 15 to 4096 the list icon is laid out as a list
    on a sheet: each of the four rows lies within the sheet, a row ends where
    the gap before the next one begins, the checkbox, the tick and the text bar
    of a row lie within the row, the text bar ends one gap short of the sheet's
    right edge, and nothing is painted further outside the sheet than the
    width of a tick and one pixel. *)
Theorem assignments_layout (P : Rasteriser) (size : Z) :
  15 <= size <= max_checked_size ->
  let dx := Assignments.doc_x size in
  let dy := Assignments.doc_y size in
  let dw := Assignments.doc_width size in
  let dh := Assignments.doc_height size in
  let m := Assignments.check_width size + 1 in
  (forall i, In i (Py.range 0 4 1) ->
     let top := Assignments.item_y size i in
     let bottom := top + Assignments.item_height size in
     dy <= top /\ bottom <= dy + dh /\
     Assignments.item_y size (i + 1) = bottom + Assignments.item_margin size /\
     Forall (within_box (IZR dx) (IZR top) (IZR (dx + dw)) (IZR bottom))
            (Assignments.item size i)) /\
  Assignments.line_x size + Assignments.line_width size = dx + dw - Assignments.item_margin size /\
  confined (Assignments.commands size) (dx - m) (dy - m) (dx + dw + m) (dy + dh + m) /\
  exists img, create_assignments_icon P size = Ok img /\
              forall x y, x < dx - m \/ dx + dw + m < x \/ y < dy - m \/ dy + dh + m < y ->
                          pix img x y = transparent_black.
Proof.
  intros Hs dx dy dw dh m.
  destruct (assignments_rows size Hs) as (_ & Hitem).
  fold dx dy dw dh in Hitem.
  pose proof (assignments_confined size Hs) as Hc. cbv zeta in Hc.
  fold dx dy dw dh in Hc. fold m in Hc.
  split; [ | split; [ | split; [ exact Hc | ] ] ].
  - intros i Hi top bottom. destruct (Hitem i Hi) as (T1 & T2 & T3).
    split; [ exact T1 | split; [ exact T2 | split; [ | exact T3 ] ] ].
    unfold bottom, top, Assignments.item_y. ring.
  - unfold Assignments.line_x, Assignments.line_width, Assignments.checkbox_x.
    fold dx dw. ring.
  - unfold create_assignments_icon. rewrite compose_ok by lia.
    eexists. split; [ reflexivity | ]. intros x y Hxy.
    now apply (confined_untouched P _ size _ _ _ _ x y Hc).
Qed.

Lemma assignments_layout_witness :
  Assignments.line_x 96 + Assignments.line_width 96 = 74 /\
  confined (Assignments.commands 96) 18 8 79 88.
Proof.
  assert (H : 15 <= 96 <= max_checked_size) by (unfold max_checked_size; lia).
  destruct (assignments_layout box_rasteriser 96 H) as (_ & H1 & H2 & _).
  assert (E0 : Assignments.doc_x 96 + Assignments.doc_width 96 - Assignments.item_margin 96 = 74)
    by (vm_compute; reflexivity).
  assert (E1 : Assignments.doc_x 96 - (Assignments.check_width 96 + 1) = 18)
    by (vm_compute; reflexivity).
  assert (E2 : Assignments.doc_y 96 - (Assignments.check_width 96 + 1) = 8)
    by (vm_compute; reflexivity).
  assert (E3 : Assignments.doc_x 96 + Assignments.doc_width 96
               + (Assignments.check_width 96 + 1) = 79) by (vm_compute; reflexivity).
  assert (E4 : Assignments.doc_y 96 + Assignments.doc_height 96
               + (Assignments.check_width 96 + 1) = 88) by (vm_compute; reflexivity).
  rewrite E0 in H1. rewrite E1, E2, E3, E4 in H2.
  split; [ exact H1 | exact H2 ].
Defined.

(** ** The sync glyph at any size *)

Lemma head_top_eq (size : Z) :
  Sync.head_top size =
  let tip := on_circle (Sync.center size) (Sync.radius size) (Py.radians 310) in
  let hs := IZR (Sync.head_size size) in
  [ tip;
    ((fst tip - hs * cos (Py.radians 315 + 5 / 10))%R,
     (snd tip - hs * sin (Py.radians 315 + 5 / 10))%R);
    ((fst tip - hs * cos (Py.radians 315 - 5 / 10))%R,
     (snd tip - hs * sin (Py.radians 315 - 5 / 10))%R) ].
Proof. reflexivity. Qed.

Lemma head_bottom_eq (size : Z) :
  Sync.head_bottom size =
  let tip := on_circle (Sync.center size) (Sync.inner_radius size) (Py.radians 225) in
  let hs := IZR (Sync.head_size size) in
  [ tip;
    ((fst tip + hs * cos (Py.radians 225 + 5 / 10))%R,
     (snd tip + hs * sin (Py.radians 225 + 5 / 10))%R);
    ((fst tip + hs * cos (Py.radians 225 - 5 / 10))%R,
     (snd tip + hs * sin (Py.radians 225 - 5 / 10))%R) ].
Proof. reflexivity. Qed.

Lemma scaled_cos (h t : R) : (0 <= h)%R -> (- h <= h * cos t <= h)%R.
Proof. intros Hh. pose proof (COS_bound t). nra. Qed.

Lemma scaled_sin (h t : R) : (0 <= h)%R -> (- h <= h * sin t <= h)%R.
Proof. intros Hh. pose proof (SIN_bound t). nra. Qed.

Lemma sync_layout_checked : all_from sync_layout_ok 40 4057 = true.
Proof. vm_compute. reflexivity. Qed.

Lemma sync_layout_range (size : Z) :
  40 <= size <= max_checked_size -> sync_layout_ok size = true.
Proof.
  intros H. apply (all_from_spec sync_layout_ok 4057 40); [ exact sync_layout_checked | ].
  unfold max_checked_size in H. lia.
Qed.

Lemma sync_radii_checked : all_from sync_radii_ok 0 4097 = true.
Proof. vm_compute. reflexivity. Qed.

Lemma sync_radii_range (size : Z) :
  0 <= size <= max_checked_size -> sync_radii_ok size = true.
Proof.
  intros H. apply (all_from_spec sync_radii_ok 4097 0); [ exact sync_radii_checked | ].
  unfold max_checked_size in H. lia.
Qed.

(** The calls of the sync icon keep within the square about the centre of
    half side the outer radius and the head size. *)
Lemma sync_commands_boxed (size : Z) :
  0 <= size -> 0 <= Sync.inner_radius size <= Sync.radius size ->
  let c := Sync.center size in
  let k := Sync.radius size + Sync.head_size size in
  Forall (boxed (IZR (c - k)) (IZR (c + k)) (IZR (Sync.arrow_width size + 1)))
         (Sync.commands size).
Proof.
  intros Hs [Hi Hr] c k.
  assert (Hh : 0 <= Sync.head_size size) by (unfold Sync.head_size; zlia).
  assert (Hw : 3 <= Sync.arrow_width size) by (unfold Sync.arrow_width; lia).
  assert (Hw' : (IZR (Z.max 0 (Sync.arrow_width size)) + 1 = IZR (Sync.arrow_width size + 1))%R).
  { rewrite Z.max_r by lia. now rewrite plus_IZR. }
  assert (Hm1 : (1 <= IZR (Sync.arrow_width size + 1))%R) by (apply IZR_le; lia).
  pose proof (on_circle_in_square c (Sync.radius size) (Py.radians 310) ltac:(lia)) as Htop.
  pose proof (on_circle_in_square c (Sync.inner_radius size) (Py.radians 225) Hi) as Hbot.
  assert (HhR : (0 <= IZR (Sync.head_size size))%R) by (now apply IZR_le).
  assert (Hlo : (IZR (c - k) = IZR (c - Sync.radius size) - IZR (Sync.head_size size))%R)
    by (unfold k; rewrite !minus_IZR, plus_IZR; ring).
  assert (Hhi : (IZR (c + k) = IZR (c + Sync.radius size) + IZR (Sync.head_size size))%R)
    by (unfold k; rewrite !plus_IZR; ring).
  assert (Hbot' : in_square (IZR (c - Sync.radius size)) (IZR (c + Sync.radius size))
                    (on_circle c (Sync.inner_radius size) (Py.radians 225))).
  { destruct Hbot as [[B1 B2] [B3 B4]].
    assert (IZR (c - Sync.radius size) <= IZR (c - Sync.inner_radius size))%R
      by (apply IZR_le; lia).
    assert (IZR (c + Sync.inner_radius size) <= IZR (c + Sync.radius size))%R
      by (apply IZR_le; lia).
    unfold in_square. lra. }
  unfold Sync.commands. rewrite points_bottom_raw, head_top_eq, head_bottom_eq.
  unfold Sync.points_top. fold c. cbv zeta.
  apply Forall_app; split.
  { eapply Forall_impl; [ | apply arc_boxed, (arc_points_in_square c (Sync.radius size)); lia ].
    intros d Hd. rewrite Hw' in Hd.
    apply (boxed_weaken _ _ _ _ _ _ _ Hd); [ apply IZR_le; unfold k; lia .. | lra ]. }
  apply Forall_app; split.
  { apply Forall_cons; [ | apply Forall_nil ].
    apply polygon_boxed; [ | exact Hm1 ]. rewrite Hlo, Hhi.
    pose proof (scaled_cos _ (Py.radians 315 + 5 / 10) HhR).
    pose proof (scaled_sin _ (Py.radians 315 + 5 / 10) HhR).
    pose proof (scaled_cos _ (Py.radians 315 - 5 / 10) HhR).
    pose proof (scaled_sin _ (Py.radians 315 - 5 / 10) HhR).
    forall3.
    - unfold in_square in *. lra.
    - apply (in_square_near _ _ _ _ _ Htop); cbn [fst snd]; lra.
    - apply (in_square_near _ _ _ _ _ Htop); cbn [fst snd]; lra. }
  apply Forall_app; split.
  { eapply Forall_impl;
      [ | apply arc_boxed, (arc_points_in_square c (Sync.inner_radius size)); lia ].
    intros d Hd. rewrite Hw' in Hd.
    apply (boxed_weaken _ _ _ _ _ _ _ Hd); [ apply IZR_le; unfold k; lia .. | lra ]. }
  apply Forall_cons; [ | apply Forall_nil ].
  apply polygon_boxed; [ | exact Hm1 ]. rewrite Hlo, Hhi.
  pose proof (scaled_cos _ (Py.radians 225 + 5 / 10) HhR).
  pose proof (scaled_sin _ (Py.radians 225 + 5 / 10) HhR).
  pose proof (scaled_cos _ (Py.radians 225 - 5 / 10) HhR).
  pose proof (scaled_sin _ (Py.radians 225 - 5 / 10) HhR).
  forall3.
  - unfold in_square in *. lra.
  - apply (in_square_near _ _ _ _ _ Hbot'); cbn [fst snd]; lra.
  - apply (in_square_near _ _ _ _ _ Hbot'); cbn [fst snd]; lra.
Qed.

(** No call of the sync icon reaches the centre pixel. *)
Lemma sync_centre_clear (size : Z) :
  sync_layout_ok size = true -> 0 <= size ->
  Forall (fun d => ~ reach d (Sync.center size) (Sync.center size)) (Sync.commands size).
Proof.
  intros Hok Hs. unfold sync_layout_ok in Hok. cbv zeta in Hok.
  rewrite !andb_true_iff, !Z.ltb_lt, Z.leb_le in Hok.
  destruct Hok as (((Hi & Hr) & Hw) & Hh).
  assert (Hh0 : 0 <= Sync.head_size size) by (unfold Sync.head_size; zlia).
  assert (Hw0 : 3 <= Sync.arrow_width size) by (unfold Sync.arrow_width; lia).
  assert (HhR : (0 <= IZR (Sync.head_size size))%R) by (now apply IZR_le).
  assert (Hwi : (IZR (Z.max 0 (Sync.arrow_width size)) + 1
                 < IZR (Sync.inner_radius size) * (7 / 10 - 1 / 9))%R).
  { rewrite Z.max_r by lia. apply IZR_lt in Hw.
    rewrite !mult_IZR, plus_IZR in Hw. lra. }
  assert (Hrr : (IZR (Sync.inner_radius size) <= IZR (Sync.radius size))%R)
    by (now apply IZR_le).
  assert (Hwr : (IZR (Z.max 0 (Sync.arrow_width size)) + 1
                 < IZR (Sync.radius size) * (7 / 10 - 1 / 9))%R) by lra.
  assert (Hhi : (1 + IZR (Sync.head_size size) < IZR (Sync.inner_radius size) * (7 / 10))%R).
  { apply IZR_lt in Hh. rewrite !mult_IZR, plus_IZR in Hh. lra. }
  assert (Hhr : (1 + IZR (Sync.head_size size) < IZR (Sync.radius size) * (7 / 10))%R) by lra.
  unfold Sync.commands. rewrite points_bottom_raw, head_top_eq, head_bottom_eq.
  unfold Sync.points_top. cbv zeta.
  apply Forall_app; split; [ | apply Forall_app; split; [ | apply Forall_app; split ] ].
  - apply arc_clear; [ exact top_angles_step | exact Hwr | lia ].
  - constructor; [ | constructor ]. apply clear_not_reach.
    pose proof (scaled_cos _ (Py.radians 315 + 5 / 10) HhR).
    pose proof (scaled_sin _ (Py.radians 315 + 5 / 10) HhR).
    pose proof (scaled_cos _ (Py.radians 315 - 5 / 10) HhR).
    pose proof (scaled_sin _ (Py.radians 315 - 5 / 10) HhR).
    apply head_clear with (h := IZR (Sync.head_size size)); cbn [fst snd]; lra.
  - apply arc_clear; [ exact bottom_angles_step | exact Hwi | lia ].
  - constructor; [ | constructor ]. apply clear_not_reach.
    pose proof (scaled_cos _ (Py.radians 225 + 5 / 10) HhR).
    pose proof (scaled_sin _ (Py.radians 225 + 5 / 10) HhR).
    pose proof (scaled_cos _ (Py.radians 225 - 5 / 10) HhR).
    pose proof (scaled_sin _ (Py.radians 225 - 5 / 10) HhR).
    apply head_clear with (h := IZR (Sync.head_size size)); cbn [fst snd]; lra.
Qed.

Lemma sync_confined (size : Z) :
  0 <= size <= max_checked_size ->
  let c := Sync.center size in
  let h := Sync.radius size + Sync.head_size size + Sync.arrow_width size + 1 in
  confined (Sync.commands size) (c - h) (c - h) (c + h) (c + h).
Proof.
  intros Hs c h.
  pose proof (sync_radii_range size Hs) as Hok. unfold sync_radii_ok in Hok.
  rewrite andb_true_iff, !Z.leb_le in Hok.
  pose proof (sync_commands_boxed size (proj1 Hs) Hok) as Hb. cbv zeta in Hb. fold c in Hb.
  replace (c - h)
    with (c - (Sync.radius size + Sync.head_size size) - (Sync.arrow_width size + 1))
    by (unfold h; lia).
  replace (c + h)
    with (c + (Sync.radius size + Sync.head_size size) + (Sync.arrow_width size + 1))
    by (unfold h; lia).
  apply within_confined. eapply Forall_impl; [ | exact Hb ].
  intros d Hd. now apply boxed_within.
Qed.

(** X14: at every size from 40 to 4096 the sync icon paints a band around
    its centre and nothing else: the centre pixel, which no stroke and no
    arrow head can reach, is left [(0, 0, 0, 0)], and so is every pixel outside
    the square about the centre whose half side is the outer radius, the head
    size, the stroke width and one pixel more. *)
Theorem sync_band (P : Rasteriser) (size : Z) :
  40 <= size <= max_checked_size ->
  let c := Sync.center size in
  let h := Sync.radius size + Sync.head_size size + Sync.arrow_width size + 1 in
  Forall (fun d => ~ reach d c c) (Sync.commands size) /\
  confined (Sync.commands size) (c - h) (c - h) (c + h) (c + h) /\
  exists img, create_sync_icon P size = Ok img /\
              pix img c c = transparent_black /\
              forall x y, x < c - h \/ c + h < x \/ y < c - h \/ c + h < y ->
                          pix img x y = transparent_black.
Proof.
  intros Hs c h.
  assert (Hs0 : 0 <= size <= max_checked_size) by lia.
  pose proof (sync_centre_clear size (sync_layout_range size Hs) ltac:(lia)) as Hcl.
  pose proof (sync_confined size Hs0) as Hc. cbv zeta in Hc. fold c in Hc. fold h in Hc.
  split; [ exact Hcl | split; [ exact Hc | ] ].
  unfold create_sync_icon. rewrite compose_ok by lia.
  eexists. split; [ reflexivity | split ].
  - rewrite render_untouched; [ reflexivity | exact Hcl ].
  - intros x y Hxy. now apply (confined_untouched P _ size _ _ _ _ x y Hc).
Qed.

Lemma sync_band_witness :
  exists img, create_sync_icon box_rasteriser 512 = Ok img /\
              pix img 256 256 = transparent_black.
Proof.
  assert (H : 40 <= 512 <= max_checked_size) by (unfold max_checked_size; lia).
  destruct (sync_band box_rasteriser 512 H) as (_ & _ & img & H1 & H2 & _).
  exists img. split; [ exact H1 | exact H2 ].
Defined.

(** ** The border of the image *)

Lemma border_ok_checked : all_from border_ok 41 4056 = true.
Proof. vm_compute. reflexivity. Qed.

Lemma border_ok_range (size : Z) : 41 <= size <= max_checked_size -> border_ok size = true.
Proof.
  intros H. apply (all_from_spec border_ok 4056 41); [ exact border_ok_checked | ].
  unfold max_checked_size in H. lia.
Qed.

(** X15: at every size from 41 to 4096 each of the four composers leaves the
    outermost rows and columns of the image untouched: every pixel on the
    border, the corners among them, keeps the value [(0, 0, 0, 0)] of the
    blank image.  (The label, where drawn, is assumed to have a box of at most
    48 by 48 pixels.) *)
Theorem border_stays_transparent (P : Rasteriser) (E : Env) (k : IconKind) (size : Z) :
  small_label E -> 41 <= size <= max_checked_size ->
  exists img, create_icon P E k size = Ok img /\
              forall x y, x <= 0 \/ size - 1 <= x \/ y <= 0 \/ size - 1 <= y ->
                          pix img x y = transparent_black.
Proof.
  intros HE Hs.
  assert (Hs0 : 0 <= size <= max_checked_size) by lia.
  assert (Hs15 : 15 <= size <= max_checked_size) by lia.
  pose proof (border_ok_range size Hs) as Hok. unfold border_ok in Hok. cbv zeta in Hok.
  rewrite !andb_true_iff, !Z.ltb_lt in Hok.
  destruct Hok as (((((((((((F1 & F2) & C1) & C2) & C3) & C4) & A1) & A2) & A3) & A4) & S1) & S2).
  destruct k; cbn [create_icon].
  - assert (Hc := fiber_confined E size HE Hs0). cbv zeta in Hc.
    unfold create_fiber_icon. rewrite compose_ok by lia.
    eexists. split; [ reflexivity | ]. intros x y Hxy.
    apply (confined_untouched P _ size _ _ _ _ x y Hc). lia.
  - assert (Hc := capture_confined size Hs0).
    unfold create_capture_icon. rewrite compose_ok by lia.
    eexists. split; [ reflexivity | ]. intros x y Hxy.
    apply (confined_untouched P _ size _ _ _ _ x y Hc). lia.
  - assert (Hc := assignments_confined size Hs15). cbv zeta in Hc.
    unfold create_assignments_icon. rewrite compose_ok by lia.
    eexists. split; [ reflexivity | ]. intros x y Hxy.
    apply (confined_untouched P _ size _ _ _ _ x y Hc). lia.
  - assert (Hc := sync_confined size Hs0). cbv zeta in Hc.
    unfold create_sync_icon. rewrite compose_ok by lia.
    eexists. split; [ reflexivity | ]. intros x y Hxy.
    apply (confined_untouched P _ size _ _ _ _ x y Hc). lia.
Qed.

Lemma border_stays_transparent_witness :
  exists img, create_icon box_rasteriser windows_env AssignmentsIcon 96 = Ok img /\
              forall x y, x <= 0 \/ 96 - 1 <= x \/ y <= 0 \/ 96 - 1 <= y ->
                          pix img x y = transparent_black.
Proof.
  apply (border_stays_transparent box_rasteriser windows_env AssignmentsIcon 96).
  - unfold small_label, windows_env. cbn [label_box]. lia.
  - unfold max_checked_size. lia.
Defined.

(** ** The arrows of the sync icon at any size *)

(** The squared distance of a point put at [h] from [p] in the direction
    [t]. *)
Lemma dist_towards (p : Point) (h t : R) (sgn : R) :
  (0 <= h)%R -> (sgn * sgn = 1)%R ->
  dist ((fst p + sgn * (h * cos t))%R, (snd p + sgn * (h * sin t))%R) p = h.
Proof.
  intros Hh Hs. apply dist_from_squares; [ exact Hh | ]. cbn [fst snd].
  pose proof (sin2_cos2 t) as H. unfold Rsqr in H.
  replace ((fst p + sgn * (h * cos t) - fst p) * (fst p + sgn * (h * cos t) - fst p)
           + (snd p + sgn * (h * sin t) - snd p) * (snd p + sgn * (h * sin t) - snd p))%R
    with ((sgn * sgn) * (h * h) * (sin t * sin t + cos t * cos t))%R by ring.
  rewrite H, Hs. ring.
Qed.

(** X13: at every size of 0 or more the sync icon has the shape the script
    gives it at 96: an outer arc of 54 samples and an inner arc of 72, and
    exactly two filled polygons, both triangles.  The tip of the outer arrow
    is the last sample of the outer arc, at 310 degrees (the range stops short
    of [end_angle]); the tip of the inner arrow is the first sample of the
    inner arc, at 225 degrees; and the two other vertices of each triangle
    lie at [head_size] from its tip. *)
Theorem sync_arrows (size : Z) :
  0 <= size ->
  let c := Sync.center size in
  let hs := IZR (Sync.head_size size) in
  (List.length (Sync.points_top size) = 54%nat /\
   List.length (Sync.points_bottom size) = 72%nat) /\
  polygons (Sync.commands size) = [Sync.head_top size; Sync.head_bottom size] /\
  (last (Sync.points_top size) (0, 0)%R = Sync.arc_point c (Sync.radius size) 310 /\
   exists p1 p2,
     Sync.head_top size = [Sync.arc_point c (Sync.radius size) 310; p1; p2] /\
     dist p1 (Sync.arc_point c (Sync.radius size) 310) = hs /\
     dist p2 (Sync.arc_point c (Sync.radius size) 310) = hs) /\
  (hd (0, 0)%R (Sync.points_bottom size) = Sync.arc_point c (Sync.inner_radius size) 225 /\
   exists p1 p2,
     Sync.head_bottom size = [Sync.arc_point c (Sync.inner_radius size) 225; p1; p2] /\
     dist p1 (Sync.arc_point c (Sync.inner_radius size) 225) = hs /\
     dist p2 (Sync.arc_point c (Sync.inner_radius size) 225) = hs).
Proof.
  intros Hs c hs.
  assert (Hh : (0 <= hs)%R) by (apply IZR_le; unfold Sync.head_size; zlia).
  split; [ split; reflexivity | ].
  split; [ unfold Sync.commands; rewrite !polygons_app, !polygons_arc; reflexivity | ].
  split; (split; [ reflexivity | ]).
  - rewrite head_top_eq. cbv zeta. fold c. fold hs. rewrite <- arc_point_on_circle.
    set (tip := Sync.arc_point c (Sync.radius size) 310).
    eexists. eexists. split; [ reflexivity | ]. split.
    + replace (fst tip - hs * cos (Py.radians 315 + 5 / 10))%R
        with (fst tip + -1 * (hs * cos (Py.radians 315 + 5 / 10)))%R by ring.
      replace (snd tip - hs * sin (Py.radians 315 + 5 / 10))%R
        with (snd tip + -1 * (hs * sin (Py.radians 315 + 5 / 10)))%R by ring.
      apply dist_towards; [ exact Hh | lra ].
    + replace (fst tip - hs * cos (Py.radians 315 - 5 / 10))%R
        with (fst tip + -1 * (hs * cos (Py.radians 315 - 5 / 10)))%R by ring.
      replace (snd tip - hs * sin (Py.radians 315 - 5 / 10))%R
        with (snd tip + -1 * (hs * sin (Py.radians 315 - 5 / 10)))%R by ring.
      apply dist_towards; [ exact Hh | lra ].
  - rewrite head_bottom_eq. cbv zeta. fold c. fold hs. rewrite <- arc_point_on_circle.
    set (tip := Sync.arc_point c (Sync.inner_radius size) 225).
    eexists. eexists. split; [ reflexivity | ]. split.
    + replace (fst tip + hs * cos (Py.radians 225 + 5 / 10))%R
        with (fst tip + 1 * (hs * cos (Py.radians 225 + 5 / 10)))%R by ring.
      replace (snd tip + hs * sin (Py.radians 225 + 5 / 10))%R
        with (snd tip + 1 * (hs * sin (Py.radians 225 + 5 / 10)))%R by ring.
      apply dist_towards; [ exact Hh | lra ].
    + replace (fst tip + hs * cos (Py.radians 225 - 5 / 10))%R
        with (fst tip + 1 * (hs * cos (Py.radians 225 - 5 / 10)))%R by ring.
      replace (snd tip + hs * sin (Py.radians 225 - 5 / 10))%R
        with (snd tip + 1 * (hs * sin (Py.radians 225 - 5 / 10)))%R by ring.
      apply dist_towards; [ exact Hh | lra ].
Qed.

Lemma sync_arrows_witness :
  polygons (Sync.commands 192) = [Sync.head_top 192; Sync.head_bottom 192] /\
  last (Sync.points_top 192) (0, 0)%R = Sync.arc_point (Sync.center 192) (Sync.radius 192) 310.
Proof.
  destruct (sync_arrows 192 ltac:(lia)) as (_ & H1 & (H2 & _) & _).
  split; [ exact H1 | exact H2 ].
Defined.

(** ** How many calls a composer makes *)

Lemma length_strand (size a : Z) : List.length (Fiber.strand size a) = 19%nat.
Proof.
  rewrite strand_unfold, length_map, length_combine, length_pairwise, length_strand_points.
  reflexivity.
Qed.

Lemma length_label_step (E : Env) (size : Z) :
  List.length (Fiber.label_step E size) = if 128 <=? size then 2%nat else 0%nat.
Proof.
  unfold Fiber.label_step. destruct (128 <=? size); [ | reflexivity ].
  destruct (label_box E) as [[[[l t] r] b] | ]; reflexivity.
Qed.


(** ** The colours of the shortcut icons *)

Section Palette.

Variable P : Rasteriser.

Lemma render_palette (pal : list Color) (ds : list Draw) (c : Canvas) (x y : Z) :
  Forall (fun d => is_text d = false /\ incl (inks d) pal) ds ->
  In (pix c x y) pal -> In (pix (render P ds c) x y) pal.
Proof.
  revert c. induction ds as [ | d ds IH]; intros c H Hc; simpl; [ assumption | ].
  inversion H as [ | ? ? [Ht Hi] Hds]; subst.
  apply IH; [ assumption | ]. simpl.
  destruct (in_bounds c x y); [ | assumption ].
  destruct (paint_stores P d x y (pix c x y) Ht) as [-> | Hin]; [ assumption | ].
  now apply Hi.
Qed.

Lemma compose_palette (pal : list Color) (ds : list Draw) (size : Z) :
  0 <= size -> In transparent_black pal ->
  Forall (fun d => is_text d = false /\ incl (inks d) pal) ds ->
  exists img, compose P size ds = Ok img /\ coloured_from pal img.
Proof.
  intros Hs Hp Hds. rewrite compose_ok by assumption.
  eexists. split; [ reflexivity | ]. intros x y. now apply render_palette.
Qed.

End Palette.

Ltac palette_call :=
  split; [ reflexivity | ];
  intros k Hk; cbn in Hk; unfold capture_palette, assignments_palette, sync_palette;
  cbn [map In]; tauto.

Lemma capture_inks (size : Z) :
  Forall (fun d => is_text d = false /\ incl (inks d) capture_palette) (Capture.commands size).
Proof.
  unfold Capture.commands. repeat apply Forall_cons; try apply Forall_nil; palette_call.
Qed.

Lemma assignments_inks (size : Z) :
  Forall (fun d => is_text d = false /\ incl (inks d) assignments_palette)
         (Assignments.commands size).
Proof.
  unfold Assignments.commands. apply Forall_cons; [ palette_call | ].
  apply Forall_flat_map, Forall_forall. intros i _.
  unfold Assignments.item, Assignments.checkbox, Assignments.checkmark.
  destruct (i <? 2); cbn [app];
    repeat apply Forall_cons; try apply Forall_nil; palette_call.
Qed.

Lemma sync_inks (size : Z) :
  Forall (fun d => is_text d = false /\ incl (inks d) sync_palette) (Sync.commands size).
Proof.
  unfold Sync.commands, Sync.arc.
  repeat (apply Forall_app; split);
    first [ apply Forall_map, Forall_forall; intros pq _; palette_call
          | constructor; [ palette_call | constructor ] ].
Qed.

Ltac palette_levels :=
  unfold capture_palette, assignments_palette, sync_palette; cbn [map];
  repeat (apply Forall_cons; [ first [ left; reflexivity | right; reflexivity ] | ]);
  apply Forall_nil.

Lemma palette_two_level (pal : list Color) (img : Canvas) :
  Forall (fun k => alpha k = 0 \/ alpha k = 255) pal -> coloured_from pal img -> two_level img.
Proof. intros H Hc x y. rewrite Forall_forall in H. apply H, Hc. Qed.

(** X16: at every size of 0 or more each pixel of a shortcut icon is either
    the [(0, 0, 0, 0)] of the blank image or one of the opaque colours its
    composer draws with (blue, white and grey for the camera; white, blue and
    light blue for the list; blue and light blue for the sync glyph): no pixel
    has any other colour, and none is partly transparent. *)
Theorem shortcut_colours (P : Rasteriser) (size : Z) :
  0 <= size ->
  (exists img, create_capture_icon P size = Ok img /\
               coloured_from capture_palette img /\ two_level img) /\
  (exists img, create_assignments_icon P size = Ok img /\
               coloured_from assignments_palette img /\ two_level img) /\
  (exists img, create_sync_icon P size = Ok img /\
               coloured_from sync_palette img /\ two_level img).
Proof.
  intros Hs. split; [ | split ].
  - destruct (compose_palette P capture_palette (Capture.commands size) size Hs)
      as (img & Himg & Hc); [ now left | apply capture_inks | ].
    exists img. split; [ exact Himg | split; [ exact Hc | ] ].
    apply (palette_two_level capture_palette); [ | exact Hc ].
    palette_levels.
  - destruct (compose_palette P assignments_palette (Assignments.commands size) size Hs)
      as (img & Himg & Hc); [ now left | apply assignments_inks | ].
    exists img. split; [ exact Himg | split; [ exact Hc | ] ].
    apply (palette_two_level assignments_palette); [ | exact Hc ].
    palette_levels.
  - destruct (compose_palette P sync_palette (Sync.commands size) size Hs)
      as (img & Himg & Hc); [ now left | apply sync_inks | ].
    exists img. split; [ exact Himg | split; [ exact Hc | ] ].
    apply (palette_two_level sync_palette); [ | exact Hc ].
    palette_levels.
Qed.

Lemma shortcut_colours_witness :
  exists img, create_sync_icon box_rasteriser 96 = Ok img /\
              coloured_from sync_palette img /\ two_level img.
Proof.
  destruct (shortcut_colours box_rasteriser 96 ltac:(lia)) as (_ & _ & H).
  exact H.
Defined.

(** ** The middle of the camera *)

Lemma capture_centre_checked : all_from capture_centre_ok 32 4065 = true.
Proof. vm_compute. reflexivity. Qed.

Lemma capture_centre_range (size : Z) :
  32 <= size <= max_checked_size -> capture_centre_ok size = true.
Proof.
  intros H. apply (all_from_spec capture_centre_ok 4065 32); [ exact capture_centre_checked | ].
  unfold max_checked_size in H. lia.
Qed.

(** X23: at every size from 32 to 4096 the centre pixel of the camera icon
    is pure white, [(255, 255, 255, 255)]: the inner lens, which has no
    outline, paints it white, and the viewfinder, the only call made
    afterwards, lies above the body and cannot reach it. *)
Theorem capture_centre_white (P : Rasteriser) (size : Z) :
  32 <= size <= max_checked_size ->
  exists img, create_capture_icon P size = Ok img /\
              pix img (size / 2) (size / 2) = rgba 255 255 255 255.
Proof.
  intros Hs.
  assert (Hs0 : 0 <= size <= max_checked_size) by lia.
  pose proof (capture_centre_range size Hs) as Hok. unfold capture_centre_ok in Hok.
  rewrite andb_true_iff, !Z.ltb_lt in Hok. destruct Hok as [Hil Hy].
  destruct (capture_parts size Hs0) as (_ & _ & _ & Hvf & _).
  unfold create_capture_icon. rewrite compose_ok by lia.
  eexists. split; [ reflexivity | ].
  change (Capture.commands size) with
    ([ Capture.body size;
       Capture.disk size (Capture.lens_radius size) (rgb gray) (Some (rgb white)) 2 ]
     ++ [ Capture.disk size (Capture.inner_lens size) (rgb white) None 1;
          Capture.viewfinder size ]).
  rewrite render_app. unfold render at 1. cbn [fold_left].
  rewrite draw_frame.
  - set (c0 := render P _ (blank size)).
    assert (Hin : In (pix (draw P c0 (Capture.disk size (Capture.inner_lens size)
                                                    (rgb white) None 1))
                          (size / 2) (size / 2))
                     (inks (Capture.disk size (Capture.inner_lens size) (rgb white) None 1))).
    { apply draw_covered.
      - unfold c0, in_bounds. rewrite render_width, render_height.
        now apply centre_in_bounds; lia.
      - now apply disk_covers_centre. }
    destruct Hin as [Hin | []]. now rewrite <- Hin.
  - apply (within_not_reach _ _ _ _ _ _ _ Hvf).
    right; right; right. rewrite closed_margin by reflexivity.
    apply IZR_lt in Hy. rewrite plus_IZR in Hy. exact Hy.
Qed.

Lemma capture_centre_white_witness :
  exists img, create_capture_icon box_rasteriser 96 = Ok img /\
              pix img (96 / 2) (96 / 2) = rgba 255 255 255 255.
Proof.
  apply (capture_centre_white box_rasteriser 96). unfold max_checked_size. lia.
Defined.

(** ** The parts of the primary icon *)

Lemma fiber_nesting_checked : all_from fiber_nesting_ok 0 4097 = true.
Proof. vm_compute. reflexivity. Qed.

Lemma fiber_nesting_range (size : Z) :
  0 <= size <= max_checked_size -> fiber_nesting_ok size = true.
Proof.
  intros H. apply (all_from_spec fiber_nesting_ok 4097 0); [ exact fiber_nesting_checked | ].
  unfold max_checked_size in H. lia.
Qed.

(** X8: at every size from 0 to 4096 the parts of the primary icon are
    nested: the inner disc lies within the box of the main disc and the node
    within the box of the inner disc; each connection point is a dot whose
    middle lies at [point_radius] from the centre, which keeps the dot within
    the box of the inner disc and clear of the node; and every point of a
    strand lies at least the radius of the node from the centre. *)
Theorem fiber_nesting (size : Z) :
  0 <= size <= max_checked_size ->
  let c := Fiber.center size in
  let r := Fiber.radius size in
  let ir := Fiber.inner_radius size in
  let nr := Fiber.node_radius size in
  let pr := Fiber.point_radius size in
  let ps := Fiber.point_size size in
  within_box (IZR (c - r)) (IZR (c - r)) (IZR (c + r)) (IZR (c + r))
             (Fiber.disk size ir (rgb secondary_blue) None 1) /\
  within_box (IZR (c - ir)) (IZR (c - ir)) (IZR (c + ir)) (IZR (c + ir)) (Fiber.node size) /\
  (forall a,
     let q := on_circle c pr (Py.radians (IZR a)) in
     anchors (shape (Fiber.connection_point size a))
     = [ ((fst q - IZR ps)%R, (snd q - IZR ps)%R); ((fst q + IZR ps)%R, (snd q + IZR ps)%R) ] /\
     dist q (IZR c, IZR c) = IZR pr /\
     within_box (IZR (c - ir)) (IZR (c - ir)) (IZR (c + ir)) (IZR (c + ir))
                (Fiber.connection_point size a)) /\
  nr + ps <= pr /\
  (forall a p, In p (Fiber.strand_points size a) -> (IZR nr <= dist p (IZR c, IZR c))%R).
Proof.
  intros Hs c r ir nr pr ps.
  pose proof (fiber_nesting_range size Hs) as Hok.
  unfold fiber_nesting_ok in Hok. cbv zeta in Hok.
  fold r ir nr pr ps in Hok. rewrite !andb_true_iff, !Z.leb_le in Hok.
  destruct Hok as ((((((N0 & N1) & N2) & P0) & P1) & P2) & S1).
  split; [ | split; [ | split; [ | split; [ exact P1 | ] ] ] ].
  - unfold Fiber.disk, ellipse. fold c.
    apply (within_Z _ _ _ _ (c - ir) (c - ir) (c + ir) (c + ir)); [ reflexivity | lia .. ].
  - unfold Fiber.node, Fiber.disk, ellipse. fold c nr.
    apply (within_Z _ _ _ _ (c - nr) (c - nr) (c + nr) (c + nr)); [ reflexivity | lia .. ].
  - intros a q. split; [ reflexivity | ].
    split; [ apply on_circle_dist; lia | ].
    pose proof (on_circle_in_square c pr (Py.radians (IZR a)) ltac:(lia)) as [[Q1 Q2] [Q3 Q4]].
    fold q in Q1, Q2, Q3, Q4.
    assert (IZR (c - ir) <= IZR (c - pr) - IZR ps)%R
      by (rewrite <- minus_IZR; apply IZR_le; lia).
    assert (IZR (c + pr) + IZR ps <= IZR (c + ir))%R
      by (rewrite <- plus_IZR; apply IZR_le; lia).
    unfold within_box. change (anchors (shape (Fiber.connection_point size a)))
      with [ ((fst q - IZR ps)%R, (snd q - IZR ps)%R); ((fst q + IZR ps)%R, (snd q + IZR ps)%R) ].
    apply IZR_le in P0.
    forall2; cbn [fst snd]; lra.
  - intros a p Hp. unfold Fiber.strand_points in Hp. apply in_map_iff in Hp as (t & <- & Ht).
    apply (linspace_unit size) in Ht.
    assert (Hir : 0 <= ir) by lia.
    unfold c. rewrite spiral_point_dist by (assumption || lra). fold ir.
    apply IZR_le in S1, Hir. rewrite !mult_IZR in S1. nra.
Qed.

Lemma fiber_nesting_witness :
  Fiber.node_radius 96 + Fiber.point_size 96 <= Fiber.point_radius 96.
Proof.
  assert (H : 0 <= 96 <= max_checked_size) by (unfold max_checked_size; lia).
  exact (proj1 (proj2 (proj2 (proj2 (fiber_nesting 96 H))))).
Defined.

(** X9: the label is placed from the width and height of the box the font
    reports and not from the box's own offset: the white label is drawn at
    [(x, y)] and its shadow at [(x + 1, y + 1)], and the middle of the
    label's box lies [l] pixels to the right of the centre and [t] pixels
    below it, to within half a pixel; so the label is centred when the font
    reports a box that starts at [(0, 0)]. *)
Theorem label_placement (size l t r b : Z) :
  let c := Fiber.center size in
  exists x y,
    Fiber.label size (l, t, r, b)
    = [ text (x + 1) (y + 1) "FF" (l, t, r, b) (rgb gray);
        text x y "FF" (l, t, r, b) (rgb white) ] /\
    anchors (shape (text x y "FF" (l, t, r, b) (rgb white)))
    = [ (IZR (x + l), IZR (y + t)); (IZR (x + r), IZR (y + b)) ] /\
    2 * (c + l) <= (x + l) + (x + r) <= 2 * (c + l) + 1 /\
    2 * (c + t) <= (y + t) + (y + b) <= 2 * (c + t) + 1.
Proof.
  intros c. exists (c - (r - l) / 2), (c - (b - t) / 2).
  split; [ reflexivity | split; [ reflexivity | ] ]. split; zlia.
Qed.

(** ** File names *)

Lemma length_append (s1 s2 : string) :
  String.length (s1 ++ s2) = (String.length s1 + String.length s2)%nat.
Proof. induction s1 as [ | c s1 IH]; simpl; [ reflexivity | now rewrite IH ]. Qed.

Lemma append_same_length (u v r r' : string) :
  String.length u = String.length v -> (u ++ r)%string = (v ++ r')%string -> u = v.
Proof.
  revert v. induction u as [ | c u IH]; intros [ | d v] Hl H; simpl in *;
    try reflexivity; try discriminate.
  injection H as -> H. f_equal. apply IH; [ lia | assumption ].
Qed.

(** [str] parses back to the integer it printed. *)
Lemma str_parses (n : Z) : NilZero.int_of_string (Py.str n) = Some (Z.to_int n).
Proof.
  unfold Py.str. apply NilZero.isi; destruct n; simpl; try discriminate;
    intros H; injection H as H; now apply DecimalPos.Unsigned.to_uint_nonnil in H.
Qed.

Lemma str_injective (a b : Z) : Py.str a = Py.str b -> a = b.
Proof.
  intros H. apply DecimalZ.to_int_inj.
  pose proof (str_parses a) as Ha. rewrite H, str_parses in Ha. now injection Ha.
Qed.

(** X18: the file name of a primary icon determines its size, so two
    different sizes never share a file; the paths of any list of distinct
    sizes are distinct. *)
Theorem icon_names_distinct :
  (forall a b, icon_name a = icon_name b <-> a = b) /\
  (forall (E : Env) (l : list Z),
     NoDup l -> NoDup (map (fun size => os_path_join E icons_dir (icon_name size)) l)).
Proof.
  assert (Hinj : forall a b, icon_name a = icon_name b -> a = b).
  { intros a b H. apply str_injective. unfold icon_name in H.
    cbn [append] in H. injection H as H.
    apply (append_same_length _ _ _ _) in H; [ exact H | ].
    apply (f_equal String.length) in H.
    rewrite !length_append in H. cbn [String.length] in H.
    rewrite !length_append in H. cbn [String.length] in H. lia. }
  split.
  - intros a b. split; [ apply Hinj | now intros -> ].
  - intros E l Hl. apply Injective_map_NoDup; [ | exact Hl ].
    intros a b H. apply Hinj. now apply os_path_join_inj in H.
Qed.

(** ** More on the export loop *)

Lemma in_write_file (p : string) (img : Canvas) (fs : list (string * Canvas))
      (e : string * Canvas) :
  In e (write_file p img fs) <-> (In e fs /\ fst e <> p) \/ e = (p, img).
Proof.
  unfold write_file. rewrite in_app_iff, filter_In, negb_true_iff. simpl.
  destruct (String.eqb_spec (fst e) p) as [Heq | Hne].
  - split; [ intros [[_ H] | [H | []]] | intros [[_ H] | H] ];
      first [ discriminate | contradiction | auto ].
  - split; [ intros [[H _] | [H | []]] | intros [[H _] | H] ]; auto.
Qed.

Lemma in_fold_write_job (js : list Job) (fs : list (string * Canvas)) (e : string * Canvas) :
  In e (fold_left write_job js fs) -> In e fs \/ In (fst e) (map jpath js).
Proof.
  revert fs. induction js as [ | j js IH]; intros fs H; simpl in *; [ now left | ].
  apply IH in H as [H | H]; [ | now right; right ].
  apply in_write_file in H as [[H _] | ->]; [ now left | right; now left ].
Qed.

Lemma fold_write_job_keeps (js : list Job) (fs : list (string * Canvas)) (e : string * Canvas) :
  In e fs -> ~ In (fst e) (map jpath js) -> In e (fold_left write_job js fs).
Proof.
  revert fs. induction js as [ | j js IH]; intros fs H Hn; simpl in *; [ assumption | ].
  apply IH; [ | tauto ].
  apply in_write_file. left. split; [ assumption | ]. intros Heq. apply Hn. now left.
Qed.

Lemma filter_all {A} (f : A -> bool) (l : list A) :
  (forall x, In x l -> f x = true) -> filter f l = l.
Proof.
  induction l as [ | a l IH]; intros H; simpl; [ reflexivity | ].
  rewrite (H a) by now left. f_equal. apply IH. intros x Hx. apply H. now right.
Qed.

Lemma filter_none {A} (f : A -> bool) (l : list A) :
  (forall x, In x l -> f x = false) -> filter f l = [].
Proof.
  induction l as [ | a l IH]; intros H; simpl; [ reflexivity | ].
  rewrite (H a) by now left. apply IH. intros x Hx. apply H. now right.
Qed.

Lemma filter_twice {A} (f g : A -> bool) (l : list A) :
  filter f (filter g l) = filter (fun x => g x && f x) l.
Proof.
  induction l as [ | a l IH]; simpl; [ reflexivity | ].
  destruct (g a); simpl; [ destruct (f a); now rewrite IH | exact IH ].
Qed.

Lemma has_path_spec (paths : list string) (e : string * Canvas) :
  has_path paths e = true <-> In (fst e) paths.
Proof.
  unfold has_path. rewrite existsb_exists. split.
  - intros (p & Hp & Heq). apply String.eqb_eq in Heq. now rewrite Heq.
  - intros H. exists (fst e). split; [ assumption | apply String.eqb_refl ].
Qed.

(** Saving a batch of files of distinct names into any directory: the files
    of other names stay, in their order, and the batch follows. *)
Lemma fold_write_job_replace (js : list Job) (fs : list (string * Canvas)) :
  NoDup (map jpath js) ->
  fold_left write_job js fs =
  filter (fun e => negb (has_path (map jpath js) e)) fs
  ++ map (fun j => (jpath j, image_of (jimage j))) js.
Proof.
  revert fs. induction js as [ | j js IH]; intros fs Hnd.
  - simpl. rewrite app_nil_r. symmetry. now apply filter_all.
  - inversion Hnd as [ | ? ? Hj Hnd']; subst.
    cbn [fold_left map]. rewrite IH by assumption.
    unfold write_job at 1, write_file. rewrite filter_app, filter_twice.
    rewrite <- app_assoc. f_equal.
    + apply filter_ext. intros e. unfold has_path. cbn [existsb map].
      now rewrite negb_orb.
    + cbn [filter app].
      replace (has_path (map jpath js) (jpath j, image_of (jimage j))) with false; [ reflexivity | ].
      symmetry. apply not_true_is_false. rewrite has_path_spec. exact Hj.
Qed.

(** The saves of the batch are tried in order; the first path that cannot
    be written, if there is one, splits the jobs. *)
Lemma first_unwritable (wr : string -> bool) (js : list Job) :
  Forall (fun j => wr (jpath j) = true) js \/
  exists pre j post, js = pre ++ j :: post /\
                     Forall (fun j => wr (jpath j) = true) pre /\ wr (jpath j) = false.
Proof.
  induction js as [ | j js IH]; [ left; constructor | ].
  destruct (wr (jpath j)) eqn:Hj.
  - destruct IH as [IH | (pre & j' & post & -> & Hpre & Hj')].
    + left. now constructor.
    + right. exists (j :: pre), j', post. repeat split; [ now constructor | assumption ].
  - right. exists [], j, js. repeat split; [ constructor | assumption ].
Qed.

(** X19: a run in which every target can be written prints exactly the twelve
    lines of [transcript], in order, after whatever was printed before. *)
Theorem export_prints_transcript (P : Rasteriser) (E : Env) (w : World) :
  (forall p, In p (targets E) -> writable w p = true) ->
  fst (generate_all_icons P E w) = Ok tt /\
  stdout (snd (generate_all_icons P E w)) = stdout w ++ transcript.
Proof.
  intros Hw. rewrite generate_all_icons_ok by assumption. split; [ reflexivity | ].
  cbn [snd stdout]. rewrite announce_lines, <- !app_assoc. reflexivity.
Qed.

Lemma export_prints_transcript_witness :
  fst (generate_all_icons box_rasteriser windows_env used_world) = Ok tt /\
  stdout (snd (generate_all_icons box_rasteriser windows_env used_world))
  = "earlier output" :: transcript.
Proof.
  apply (export_prints_transcript box_rasteriser windows_env used_world).
  intros p _. reflexivity.
Defined.

(** X20: the run ends normally exactly when each of the eleven target paths
    can be written; otherwise it raises [OSError], and nothing else. *)
Theorem export_succeeds_iff_writable (P : Rasteriser) (E : Env) (w : World) :
  (fst (generate_all_icons P E w) = Ok tt <->
   forall p, In p (targets E) -> writable w p = true) /\
  (fst (generate_all_icons P E w) = Ok tt \/
   fst (generate_all_icons P E w) = Raise OSError).
Proof.
  destruct (first_unwritable (writable w) (jobs P E))
    as [Hall | (pre & j & post & Hjobs & Hpre & Hj)].
  - assert (Hw : forall p, In p (targets E) -> writable w p = true).
    { intros p Hp. rewrite <- (jobs_paths P E) in Hp.
      apply in_map_iff in Hp as (j & <- & Hin).
      rewrite Forall_forall in Hall. now apply Hall. }
    rewrite generate_all_icons_ok by assumption. split; [ | now left ].
    split; [ intros _; exact Hw | reflexivity ].
  - rewrite (generate_all_icons_fail P E w pre post j Hjobs Hpre Hj).
    split; [ | now right ]. split; [ discriminate | ].
    intros Hw. exfalso.
    assert (Hin : In (jpath j) (targets E)).
    { rewrite <- (jobs_paths P E), Hjobs. apply in_map, in_elt. }
    rewrite (Hw _ Hin) in Hj. discriminate.
Qed.

(** X21: whatever the directory allows, the run changes nothing but the
    eleven targets: the permissions are as before, the lines printed before
    are kept, every file of another name is still there, and every file there
    afterwards was there before or is one of the targets. *)
Theorem export_touches_only_targets (P : Rasteriser) (E : Env) (w : World) :
  let w' := snd (generate_all_icons P E w) in
  writable w' = writable w /\
  (exists ls, stdout w' = stdout w ++ ls) /\
  (forall e, In e (files w) -> ~ In (fst e) (targets E) -> In e (files w')) /\
  (forall e, In e (files w') -> In e (files w) \/ In (fst e) (targets E)).
Proof.
  assert (G : forall js, incl (map jpath js) (targets E) ->
            (forall e, In e (files w) -> ~ In (fst e) (targets E) ->
                       In e (fold_left write_job js (files w))) /\
            (forall e, In e (fold_left write_job js (files w)) ->
                       In e (files w) \/ In (fst e) (targets E))).
  { intros js Hjs. split.
    - intros e He Hn. apply fold_write_job_keeps; [ assumption | ].
      intros Hin. apply Hn. now apply Hjs.
    - intros e He. apply in_fold_write_job in He as [He | He]; [ now left | right ].
      now apply Hjs. }
  destruct (first_unwritable (writable w) (jobs P E))
    as [Hall | (pre & j & post & Hjobs & Hpre & Hj)].
  - assert (Hw : forall p, In p (targets E) -> writable w p = true).
    { intros p Hp. rewrite <- (jobs_paths P E) in Hp.
      apply in_map_iff in Hp as (j & <- & Hin).
      rewrite Forall_forall in Hall. now apply Hall. }
    rewrite generate_all_icons_ok by assumption. cbn [snd writable stdout files].
    split; [ reflexivity | split ].
    + eexists. rewrite <- !app_assoc. reflexivity.
    + apply G. rewrite jobs_paths. apply incl_refl.
  - rewrite (generate_all_icons_fail P E w pre post j Hjobs Hpre Hj).
    cbn [snd writable stdout files].
    split; [ reflexivity | split ].
    + eexists. rewrite <- !app_assoc. reflexivity.
    + apply G. rewrite <- (jobs_paths P E), Hjobs, map_app. apply incl_appl, incl_refl.
Qed.

Lemma rendered_paths (P : Rasteriser) (E : Env) : map fst (rendered P E) = targets E.
Proof. unfold rendered. rewrite map_map. apply jobs_paths. Qed.

(** X22: run where every target can be written, on a directory that may
    already hold files, the loop leaves the files of other names as they were
    and in their order, followed by the eleven targets, each holding the image
    just rendered (a target present before is replaced, not kept twice);
    running it again leaves the same files. *)
Theorem export_replaces_targets (P : Rasteriser) (E : Env) (w : World) :
  (forall p, In p (targets E) -> writable w p = true) ->
  exists w1, generate_all_icons P E w = (Ok tt, w1) /\
             files w1 = other_files E (files w) ++ rendered P E /\
             map dims (rendered P E) = expected_files E /\
             exists w2, generate_all_icons P E w1 = (Ok tt, w2) /\ files w2 = files w1.
Proof.
  intros Hw.
  assert (Hfiles : forall fs, fold_left write_job (jobs P E) fs
                              = other_files E fs ++ rendered P E).
  { intros fs. rewrite fold_write_job_replace by (rewrite jobs_paths; apply targets_NoDup).
    now rewrite jobs_paths. }
  rewrite generate_all_icons_ok by assumption.
  eexists. split; [ reflexivity | ]. cbn [files].
  split; [ apply Hfiles | ]. split.
  { unfold rendered. rewrite map_map. apply jobs_dims. }
  rewrite generate_all_icons_ok by (cbn [writable]; assumption).
  eexists. split; [ reflexivity | ]. cbn [files].
  rewrite !Hfiles. unfold other_files at 1. rewrite filter_app.
  fold (other_files E (other_files E (files w))).
  replace (filter (fun e => negb (has_path (targets E) e)) (rendered P E)) with (@nil (string * Canvas)).
  - rewrite app_nil_r. f_equal. unfold other_files. rewrite filter_twice.
    apply filter_ext. intros e. now rewrite andb_diag.
  - symmetry. apply filter_none. intros e He. apply negb_false_iff, has_path_spec.
    rewrite <- (rendered_paths P E). now apply in_map.
Qed.

Lemma export_replaces_targets_witness :
  exists w1, generate_all_icons box_rasteriser windows_env used_world = (Ok tt, w1) /\
             files w1 = (os_path_join windows_env icons_dir "notes.txt", blank 2)
                        :: rendered box_rasteriser windows_env /\
             map dims (rendered box_rasteriser windows_env) = expected_files windows_env /\
             exists w2, generate_all_icons box_rasteriser windows_env w1 = (Ok tt, w2) /\
                        files w2 = files w1.
Proof.
  apply (export_replaces_targets box_rasteriser windows_env used_world).
  intros p _. reflexivity.
Defined.
